(** * lasm: the assembler of the Lejon teaching MCU, embedded in Rocq

    A shallow embedding of [main.go]: the first pass ([parse]), the
    per-instruction encoder ([assembleInstruction] and its helpers), the
    orchestrator ([assembleProgram]), the hex serializer
    ([convertToHexAndFormat]) and the part of [main] that joins them.

    Go strings are byte sequences and are embedded as [string] (a list of
    8-bit [ascii] characters).  The functions of the Go standard library the
    program calls ([strings.TrimSpace], [strings.Fields], [strconv.Atoi],
    [strconv.ParseInt], [fmt.Sprintf] with [%08b] and [%04X]) are embedded
    in the modules [utf8], [unicode], [strings], [strconv] and [fmt] below,
    following the library's own code.  The platform [int] is 64 bits wide. *)

From Stdlib Require Import ZArith NArith Lia Ascii String List Bool DecimalString.
From stdpp Require Import gmap strings list.

(** ** Bytes and slices of strings *)

Definition byte (c : ascii) : N := N_of_ascii c.

(** [s[n:]] *)
Fixpoint sdrop (n : nat) (s : string) : string :=
  match n, s with
  | O, _ => s
  | S n', String _ t => sdrop n' t
  | S _, EmptyString => EmptyString
  end.

(** [s[:n]] *)
Fixpoint stake (n : nat) (s : string) : string :=
  match n, s with
  | O, _ => EmptyString
  | S n', String c t => String c (stake n' t)
  | S _, EmptyString => EmptyString
  end.

(** ** [unicode/utf8] *)

Module utf8.

Definition RuneError : N := 0xFFFD%N.
Definition RuneSelf : N := 0x80%N.
Definition UTFMax : nat := 4.

(** An entry of the table [first]: the byte is ASCII, is no first byte of
    an encoding, or announces [size] bytes whose second lies in [lo..hi]
    (the table [acceptRanges]). *)
Inductive firstInfo : Type :=
| isASCII
| isInvalid
| isLead (size : nat) (lo hi : N).

Definition first (b : N) : firstInfo :=
  if (b <? 0x80)%N then isASCII
  else if (b <? 0xC2)%N then isInvalid
  else if (b <? 0xE0)%N then isLead 2 0x80 0xBF
  else if (b =? 0xE0)%N then isLead 3 0xA0 0xBF
  else if (b <? 0xED)%N then isLead 3 0x80 0xBF
  else if (b =? 0xED)%N then isLead 3 0x80 0x9F
  else if (b <? 0xF0)%N then isLead 3 0x80 0xBF
  else if (b =? 0xF0)%N then isLead 4 0x90 0xBF
  else if (b <? 0xF4)%N then isLead 4 0x80 0xBF
  else if (b =? 0xF4)%N then isLead 4 0x80 0x8F
  else isInvalid.

(** Continuation bytes lie in [locb..hicb]. *)
Definition notContinuation (b : N) : bool := ((b <? 0x80) || (0xBF <? b))%N.

(** [utf8.DecodeRuneInString]: the first rune of [s] and its width in
    bytes; an invalid or short encoding gives [(RuneError, 1)], the empty
    string [(RuneError, 0)]. *)
Definition DecodeRuneInString (s : string) : N * nat :=
  match s with
  | EmptyString => (RuneError, 0)
  | String c0 t0 =>
    let s0 := byte c0 in
    match first s0 with
    | isASCII => (s0, 1)
    | isInvalid => (RuneError, 1)
    | isLead sz lo hi =>
      if String.length s <? sz then (RuneError, 1) else
      match t0 with
      | EmptyString => (RuneError, 1)
      | String c1 t1 =>
        let s1 := byte c1 in
        if ((s1 <? lo) || (hi <? s1))%N then (RuneError, 1) else
        if sz <=? 2 then
          (N.lor (N.shiftl (N.land s0 0x1F) 6) (N.land s1 0x3F), 2)
        else
        match t1 with
        | EmptyString => (RuneError, 1)
        | String c2 t2 =>
          let s2 := byte c2 in
          if notContinuation s2 then (RuneError, 1) else
          if sz <=? 3 then
            (N.lor (N.lor (N.shiftl (N.land s0 0x0F) 12)
                          (N.shiftl (N.land s1 0x3F) 6))
                   (N.land s2 0x3F), 3)
          else
          match t2 with
          | EmptyString => (RuneError, 1)
          | String c3 _ =>
            let s3 := byte c3 in
            if notContinuation s3 then (RuneError, 1) else
            (N.lor (N.lor (N.lor (N.shiftl (N.land s0 0x07) 18)
                                 (N.shiftl (N.land s1 0x3F) 12))
                          (N.shiftl (N.land s2 0x3F) 6))
                   (N.land s3 0x3F), 4)
          end
        end
      end
    end
  end.

(** [utf8.RuneStart] *)
Definition RuneStart (b : N) : bool := negb (N.land b 0xC0 =? 0x80)%N.

(** The backwards scan of [DecodeLastRuneInString]: from [start] down to
    [lim], the first index holding a rune start; [lim - 1] (as an
    integer) when there is none. *)
Fixpoint scanStart (s : string) (start : Z) (fuel : nat) (lim : Z) : Z :=
  match fuel with
  | O => start
  | S fuel' =>
    if (start <? lim)%Z then start
    else match String.get (Z.to_nat start) s with
         | Some c =>
           if RuneStart (byte c) then start
           else scanStart s (start - 1)%Z fuel' lim
         | None => start
         end
  end.

(** [utf8.DecodeLastRuneInString] *)
Definition DecodeLastRuneInString (s : string) : N * nat :=
  let end_ := String.length s in
  match end_ with
  | O => (RuneError, 0)
  | S start =>
    match String.get start s with
    | None => (RuneError, 0)
    | Some c =>
      let r := byte c in
      if (r <? RuneSelf)%N then (r, 1) else
      let lim := Z.max 0 (Z.of_nat end_ - Z.of_nat UTFMax) in
      let start' := scanStart s (Z.of_nat start - 1) (S UTFMax) lim in
      let start'' := Z.to_nat (Z.max 0 start') in
      let '(r', size) := DecodeRuneInString (sdrop start'' s) in
      if (start'' + size =? end_) then (r', size) else (RuneError, 1)
    end
  end.

End utf8.

(** ** [unicode] *)

Module unicode.

(** [unicode.IsSpace]: the Latin-1 cases of the function and the rest of
    the table [White_Space]. *)
Definition IsSpace (r : N) : bool :=
  if (r <=? 0xFF)%N then
    ((9 <=? r) && (r <=? 13) || (r =? 0x20) || (r =? 0x85) || (r =? 0xA0))%N
  else
    ((r =? 0x1680) || ((0x2000 <=? r) && (r <=? 0x200A))
     || (r =? 0x2028) || (r =? 0x2029) || (r =? 0x202F)
     || (r =? 0x205F) || (r =? 0x3000))%N.

End unicode.

(** ** [strings] *)

Module strings.

(** The table [asciiSpace]. *)
Definition asciiSpace (b : N) : bool :=
  ((9 <=? b) && (b <=? 13) || (b =? 0x20))%N.

(** [strings.HasPrefix] *)
Definition HasPrefix (s prefix : string) : bool := String.prefix prefix s.

(** [strings.Repeat] *)
Fixpoint Repeat (s : string) (count : nat) : string :=
  match count with
  | O => EmptyString
  | S n => s +:+ Repeat s n
  end.

(** [strings.Join] *)
Definition Join (elems : list string) (sep : string) : string :=
  String.concat sep elems.

(** The loop of [indexFunc]: [for i, r := range s], which decodes one
    rune after the other from the front; [i] is the offset of [s] in the
    string the scan started on.  [None] stands for [-1]. *)
Fixpoint indexFuncFrom (f : N -> bool) (truth : bool)
         (fuel : nat) (s : string) (i : nat) : option nat :=
  match fuel with
  | O => None
  | S fuel' =>
    match s with
    | EmptyString => None
    | String _ _ =>
      let '(r, size) := utf8.DecodeRuneInString s in
      if Bool.eqb (f r) truth then Some i
      else indexFuncFrom f truth fuel' (sdrop size s) (i + size)
    end
  end.

Definition indexFunc (s : string) (f : N -> bool) (truth : bool) : option nat :=
  indexFuncFrom f truth (String.length s) s 0.

(** The loop of [lastIndexFunc]: [for i := len(s); i > 0; ] decoding the
    last rune of [s[0:i]]. *)
Fixpoint lastIndexFuncFrom (f : N -> bool) (truth : bool)
         (fuel : nat) (s : string) (i : nat) : option nat :=
  match fuel with
  | O => None
  | S fuel' =>
    match i with
    | O => None
    | S _ =>
      let '(r, size) := utf8.DecodeLastRuneInString (stake i s) in
      let i' := i - size in
      if Bool.eqb (f r) truth then Some i'
      else lastIndexFuncFrom f truth fuel' s i'
    end
  end.

Definition lastIndexFunc (s : string) (f : N -> bool) (truth : bool) : option nat :=
  lastIndexFuncFrom f truth (String.length s) s (String.length s).

(** [strings.TrimLeftFunc] *)
Definition TrimLeftFunc (s : string) (f : N -> bool) : string :=
  match indexFunc s f false with
  | None => EmptyString
  | Some i => sdrop i s
  end.

(** [strings.TrimRightFunc] *)
Definition TrimRightFunc (s : string) (f : N -> bool) : string :=
  match lastIndexFunc s f false with
  | Some i =>
    match String.get i s with
    | Some c =>
      if (utf8.RuneSelf <=? byte c)%N then
        stake (i + snd (utf8.DecodeRuneInString (sdrop i s))) s
      else stake (i + 1) s
    | None => stake (i + 1) s
    end
  | None => EmptyString
  end.

(** [strings.TrimFunc] *)
Definition TrimFunc (s : string) (f : N -> bool) : string :=
  TrimRightFunc (TrimLeftFunc s f) f.

(** The second loop of [TrimSpace], on [s = s[start:]]: [stop] runs down
    from the end over ASCII spaces. *)
Fixpoint trimSpaceStop (s : string) (stop : nat) : string :=
  match stop with
  | O => EmptyString
  | S stop' =>
    match String.get stop' s with
    | Some c =>
      if (utf8.RuneSelf <=? byte c)%N then
        TrimRightFunc (stake stop s) unicode.IsSpace
      else if asciiSpace (byte c) then trimSpaceStop s stop'
      else stake stop s
    | None => stake stop s
    end
  end.

(** [strings.TrimSpace]: the first loop runs [start] up over ASCII
    spaces; a byte that is not ASCII sends the rest to [TrimFunc]. *)
Fixpoint TrimSpace (s : string) : string :=
  match s with
  | EmptyString => EmptyString
  | String c t =>
    if (utf8.RuneSelf <=? byte c)%N then TrimFunc s unicode.IsSpace
    else if asciiSpace (byte c) then TrimSpace t
    else trimSpaceStop s (String.length s)
  end.

(** A field in progress is closed when a space or the end is met. *)
Definition closeField (cur : string) : list string :=
  match cur with
  | EmptyString => []
  | String _ _ => [cur]
  end.

(** The loop of [FieldsFunc]: [for end, rune := range s]; [cur] holds the
    bytes of the field in progress, [s[start:end]], and is empty when no
    field is open ([start < 0]). *)
Fixpoint fieldsFrom (f : N -> bool) (fuel : nat) (s : string) (cur : string)
  : list string :=
  match fuel with
  | O => closeField cur
  | S fuel' =>
    match s with
    | EmptyString => closeField cur
    | String _ _ =>
      let '(r, size) := utf8.DecodeRuneInString s in
      if f r then closeField cur ++ fieldsFrom f fuel' (sdrop size s) EmptyString
      else fieldsFrom f fuel' (sdrop size s) (cur +:+ stake size s)
    end
  end.

(** [strings.FieldsFunc] *)
Definition FieldsFunc (s : string) (f : N -> bool) : list string :=
  fieldsFrom f (String.length s) s EmptyString.

(** The loop of [Fields] for a string of ASCII bytes only: the spaces are
    those of [asciiSpace], byte by byte. *)
Fixpoint fieldsASCII (s : string) (cur : string) : list string :=
  match s with
  | EmptyString => closeField cur
  | String c t =>
    if asciiSpace (byte c) then closeField cur ++ fieldsASCII t EmptyString
    else fieldsASCII t (cur +:+ String c EmptyString)
  end.

(** [setBits < utf8.RuneSelf]: no byte of [s] has its high bit set. *)
Fixpoint onlyASCII (s : string) : bool :=
  match s with
  | EmptyString => true
  | String c t => (byte c <? utf8.RuneSelf)%N && onlyASCII t
  end.

(** [strings.Fields] splits around runs of white space: byte by byte when
    the string is ASCII only, and by [FieldsFunc] with [unicode.IsSpace]
    otherwise. *)
Definition Fields (s : string) : list string :=
  if onlyASCII s then fieldsASCII s EmptyString
  else FieldsFunc s unicode.IsSpace.

(** [strings.HasSuffix] *)
Definition HasSuffix (s suffix : string) : bool :=
  (String.length suffix <=? String.length s)
  && String.eqb (sdrop (String.length s - String.length suffix) s) suffix.

(** [strings.TrimSuffix] *)
Definition TrimSuffix (s suffix : string) : string :=
  if HasSuffix s suffix
  then stake (String.length s - String.length suffix) s
  else s.

End strings.

(** ** [strconv] *)

Module strconv.

Local Open Scope Z_scope.

Inductive NumError : Type := ErrSyntax | ErrRange.

Definition IntSize : Z := 64.
Definition maxUint64 : Z := 2 ^ 64 - 1.

(** [lower(c)] is [c | ('x' - 'X')]. *)
Definition lower (c : Z) : Z := Z.lor c 0x20.

(** The value of a digit character, the [switch] in the loop of
    [ParseUint] (the underscore case needs [base == 0] and is absent). *)
Definition digitVal (c : Z) : option Z :=
  if (0x30 <=? c) && (c <=? 0x39) then Some (c - 0x30)
  else if (0x61 <=? lower c) && (lower c <=? 0x7A) then Some (lower c - 0x61 + 10)
  else None.

(** The loop of [ParseUint] over the bytes of [s]; [n] is a [uint64]. *)
Fixpoint parseUintLoop (base cutoff maxVal : Z) (s : string) (n : Z)
  : Z + NumError :=
  match s with
  | EmptyString => inl n
  | String c t =>
    match digitVal (Z.of_N (byte c)) with
    | None => inr ErrSyntax
    | Some d =>
      if base <=? d then inr ErrSyntax
      else if cutoff <=? n then inr ErrRange
      else
        let n' := (n * base) mod 2 ^ 64 in
        let n1 := (n' + d) mod 2 ^ 64 in
        if (n1 <? n') || (maxVal <? n1) then inr ErrRange
        else parseUintLoop base cutoff maxVal t n1
    end
  end%Z.

(** [strconv.ParseUint] for an explicit [base] in [2..36]. *)
Definition ParseUint (s : string) (base bitSize : Z) : Z + NumError :=
  match s with
  | EmptyString => inr ErrSyntax
  | String _ _ =>
    let bitSize := if (bitSize =? 0)%Z then IntSize else bitSize in
    let cutoff := (maxUint64 / base + 1)%Z in
    let maxVal := (2 ^ bitSize - 1)%Z in
    parseUintLoop base cutoff maxVal s 0
  end.

(** [strconv.ParseInt] *)
Definition ParseInt (s : string) (base bitSize : Z) : Z + NumError :=
  match s with
  | EmptyString => inr ErrSyntax
  | String c0 t =>
    let neg := Ascii.eqb c0 "-" in
    let s' := if Ascii.eqb c0 "+" || Ascii.eqb c0 "-" then t else s in
    match ParseUint s' base bitSize with
    | inr ErrSyntax => inr ErrSyntax
    | inr ErrRange => inr ErrRange
    | inl un =>
      let bitSize := if (bitSize =? 0)%Z then IntSize else bitSize in
      let cutoff := (2 ^ (bitSize - 1))%Z in
      if negb neg && (cutoff <=? un)%Z then inr ErrRange
      else if neg && (cutoff <? un)%Z then inr ErrRange
      else inl (if neg then - un else un)%Z
    end
  end.

(** The loop of the fast path of [Atoi]: [ch -= '0'] on a byte. *)
Fixpoint atoiLoop (s : string) (n : Z) : Z + NumError :=
  match s with
  | EmptyString => inl n
  | String c t =>
    let ch := ((Z.of_N (byte c) - 0x30) mod 256)%Z in
    if (9 <? ch)%Z then inr ErrSyntax
    else atoiLoop t (n * 10 + ch)%Z
  end.

(** [strconv.Atoi]: strings of fewer than 19 bytes take the fast path,
    the others go to [ParseInt(s, 10, 0)]. *)
Definition Atoi (s : string) : Z + NumError :=
  let sLen := String.length s in
  if ((0 <? sLen) && (sLen <? 19))%nat then
    match s with
    | EmptyString => inr ErrSyntax
    | String c0 t =>
      let signed := Ascii.eqb c0 "-" || Ascii.eqb c0 "+" in
      let s' := if signed then t else s in
      if signed && (String.length s' <? 1)%nat then inr ErrSyntax
      else match atoiLoop s' 0 with
           | inr e => inr e
           | inl n => inl (if Ascii.eqb c0 "-" then - n else n)%Z
           end
    end
  else ParseInt s 10 0.

End strconv.

(** ** [fmt] *)

Module fmt.

Local Open Scope Z_scope.

Definition ldigits : string := "0123456789abcdefx".
Definition udigits : string := "0123456789ABCDEFX".

(** [digits[k]] *)
Definition digitAt (digits : string) (k : Z) : string :=
  match String.get (Z.to_nat k) digits with
  | Some c => String c EmptyString
  | None => EmptyString
  end.

(** The digit loop of [fmtInteger] for a base [2 ^ shift]: the digits of
    [u] are written right to left in front of [acc]. A [uint64] has at
    most 64 digits. *)
Fixpoint fmtDigits (shift : Z) (digits : string) (fuel : nat) (u : Z)
         (acc : string) : string :=
  match fuel with
  | O => digitAt digits u +:+ acc
  | S fuel' =>
    if (2 ^ shift <=? u)%Z then
      fmtDigits shift digits fuel' (Z.shiftr u shift)
                (digitAt digits (Z.land u (2 ^ shift - 1)) +:+ acc)
    else digitAt digits u +:+ acc
  end.

(** [fmt.fmtInteger] for a signed 64-bit [v], the zero flag and the width
    [wid], as [%08b] ([shift = 1]) and [%04X] ([shift = 4]) call it: the
    digits of the magnitude, zeros up to [wid] characters (one less when
    a sign is written), then the sign. *)
Definition fmtInteger (v : Z) (shift : Z) (digits : string) (wid : nat)
  : string :=
  let negative := (v <? 0)%Z in
  let u := Z.abs v in
  let prec := (if negative then wid - 1 else wid)%nat in
  let ds := fmtDigits shift digits 64 u EmptyString in
  let padded := strings.Repeat "0" (prec - String.length ds)%nat +:+ ds in
  if negative then "-" +:+ padded else padded.

(** [fmt.Sprintf("%08b", v)] *)
Definition Sprintf_08b (v : Z) : string := fmtInteger v 1 ldigits 8.

(** [fmt.Sprintf("%04X", v)] *)
Definition Sprintf_04X (v : Z) : string := fmtInteger v 4 udigits 4.

End fmt.

(** ** The state of a run

    The program has two globals, [cfg] (read only after [loadConfig]) and
    [hadError]; it writes to standard output and, at the end, to a file.
    [cfg] is passed as an argument; the flag, the output and the files
    written are the [world] that the effectful functions thread. *)

(** The errors the encoder builds with [fmt.Errorf]; the argument is the
    text that fills [%s]. *)
Inductive error : Type :=
| InvalidInstructionFormat (s : string)
| UnknownOpcode (s : string)
| InvalidDestination (s : string)
| UnknownTag (s : string)
| BinaryDataLength (s : string)
| InvalidDecimalData (s : string).

(** [err.Error()] *)
Definition Error (e : error) : string :=
  match e with
  | InvalidInstructionFormat s => "invalid instruction format: " +:+ s
  | UnknownOpcode s => "unknown opcode: " +:+ s
  | InvalidDestination s => "invalid destination: " +:+ s
  | UnknownTag s => "unknown tag: " +:+ s
  | BinaryDataLength s => "binary data should be 8 bits long: " +:+ s
  | InvalidDecimalData s => "invalid decimal data: " +:+ s
  end.

(** What the program prints, one constructor per [fmt.Printf] or
    [fmt.Println] site. *)
Inductive output : Type :=
| OutHeader       (* "Assembling binary:" and the rule of 39 dashes *)
| OutFooter       (* the closing rule *)
| OutAssembled (line : Z) (instruction prettyInstruction : string)
| OutError (err : string) (instr : string)
| OutWriteError
| OutWritten (count : nat) (hexFilename : string)
| OutCount (count : nat)
| OutHex (hex : string).

Record world : Type := World {
  hadError : bool;
  stdout : list output;
  files : list (string * string)
}.

(** The zero value of the globals when [main] starts. *)
Definition world0 : world := World false [] [].

Definition M (A : Type) : Type := world -> A * world.

Definition ret {A} (a : A) : M A := fun w => (a, w).

Definition bind {A B} (m : M A) (k : A -> M B) : M B :=
  fun w => let '(a, w') := m w in k a w'.

Notation "x <- m ;; k" := (bind m (fun x => k))
  (at level 100, m at next level, right associativity).
Notation "m ;;; k" := (bind m (fun _ => k))
  (at level 100, right associativity).

Definition print (o : output) : M unit :=
  fun w => (tt, World (hadError w) (stdout w ++ [o]) (files w)).

Definition setHadError : M unit :=
  fun w => (tt, World true (stdout w) (files w)).

Definition getHadError : M bool := fun w => (hadError w, w).

(** [os.WriteFile]; [ok] tells whether the file system accepts the write. *)
Definition WriteFile (ok : bool) (name data : string) : M bool :=
  fun w => if ok then (true, World (hadError w) (stdout w) (files w ++ [(name, data)]))
           else (false, w).

(** [config] *)
Record config : Type := Config { Opcodes : gmap string string }.

(** ** The line classifier *)

Definition isComment (line : string) : bool := strings.HasPrefix line "//".

Definition isTag (line : string) : bool := strings.HasPrefix line "#".

(** ** The first pass *)

(** The body of the loop of [parse], for one line the scanner yields. *)
Definition parseLine (text : string)
           (st : gmap string Z * list string * Z)
  : gmap string Z * list string * Z :=
  let '(tags, instructions, lineNum) := st in
  let line := strings.TrimSpace text in
  if String.eqb line "" || isComment line then st
  else if isTag line then
    let tagName := sdrop 1 line in
    (<[tagName := lineNum]> tags, instructions, lineNum)
  else (tags, instructions ++ [line], (lineNum + 1)%Z).

Fixpoint parseLoop (lines : list string)
         (st : gmap string Z * list string * Z)
  : gmap string Z * list string * Z :=
  match lines with
  | [] => st
  | text :: rest => parseLoop rest (parseLine text st)
  end.

(** [parse]; the reader is given by the lines its scanner yields. *)
Definition parse (lines : list string) : list string * gmap string Z :=
  let '(tags, instructions, _) := parseLoop lines (∅, [], 0%Z) in
  (instructions, tags).

(** ** The instruction encoder *)

Definition isDestination (part : string) : bool :=
  String.eqb part "R0" || String.eqb part "R1".

Definition processDestination (dest : string) : string * option error :=
  if String.eqb dest "R0" then ("0", None)
  else if String.eqb dest "R1" then ("1", None)
  else ("", Some (InvalidDestination dest)).

Definition getDestAndData (parts : list string)
  : string * string * option error :=
  match parts with
  | [_] => ("", "", None)
  | [_; p1] =>
    if isDestination p1 then
      let '(dest, err) := processDestination p1 in (dest, "", err)
    else ("", p1, None)
  | [_; p1; p2] =>
    let '(dest, err) := processDestination p1 in (dest, p2, err)
  | _ => ("", "", Some (InvalidInstructionFormat (strings.Join parts " ")))
  end.

Definition processTag (data : string) (tags : gmap string Z)
  : string * option error :=
  let name := sdrop 1 data in
  match tags !! name with
  | None => ("", Some (UnknownTag name))
  | Some address => (fmt.Sprintf_08b address, None)
  end.

Definition processBinOrDecData (data : string) : string * option error :=
  if strings.HasPrefix data "0b" then
    let data := sdrop 2 data in
    if negb (String.length data =? 8) then ("", Some (BinaryDataLength data))
    else (data, None)
  else
    match strconv.Atoi data with
    | inr _ => ("", Some (InvalidDecimalData data))
    | inl decimal => (fmt.Sprintf_08b decimal, None)
    end.

Definition processData (data : string) (tags : gmap string Z)
  : string * option error :=
  if strings.HasPrefix data "#" then processTag data tags
  else processBinOrDecData data.

Definition assembleInstruction (cfg : config) (instruction : string)
           (tags : gmap string Z) (line : Z) : M (string * option error) :=
  let parts := strings.Fields instruction in
  match parts with
  | [] => ret ("", Some (InvalidInstructionFormat instruction))
  | part0 :: _ =>
    match Opcodes cfg !! part0 with
    | None => ret ("", Some (UnknownOpcode part0))
    | Some opcode =>
      let '(dest, data, err) := getDestAndData parts in
      match err with
      | Some e => ret ("", Some e)
      | None =>
        let dest := if String.eqb dest "" then "0" else dest in
        let '(data, err) :=
          if String.eqb data "" then (strings.Repeat "0" 8, None)
          else processData data tags in
        match err with
        | Some e => ret ("", Some e)
        | None =>
          let prettyInstruction := opcode +:+ " " +:+ dest +:+ " " +:+ data in
          print (OutAssembled line instruction prettyInstruction) ;;;
          ret (opcode +:+ dest +:+ data, None)
        end
      end
    end
  end.

(** ** The orchestrator *)

(** The loop of [assembleProgram]: [line] is the index of the head of
    [instructions] in the whole list. *)
Fixpoint assembleLoop (cfg : config) (tags : gmap string Z)
         (instructions : list string) (line : Z) (assembled : list string)
  : M (list string) :=
  match instructions with
  | [] => ret assembled
  | instr :: rest =>
    r <- assembleInstruction cfg instr tags line ;;
    match r with
    | (_, Some err) =>
      print (OutError (Error err) instr) ;;;
      setHadError ;;;
      assembleLoop cfg tags rest (line + 1)%Z assembled
    | (program, None) =>
      assembleLoop cfg tags rest (line + 1)%Z (assembled ++ [program])
    end
  end.

Definition assembleProgram (cfg : config) (instructions : list string)
           (tags : gmap string Z) : M (list string) :=
  print OutHeader ;;;
  assembled <- assembleLoop cfg tags instructions 0%Z [] ;;
  print OutFooter ;;;
  ret assembled.

(** ** The hex serializer *)

(** The first loop of [convertToHexAndFormat]; [None] is the [panic] on an
    instruction [strconv.ParseInt] refuses. *)
Fixpoint hexRows (program : list string) : option string :=
  match program with
  | [] => Some ""
  | instr :: rest =>
    match strconv.ParseInt instr 2 64 with
    | inr _ => None
    | inl binary =>
      match hexRows rest with
      | None => None
      | Some hex => Some (fmt.Sprintf_04X binary +:+ (String "059" (String "010" "")) +:+ hex)
      end
    end
  end.

Definition filler : string := String "0" (String "0" (String "0" (String "0" (String "059" (String "010" ""))))).

(** The second loop: [for i := len(program); i < 64; i++]. *)
Definition padRows (n : nat) : string := strings.Repeat filler (64 - n).

Definition convertToHexAndFormat (program : list string) : option string :=
  match hexRows program with
  | None => None
  | Some hex => Some (hex +:+ padRows (length program))
  end.

(** ** [main], from the call of [parse] on

    [useFile] and [filename] come from the command line, [lines] from the
    reader; [None] is a [panic]. *)
Definition main (cfg : config) (useFile : bool) (filename : string)
           (writeOk : bool) (lines : list string) : world -> option world :=
  fun w =>
  let '(instructions, tags) := parse lines in
  let '(program, w) := assembleProgram cfg instructions tags w in
  if hadError w then Some w
  else
    match convertToHexAndFormat program with
    | None => None
    | Some hex =>
      if useFile then
        let hexFilename := strings.TrimSuffix filename ".asm" +:+ ".hex" in
        let '(ok, w) := WriteFile writeOk hexFilename hex w in
        if ok then Some (snd (print (OutWritten (length program) hexFilename) w))
        else Some (snd (print OutWriteError w))
      else
        Some (snd ((print (OutCount (length program)) ;;; print (OutHex hex)) w))
    end.

(** * The vocabulary of the properties *)

(** The line classifier, as the specification names it: [parse] tests a
    trimmed line in this order: blank, comment, tag definition,
    instruction. *)
Inductive lineClass : Type :=
| Blank
| Comment
| TagDef (name : string)
| Instruction (line : string).

Definition classify (text : string) : lineClass :=
  let line := strings.TrimSpace text in
  if String.eqb line "" then Blank
  else if isComment line then Comment
  else if isTag line then TagDef (sdrop 1 line)
  else Instruction line.

(** The instruction lines of a source, in source order. *)
Definition instructionOf (text : string) : option string :=
  match classify text with
  | Instruction line => Some line
  | _ => None
  end.

Definition instructionsOf (lines : list string) : list string :=
  omap instructionOf lines.

Definition definesTag (name : string) (text : string) : Prop :=
  classify text = TagDef name.

(** [assembleInstruction] reads neither the flag nor the output: its result
    is a function of the opcode table, the tag table and the line, and on
    success it appends one line to the output. *)
Definition encode (cfg : config) (tags : gmap string Z) (instr : string)
  : string * option error :=
  (assembleInstruction cfg instr tags 0%Z world0).1.

Definition traceOf (cfg : config) (tags : gmap string Z) (instr : string)
           (line : Z) : list output :=
  stdout (assembleInstruction cfg instr tags line world0).2.

Definition addOutput (w : world) (os : list output) : world :=
  World (hadError w) (stdout w ++ os) (files w).

(** The lines that encode, in order. *)
Definition encoded (cfg : config) (tags : gmap string Z) (instr : string)
  : option string :=
  match encode cfg tags instr with
  | (program, None) => Some program
  | (_, Some _) => None
  end.

Definition fails (cfg : config) (tags : gmap string Z) (instr : string) : bool :=
  match encode cfg tags instr with
  | (_, Some _) => true
  | (_, None) => false
  end.

(** What the orchestrator prints for the line at address [line]. *)
Definition report (cfg : config) (tags : gmap string Z) (line : Z)
           (instr : string) : list output :=
  match encode cfg tags instr with
  | (_, Some err) => [OutError (Error err) instr]
  | (_, None) => traceOf cfg tags instr line
  end.

Fixpoint reports (cfg : config) (tags : gmap string Z) (line : Z)
         (instructions : list string) : list output :=
  match instructions with
  | [] => []
  | instr :: rest =>
    report cfg tags line instr ++ reports cfg tags (line + 1)%Z rest
  end.

(** A source line that is non-blank after whitespace stripping, not a
    comment and not a tag definition. *)
Definition isInstructionLine (text : string) : bool :=
  let line := strings.TrimSpace text in
  negb (String.eqb line "") && negb (isComment line) && negb (isTag line).

(** The hex images a run has produced: the files written and the images
    printed. *)
Definition printedHex (o : output) : option string :=
  match o with
  | OutHex hex => Some hex
  | _ => None
  end.

Definition hexImages (w : world) : list string :=
  map snd (files w) ++ omap printedHex (stdout w).

(** An opcode table and the program of the README, for the examples; the
    repository's own table is read from [config.json] at run time. *)
Definition exampleConfig : config :=
  Config (list_to_map [("LOD", "0001"); ("SUB", "0010");
                       ("BRZ", "0011"); ("BRN", "0100")]).

Definition readmeProgram : list string :=
  ["// Load 10 into R0"; "LOD R0 10"; "";
   "// Loop until R0 is 0"; "#loop"; "SUB R0 1"; "BRZ R0 #end"; "BRN #loop";
   ""; "#end"; "BRN #end"].

(** A source with two lines that do not encode around one that does. *)
Definition faultyProgram : list string :=
  ["FOO"; "LOD R0 10"; "LOD 1 2 3"].

(** The destination bit of a destination literal. *)
Definition destBit (dest : string) : string :=
  if String.eqb dest "R1" then "1" else "0".

(** An instruction with the opcode, a destination bit and a resolved data
    operand; the failure of the operand is the failure of the line. *)
Definition withData (opcode dest : string) (data : string * option error)
  : string * option error :=
  match data with
  | (field, None) => (opcode +:+ dest +:+ field, None)
  | (_, Some e) => ("", Some e)
  end.

(** ** Numerals

    What a string of digits denotes, apart from the library: [val] gives
    the value of a digit character, [numeral] reads digits from the left
    onto the accumulator. *)

Definition decDigit (c : ascii) : option Z :=
  let b := Z.of_N (byte c) in
  if (48 <=? b)%Z && (b <=? 57)%Z then Some (b - 48)%Z else None.

(** The digits of a base up to ten. *)
Definition digitBelow (base : Z) (c : ascii) : option Z :=
  match decDigit c with
  | Some d => if (d <? base)%Z then Some d else None
  | None => None
  end.

(** Upper-case hexadecimal digits. *)
Definition hexDigit (c : ascii) : option Z :=
  let b := Z.of_N (byte c) in
  if (48 <=? b)%Z && (b <=? 57)%Z then Some (b - 48)%Z
  else if (65 <=? b)%Z && (b <=? 70)%Z then Some (b - 55)%Z
  else None.

Fixpoint numeral (val : ascii -> option Z) (base : Z) (s : string) (n : Z)
  : option Z :=
  match s with
  | EmptyString => Some n
  | String c t =>
    match val c with
    | Some d => numeral val base t (n * base + d)%Z
    | None => None
    end
  end.

(** One digit or more. *)
Definition digitsValue (val : ascii -> option Z) (base : Z) (s : string)
  : option Z :=
  match s with
  | EmptyString => None
  | String _ _ => numeral val base s 0%Z
  end.

(** An optional sign, then one digit or more. *)
Definition signedValue (val : ascii -> option Z) (base : Z) (s : string)
  : option Z :=
  match s with
  | EmptyString => None
  | String c t =>
    if Ascii.eqb c "-" then Z.opp <$> digitsValue val base t
    else if Ascii.eqb c "+" then digitsValue val base t
    else digitsValue val base s
  end.

(** The values of the platform [int]. *)
Definition inInt (v : Z) : Prop := (- 2 ^ 63 <= v < 2 ^ 63)%Z.

(** The decimal token of a value that is not negative. *)
Definition decimalToken (v : Z) : string :=
  NilZero.string_of_uint (N.to_uint (Z.to_N v)).

Definition bitChar (b : bool) : string := if b then "1" else "0".

(** The 8 binary digits of a value, the most significant first. *)
Definition bits8 (v : Z) : string :=
  bitChar (Z.testbit v 7) +:+ bitChar (Z.testbit v 6)
  +:+ bitChar (Z.testbit v 5) +:+ bitChar (Z.testbit v 4)
  +:+ bitChar (Z.testbit v 3) +:+ bitChar (Z.testbit v 2)
  +:+ bitChar (Z.testbit v 1) +:+ bitChar (Z.testbit v 0).

(** The encoder gives [field] and no error. *)
Definition givesField (r : string * option error) (field : string) : bool :=
  match r with
  | (d, None) => String.eqb d field
  | (_, Some _) => false
  end.

(** Both tokens of [v] are data tokens without a tag prefix and encode to
    the 8 digits of [v], which denote [v]. *)
Definition sameField (v : Z) : bool :=
  negb (strings.HasPrefix (decimalToken v) "#")
  && negb (strings.HasPrefix ("0b" +:+ bits8 v) "#")
  && givesField (processBinOrDecData (decimalToken v)) (bits8 v)
  && givesField (processBinOrDecData ("0b" +:+ bits8 v)) (bits8 v)
  && match numeral (digitBelow 2) 2 (bits8 v) 0 with
     | Some w => Z.eqb w v
     | None => false
     end.

(** ** Rows of the hex image *)

(** [;] and a newline end a row. *)
Definition rowEnd : string := String ";" (String "010" "").

Definition row (v : Z) : string := fmt.Sprintf_04X v +:+ rowEnd.

Fixpoint joinRows (rows : list string) : string :=
  match rows with
  | [] => ""
  | r :: rest => r +:+ joinRows rest
  end.

(** The number of newline characters of a text. *)
Fixpoint countLines (s : string) : nat :=
  match s with
  | EmptyString => 0
  | String c t => (if Ascii.eqb c "010" then 1 else 0) + countLines t
  end.

(** An encoded instruction as the serializer expects it: one binary digit
    or more, denoting [v], which fits the 64-bit integer of the parse. *)
Definition isBitString (instr : string) (v : Z) : Prop :=
  instr <> "" /\ numeral (digitBelow 2) 2 instr 0 = Some v /\ (v < 2 ^ 63)%Z.

(** The first three instructions of the README program, encoded with
    [exampleConfig]. *)
Definition threeInstructions : list string :=
  ["0001000001010"; "0010000000001"; "0011000000100"].

(** * The vocabulary of the further properties *)



(** The data operand of a line, by the cases of [getDestAndData]: the one
    operand that is no destination literal, or the second of two. *)
Definition dataTokenOf (instruction : string) : option string :=
  match strings.Fields instruction with
  | [_; t] => if isDestination t then None else Some t
  | [_; _; t] => Some t
  | _ => None
  end.

(** What an error of the encoder says about the line. *)
Definition explains (cfg : config) (tags : gmap string Z)
           (instruction : string) (e : error) : Prop :=
  match e with
  | InvalidInstructionFormat s =>
    (strings.Fields instruction = [] /\ s = instruction)
    \/ (exists mnemonic operands,
          strings.Fields instruction = mnemonic :: operands
          /\ is_Some (Opcodes cfg !! mnemonic)
          /\ 2 < length operands
          /\ s = strings.Join (mnemonic :: operands) " ")
  | UnknownOpcode s =>
    exists operands,
      strings.Fields instruction = s :: operands /\ Opcodes cfg !! s = None
  | InvalidDestination s =>
    exists mnemonic t,
      strings.Fields instruction = [mnemonic; s; t]
      /\ is_Some (Opcodes cfg !! mnemonic) /\ s <> "R0" /\ s <> "R1"
  | UnknownTag s =>
    dataTokenOf instruction = Some ("#" +:+ s) /\ tags !! s = None
  | BinaryDataLength s =>
    dataTokenOf instruction = Some ("0b" +:+ s) /\ String.length s <> 8
  | InvalidDecimalData s =>
    dataTokenOf instruction = Some s
    /\ strings.HasPrefix s "#" = false
    /\ strings.HasPrefix s "0b" = false
    /\ ~ exists v, signedValue (digitBelow 10) 10 s = Some v /\ inInt v
  end.

(** An error report of the orchestrator. *)
Definition isOutError (o : output) : bool :=
  match o with
  | OutError _ _ => true
  | _ => false
  end.

(** An instruction the serializer cannot read: no optionally signed
    numeral of base 2 with the value of a 64-bit integer. *)
Definition unreadable (instr : string) : Prop :=
  forall v, signedValue (digitBelow 2) 2 instr = Some v -> ~ inInt v.

(** The name [main] gives the hex file. *)
Definition hexFilenameOf (filename : string) : string :=
  strings.TrimSuffix filename ".asm" +:+ ".hex".

(** ** [bufio.Scanner] with the default split function, [ScanLines]

    The reader is the string of the bytes it delivers.  A line is what
    stands before a newline, or what is left at the end when that is not
    empty; its token is the line without one final carriage return.  The
    scanner's buffer grows up to [MaxScanTokenSize] bytes: a line of that
    many bytes or more ends the scan with [ErrTooLong]. *)

Module bufio.

Definition MaxScanTokenSize : nat := 64 * 1024.

(** [dropCR] *)
Definition dropCR (data : string) : string :=
  match String.length data with
  | O => data
  | S n =>
    match String.get n data with
    | Some c => if Ascii.eqb c "013" then stake n data else data
    | None => data
    end
  end.

(** The tokens [Scan] and [Text] yield, one after the other, and whether
    the scan ended on [ErrTooLong] ([scanner.Err() != nil]); [rline] holds
    the bytes of the line in progress, the last one first. *)
Fixpoint scanFrom (data : string) (rline : string) : list string * bool :=
  match data with
  | EmptyString =>
    match rline with
    | EmptyString => ([], false)
    | String _ _ =>
      if MaxScanTokenSize <=? String.length rline then ([], true)
      else ([dropCR (String.rev rline)], false)
    end
  | String c rest =>
    if Ascii.eqb c "010" then
      if MaxScanTokenSize <=? String.length rline then ([], true)
      else
        let '(tokens, tooLong) := scanFrom rest EmptyString in
        (dropCR (String.rev rline) :: tokens, tooLong)
    else scanFrom rest (String c rline)
  end.

Definition ScanLines (r : string) : list string * bool :=
  scanFrom r EmptyString.

End bufio.

(** [parse] on a reader: the loop over [scanner.Scan()], then the [panic]
    on an error of the scanner ([None]). *)
Definition parseReader (r : string) : option (list string * gmap string Z) :=
  let '(lines, tooLong) := bufio.ScanLines r in
  if tooLong then None else Some (parse lines).

(** ** [main] from its start

    The ways [main] ends: a [panic] ([loadConfig], [parse] or the
    serializer), one of the three messages of its front part, or the end
    of a run. *)
Inductive exit : Type :=
| ExitPanic
| ExitUsage
| ExitBadExtension
| ExitOpenError
| ExitDone (w : world).

(** [main] from [parse] on, on a reader. *)
Definition runSource (cfg : config) (useFile : bool) (filename : string)
           (writeOk : bool) (source : string) : exit :=
  match bufio.ScanLines source with
  | (_, true) => ExitPanic
  | (lines, false) =>
    match main cfg useFile filename writeOk lines world0 with
    | None => ExitPanic
    | Some w => ExitDone w
    end
  end.

(** [main]: [loadConfig] gives the table or panics ([None]); [args] is
    [os.Args]; [stdin] is what standard input delivers and [openFile] what
    [os.Open] finds under a name ([None] is its error). *)
Definition mainFromArgs (loadConfig : option config) (args : list string)
           (stdin : string) (openFile : string -> option string)
           (writeOk : bool) : exit :=
  match loadConfig with
  | None => ExitPanic
  | Some cfg =>
    match args with
    | [_] => runSource cfg false "" writeOk stdin
    | [_; filename] =>
      if negb (strings.HasSuffix filename ".asm") then ExitBadExtension
      else
        match openFile filename with
        | None => ExitOpenError
        | Some source => runSource cfg true filename writeOk source
        end
    | _ => ExitUsage
    end
  end.

(** A line: no newline in it. *)
Fixpoint noNewline (s : string) : bool :=
  match s with
  | EmptyString => true
  | String c t => negb (Ascii.eqb c "010") && noNewline t
  end.

(** The lines of a text file, a newline after each. *)
Fixpoint unlines (lines : list string) : string :=
  match lines with
  | [] => ""
  | l :: rest => l +:+ String "010" (unlines rest)
  end.

(** A line the scanner's buffer can hold. *)
Definition fitsBuffer (l : string) : bool :=
  String.length l <? bufio.MaxScanTokenSize.

(** The lines the scanner yields before one that is too long. *)
Fixpoint scannedOf (lines : list string) : list string * bool :=
  match lines with
  | [] => ([], false)
  | l :: rest =>
    if fitsBuffer l then
      let '(tokens, tooLong) := scannedOf rest in (bufio.dropCR l :: tokens, tooLong)
    else ([], true)
  end.

(** A line with a carriage return put at its end, as in a file with CR LF
    line ends. *)
Definition withCR (l : string) : string := l +:+ String "013" "".

(** No byte of ASCII white space. *)
Fixpoint noAsciiSpace (s : string) : bool :=
  match s with
  | EmptyString => true
  | String c t => negb (strings.asciiSpace (byte c)) && noAsciiSpace t
  end.

(** The source file of the examples, as [os.Open] finds it. *)
Definition exampleFiles (name : string) : option string :=
  if String.eqb name "prog.asm" then Some (unlines readmeProgram) else None.





(** * Properties *)

(** ** Strings *)

(** Case analysis on every test of the goal. *)
Ltac case_ifs :=
  repeat match goal with
         | |- context [if ?c then _ else _] => destruct c
         end.

(** Both sides of an equivalence fail. *)
Ltac both_fail := split; [done | by intros [? _]].

Lemma prefix_empty s : String.prefix "" s = true.
Proof. by destruct s. Qed.

Lemma HasPrefix_app p s : strings.HasPrefix (p +:+ s) p = true.
Proof.
  unfold strings.HasPrefix. induction p as [|c p IH]; [apply prefix_empty|].
  change (String c p +:+ s) with (String c (p +:+ s)).
  cbn. by destruct (ascii_dec c c).
Qed.

Lemma HasPrefix_inv s p :
  strings.HasPrefix s p = true -> s = p +:+ sdrop (String.length p) s.
Proof.
  unfold strings.HasPrefix. revert s.
  induction p as [|c p IH]; intros s H; [done|].
  destruct s as [|c' s]; [done|]. cbn in H.
  destruct (ascii_dec c c') as [->|]; [|done].
  change (String c' p +:+ ?x) with (String c' (p +:+ x)).
  cbn. f_equal. by apply IH.
Qed.

Lemma sdrop_app p s : sdrop (String.length p) (p +:+ s) = s.
Proof.
  induction p as [|c p IH]; [done|].
  change (String c p +:+ s) with (String c (p +:+ s)). cbn. apply IH.
Qed.

Lemma IsSpace_ascii b :
  (b < utf8.RuneSelf)%N -> unicode.IsSpace b = strings.asciiSpace b.
Proof.
  unfold utf8.RuneSelf, unicode.IsSpace, strings.asciiSpace. intros Hb.
  assert (H1 : (b <=? 255)%N = true) by (apply N.leb_le; lia).
  assert (H2 : (b =? 133)%N = false) by (apply N.eqb_neq; lia).
  assert (H3 : (b =? 160)%N = false) by (apply N.eqb_neq; lia).
  rewrite H1, H2, H3. by rewrite !orb_false_r.
Qed.

Lemma first_ascii b : (b < utf8.RuneSelf)%N -> utf8.first b = utf8.isASCII.
Proof.
  unfold utf8.first, utf8.RuneSelf. intros Hb.
  by destruct (N.ltb_spec b 128); [|lia].
Qed.

(** On a string of ASCII bytes the two loops of [Fields] agree. *)
Lemma fieldsASCII_fieldsFrom s :
  strings.onlyASCII s = true ->
  forall fuel cur, String.length s <= fuel ->
    strings.fieldsASCII s cur
    = strings.fieldsFrom unicode.IsSpace fuel s cur.
Proof.
  induction s as [|c t IH]; intros Hascii fuel cur Hlen.
  - by destruct fuel.
  - destruct fuel as [|fuel]; [cbn in Hlen; lia|].
    cbn [strings.onlyASCII] in Hascii.
    apply andb_true_iff in Hascii as [Hc Ht]. apply N.ltb_lt in Hc.
    cbn [strings.fieldsASCII strings.fieldsFrom].
    unfold utf8.DecodeRuneInString. rewrite (first_ascii _ Hc).
    rewrite (IsSpace_ascii _ Hc). cbn [sdrop stake].
    cbn [String.length] in Hlen.
    destruct (strings.asciiSpace (byte c)); rewrite (IH Ht fuel) by lia; done.
Qed.

Lemma Fields_FieldsFunc s : strings.Fields s = strings.FieldsFunc s unicode.IsSpace.
Proof.
  unfold strings.Fields. destruct (strings.onlyASCII s) eqn:H; [|done].
  by apply fieldsASCII_fieldsFrom.
Qed.

(** ** The first pass *)

Lemma parseLine_classify text tags instructions lineNum :
  parseLine text (tags, instructions, lineNum) =
  match classify text with
  | Blank | Comment => (tags, instructions, lineNum)
  | TagDef name => (<[name := lineNum]> tags, instructions, lineNum)
  | Instruction line => (tags, instructions ++ [line], (lineNum + 1)%Z)
  end.
Proof.
  unfold parseLine, classify.
  destruct (String.eqb (strings.TrimSpace text) ""); simpl; [done|].
  destruct (isComment (strings.TrimSpace text)); [done|].
  by destruct (isTag (strings.TrimSpace text)).
Qed.

Lemma parseLoop_app pre post st :
  parseLoop (pre ++ post) st = parseLoop post (parseLoop pre st).
Proof. revert st. induction pre as [|t pre IH]; intros st; simpl; auto. Qed.

Lemma instructionsOf_cons text rest :
  instructionsOf (text :: rest) =
  match classify text with
  | Instruction line => line :: instructionsOf rest
  | _ => instructionsOf rest
  end.
Proof.
  unfold instructionsOf at 1. cbn [omap list_omap]. unfold instructionOf at 1.
  by destruct (classify text).
Qed.

(** The instruction list and the counter after the loop. *)
Lemma parseLoop_instructions lines tags instructions lineNum :
  (parseLoop lines (tags, instructions, lineNum)).1.2
    = instructions ++ instructionsOf lines
  /\ (parseLoop lines (tags, instructions, lineNum)).2
    = (lineNum + Z.of_nat (length (instructionsOf lines)))%Z.
Proof.
  revert tags instructions lineNum.
  induction lines as [|text rest IH]; intros tags instructions lineNum.
  - simpl. rewrite app_nil_r. split; [done | lia].
  - cbn [parseLoop]. rewrite parseLine_classify, instructionsOf_cons.
    destruct (classify text) as [| |name|line]; try apply IH.
    destruct (IH tags (instructions ++ [line]) (lineNum + 1)%Z) as [-> ->].
    rewrite <- app_assoc. simpl. split; [done | lia].
Qed.

(** A name no line defines keeps its binding. *)
Lemma parseLoop_tags_other lines name tags instructions lineNum :
  Forall (fun text => ~ definesTag name text) lines ->
  (parseLoop lines (tags, instructions, lineNum)).1.1 !! name = tags !! name.
Proof.
  revert tags instructions lineNum.
  induction lines as [|text rest IH]; intros tags instructions lineNum H; [done|].
  apply Forall_cons in H as [Hn H].
  cbn [parseLoop]. rewrite parseLine_classify. unfold definesTag in Hn.
  destruct (classify text) as [| |name'|line]; try (by apply IH).
  rewrite IH by done. apply lookup_insert_ne. congruence.
Qed.

(** The counter at a line is the number of instruction lines before it. *)
Lemma parseLoop_counter pre :
  (parseLoop pre (∅, [], 0%Z)).2 = Z.of_nat (length (instructionsOf pre))
  /\ (parseLoop pre (∅, [], 0%Z)).1.2 = instructionsOf pre.
Proof.
  destruct (parseLoop_instructions pre ∅ [] 0%Z) as [H1 H2].
  rewrite H1, H2. split; [lia | done].
Qed.

Lemma instructionsOf_app pre post :
  instructionsOf (pre ++ post) = instructionsOf pre ++ instructionsOf post.
Proof. unfold instructionsOf. apply omap_app. Qed.

Lemma parse_instructions lines : (parse lines).1 = instructionsOf lines.
Proof.
  unfold parse. destruct (parseLoop_counter lines) as [_ H].
  by destruct (parseLoop lines (∅, [], 0%Z)) as [[tags instructions] n].
Qed.

Lemma parse_tags lines : (parse lines).2 = (parseLoop lines (∅, [], 0%Z)).1.1.
Proof.
  unfold parse.
  by destruct (parseLoop lines (∅, [], 0%Z)) as [[tags instructions] n].
Qed.

(** The binding of a tag: the last line that defines it decides. *)
Lemma parse_tag_last pre text post name :
  definesTag name text ->
  Forall (fun t => ~ definesTag name t) post ->
  (parse (pre ++ text :: post)).2 !! name
    = Some (Z.of_nat (length (instructionsOf pre))).
Proof.
  intros Hdef Hpost. rewrite parse_tags, parseLoop_app. cbn [parseLoop].
  destruct (parseLoop_counter pre) as [Hn _].
  destruct (parseLoop pre (∅, [], 0%Z)) as [[tags instructions] n].
  simpl in Hn. subst n.
  rewrite parseLine_classify. unfold definesTag in Hdef. rewrite Hdef.
  rewrite parseLoop_tags_other by done. apply lookup_insert_eq.
Qed.

(** A name that no line defines is not in the table. *)
Lemma parse_tag_undefined lines name :
  Forall (fun t => ~ definesTag name t) lines ->
  (parse lines).2 !! name = None.
Proof.
  intros H. rewrite parse_tags, parseLoop_tags_other by done. apply lookup_empty.
Qed.

(** ** The encoder and the orchestrator *)

Lemma addOutput_nil w : addOutput w [] = w.
Proof. destruct w. unfold addOutput. simpl. by rewrite app_nil_r. Qed.

Lemma assembleInstruction_run cfg instr tags line w :
  assembleInstruction cfg instr tags line w
  = (encode cfg tags instr, addOutput w (traceOf cfg tags instr line)).
Proof.
  unfold encode, traceOf, assembleInstruction.
  destruct (strings.Fields instr) as [|part0 parts].
  { unfold ret. simpl. by rewrite addOutput_nil. }
  destruct (Opcodes cfg !! part0) as [opcode|].
  2:{ unfold ret. simpl. by rewrite addOutput_nil. }
  destruct (getDestAndData (part0 :: parts)) as [[dest data] [e|]].
  { unfold ret. simpl. by rewrite addOutput_nil. }
  destruct (if String.eqb data "" then _ else _) as [data' [e|]].
  { unfold ret. simpl. by rewrite addOutput_nil. }
  reflexivity.
Qed.

(** A line that encodes leaves one entry in the output, with its address. *)
Lemma traceOf_success cfg tags instr line out :
  encode cfg tags instr = (out, None) ->
  exists pretty, traceOf cfg tags instr line = [OutAssembled line instr pretty].
Proof.
  unfold encode, traceOf, assembleInstruction.
  destruct (strings.Fields instr) as [|part0 parts]; [done|].
  destruct (Opcodes cfg !! part0) as [opcode|]; [|done].
  destruct (getDestAndData (part0 :: parts)) as [[dest data] [e|]]; [done|].
  destruct (if String.eqb data "" then _ else _) as [data' [e|]]; [done|].
  intros _. eexists. reflexivity.
Qed.

(** A line that fails prints nothing itself. *)
Lemma traceOf_failure cfg tags instr line out err :
  encode cfg tags instr = (out, Some err) ->
  traceOf cfg tags instr line = [].
Proof.
  unfold encode, traceOf, assembleInstruction.
  destruct (strings.Fields instr) as [|part0 parts]; [done|].
  destruct (Opcodes cfg !! part0) as [opcode|]; [|done].
  destruct (getDestAndData (part0 :: parts)) as [[dest data] [e|]]; [done|].
  destruct (if String.eqb data "" then _ else _) as [data' [e|]]; done.
Qed.

Lemma assembleLoop_run cfg tags instructions line assembled w :
  assembleLoop cfg tags instructions line assembled w
  = (assembled ++ omap (encoded cfg tags) instructions,
     World (hadError w || existsb (fails cfg tags) instructions)
           (stdout w ++ reports cfg tags line instructions)
           (files w)).
Proof.
  revert line assembled w.
  induction instructions as [|instr rest IH]; intros line assembled w.
  - simpl. unfold ret. rewrite !app_nil_r, orb_false_r. by destruct w.
  - cbn [assembleLoop]. unfold bind at 1. rewrite assembleInstruction_run.
    cbn [omap list_omap existsb reports].
    unfold encoded at 1, fails at 1, report at 1.
    destruct (encode cfg tags instr) as [program [err|]] eqn:E.
    + rewrite (traceOf_failure _ _ _ _ _ _ E).
      unfold bind, print, setHadError. cbn. rewrite IH. cbn.
      rewrite orb_true_r, app_nil_r. by rewrite <- !app_assoc.
    + rewrite IH. cbn. by rewrite <- !app_assoc.
Qed.

Lemma assembleProgram_run cfg instructions tags w :
  assembleProgram cfg instructions tags w
  = (omap (encoded cfg tags) instructions,
     World (hadError w || existsb (fails cfg tags) instructions)
           (stdout w ++ [OutHeader] ++ reports cfg tags 0%Z instructions
                     ++ [OutFooter])
           (files w)).
Proof.
  unfold assembleProgram, bind, print, ret. rewrite assembleLoop_run. cbn.
  by rewrite <- !app_assoc.
Qed.

(** ** Tags and addresses *)

(** C2: the first pass binds a tag name to the running instruction counter
    at its definition.  For the last line [text] that defines [name], with
    [pre] the lines before it and [post] the lines after it: the counter
    there is the number of instruction lines in [pre]; the table maps
    [name] to it; it is the address of the first instruction line of
    [post], or the total instruction count when [post] has none; and a
    reference [#name] resolves to it wherever the reference stands, before
    or after the definition, earlier definitions of [name] being
    overwritten. *)
Theorem parse_binds_tags (pre post : list string) (text name : string) :
  definesTag name text ->
  Forall (fun t => ~ definesTag name t) post ->
  let lines := pre ++ text :: post in
  let instructions := (parse lines).1 in
  let tags := (parse lines).2 in
  let address := length (instructionsOf pre) in
  (parseLoop pre (∅, [], 0%Z)).2 = Z.of_nat address
  /\ tags !! name = Some (Z.of_nat address)
  /\ instructions = instructionsOf pre ++ instructionsOf post
  /\ (forall next rest, instructionsOf post = next :: rest ->
      instructions !! address = Some next)
  /\ (instructionsOf post = [] -> address = length instructions)
  /\ processData ("#" +:+ name) tags
     = (fmt.Sprintf_08b (Z.of_nat address), None).
Proof.
  intros Hdef Hpost lines instructions tags address.
  assert (Htag : tags !! name = Some (Z.of_nat address))
    by (by apply parse_tag_last).
  assert (Hins : instructions = instructionsOf pre ++ instructionsOf post).
  { unfold instructions, lines. rewrite parse_instructions, instructionsOf_app.
    rewrite instructionsOf_cons. unfold definesTag in Hdef. by rewrite Hdef. }
  split; [apply parseLoop_counter|].
  split; [done|]. split; [done|].
  split; [|split].
  - intros next rest Hnext. rewrite Hins, Hnext.
    by rewrite lookup_app_r, Nat.sub_diag.
  - intros Hnil. rewrite Hins, Hnil, app_nil_r. done.
  - unfold processData, processTag. rewrite HasPrefix_app.
    change (sdrop 1 ("#" +:+ name)) with name. by rewrite Htag.
Qed.

Lemma parse_binds_tags_witness :
  definesTag "end" "#end"
  /\ Forall (fun t => ~ definesTag "end" t) ["BRN #end"]
  /\ (parse ["BRN #end"; "#end"; "BRN #end"]).2 !! "end" = Some 1%Z
  /\ (parse ["BRN #end"; "#end"; "BRN #end"]).1 !! 1 = Some "BRN #end".
Proof.
  assert (H1 : definesTag "end" "#end") by (vm_compute; reflexivity).
  assert (H2 : Forall (fun t => ~ definesTag "end" t) ["BRN #end"]).
  { repeat constructor. intros H. vm_compute in H. discriminate H. }
  destruct (parse_binds_tags ["BRN #end"] ["BRN #end"] "#end" "end" H1 H2)
    as (_ & Htag & _ & Hnext & _).
  split; [exact H1|]. split; [exact H2|]. split; [exact Htag|].
  apply (Hnext "BRN #end" []). vm_compute. reflexivity.
Defined.

(** ** Instruction count and addresses *)

Lemma instructionsOf_filter lines :
  instructionsOf lines
  = map strings.TrimSpace (List.filter isInstructionLine lines).
Proof.
  induction lines as [|text rest IH]; [done|].
  rewrite instructionsOf_cons. cbn [List.filter].
  unfold classify, isInstructionLine.
  destruct (String.eqb (strings.TrimSpace text) ""); [done|].
  destruct (isComment (strings.TrimSpace text)); [done|].
  destruct (isTag (strings.TrimSpace text)); [done|].
  cbn. by f_equal.
Qed.

Lemma encoded_all_success cfg tags instructions :
  Forall (fun instr => (encode cfg tags instr).2 = None) instructions ->
  omap (encoded cfg tags) instructions
  = map (fun instr => (encode cfg tags instr).1) instructions
  /\ existsb (fails cfg tags) instructions = false.
Proof.
  induction 1 as [|instr rest Hok _ [IH1 IH2]]; [done|].
  cbn [omap list_omap map existsb]. unfold encoded at 1, fails at 1.
  destruct (encode cfg tags instr) as [out [e|]]; [done|].
  cbn. by rewrite IH1, IH2.
Qed.

Lemma reports_all_success cfg tags instructions :
  Forall (fun instr => (encode cfg tags instr).2 = None) instructions ->
  forall (line : Z) (k : nat) (instr : string),
    instructions !! k = Some instr ->
    exists pretty,
      reports cfg tags line instructions !! k
      = Some (OutAssembled (line + Z.of_nat k) instr pretty).
Proof.
  induction 1 as [|instr0 rest Hok _ IH]; intros line k instr Hk; [done|].
  cbn [reports]. unfold report.
  destruct (encode cfg tags instr0) as [out [e|]] eqn:E; [done|].
  destruct (traceOf_success cfg tags instr0 line out E) as [pretty ->].
  destruct k as [|k].
  - injection Hk as ->. exists pretty. cbn. do 3 f_equal. lia.
  - cbn in Hk. destruct (IH (line + 1)%Z k instr Hk) as [pretty' Hp].
    exists pretty'.
    change (([OutAssembled line instr0 pretty]
             ++ reports cfg tags (line + 1)%Z rest) !! S k)
      with (reports cfg tags (line + 1)%Z rest !! k).
    rewrite Hp. do 2 f_equal. lia.
Qed.

(** C6: when every instruction line encodes, the program has as many
    instructions as the source has lines that are non-blank after
    trimming, not comments and not tag definitions; the instruction lines
    are those lines, trimmed, in source order; and the k-th of them
    (counting from 0) is assembled under the address k and its encoding is
    the k-th entry of the program. *)
Theorem instruction_count_and_addresses
        (cfg : config) (lines : list string) (w : world) :
  let instructions := (parse lines).1 in
  let tags := (parse lines).2 in
  let program := (assembleProgram cfg instructions tags w).1 in
  let w' := (assembleProgram cfg instructions tags w).2 in
  Forall (fun instr => (encode cfg tags instr).2 = None) instructions ->
  length program = length (List.filter isInstructionLine lines)
  /\ instructions = map strings.TrimSpace (List.filter isInstructionLine lines)
  /\ hadError w' = hadError w
  /\ forall (k : nat) (instr : string),
      instructions !! k = Some instr ->
      exists out pretty,
        program !! k = Some out
        /\ encode cfg tags instr = (out, None)
        /\ stdout w' !! (length (stdout w) + 1 + k)%nat
           = Some (OutAssembled (Z.of_nat k) instr pretty).
Proof.
  intros instructions tags program w' Hok.
  assert (Hins : instructions
                 = map strings.TrimSpace (List.filter isInstructionLine lines)).
  { unfold instructions. by rewrite parse_instructions, instructionsOf_filter. }
  destruct (encoded_all_success cfg tags instructions Hok) as [Hmap Hnone].
  assert (Hprog : program = map (fun instr => (encode cfg tags instr).1) instructions).
  { unfold program. rewrite assembleProgram_run. cbn. exact Hmap. }
  split; [|split; [done|split]].
  - rewrite Hprog, length_map, Hins. by rewrite length_map.
  - unfold w'. rewrite assembleProgram_run. cbn. rewrite Hnone. apply orb_false_r.
  - intros k instr Hk.
    destruct (reports_all_success cfg tags instructions Hok 0%Z k instr Hk)
      as [pretty Hp].
    exists (encode cfg tags instr).1, pretty. split; [|split].
    + rewrite Hprog, list_lookup_fmap, Hk. done.
    + rewrite Forall_forall in Hok.
      assert (Hin : instr ∈ instructions).
      { eapply list_elem_of_lookup_2. exact Hk. }
      specialize (Hok instr Hin).
      destruct (encode cfg tags instr) as [out e]. cbn in *. by subst e.
    + unfold w'. rewrite assembleProgram_run. cbn [snd stdout].
      rewrite lookup_app_r by lia.
      replace (length (stdout w) + 1 + k - length (stdout w))%nat with (S k) by lia.
      change (([OutHeader] ++ reports cfg tags 0%Z instructions ++ [OutFooter]) !! S k)
        with ((reports cfg tags 0%Z instructions ++ [OutFooter]) !! k).
      rewrite lookup_app_l.
      * exact Hp.
      * apply lookup_lt_is_Some. eauto.
Qed.

Lemma instruction_count_and_addresses_witness :
  Forall (fun instr =>
            (encode exampleConfig (parse readmeProgram).2 instr).2 = None)
         (parse readmeProgram).1
  /\ length (assembleProgram exampleConfig (parse readmeProgram).1
                             (parse readmeProgram).2 world0).1 = 5.
Proof.
  assert (H : Forall (fun instr =>
                (encode exampleConfig (parse readmeProgram).2 instr).2 = None)
              (parse readmeProgram).1).
  { rewrite parse_instructions.
    change (instructionsOf readmeProgram)
      with ["LOD R0 10"; "SUB R0 1"; "BRZ R0 #end"; "BRN #loop"; "BRN #end"].
    repeat constructor; vm_compute; reflexivity. }
  split; [exact H|].
  destruct (instruction_count_and_addresses exampleConfig readmeProgram world0 H)
    as [Hlen _].
  rewrite Hlen. vm_compute. reflexivity.
Defined.

(** ** The failure policy *)

Lemma reports_lookup cfg tags instructions :
  forall (line : Z) (k : nat) (instr : string) (o : output),
    instructions !! k = Some instr ->
    o ∈ report cfg tags (line + Z.of_nat k) instr ->
    o ∈ reports cfg tags line instructions.
Proof.
  induction instructions as [|instr0 rest IH]; intros line k instr o Hk Ho; [done|].
  cbn [reports]. apply elem_of_app. destruct k as [|k].
  - injection Hk as ->. left. by rewrite Z.add_0_r in Ho.
  - right. apply (IH (line + 1)%Z k instr); [done|].
    by replace (line + 1 + Z.of_nat k)%Z with (line + Z.of_nat (S k))%Z by lia.
Qed.

Lemma report_no_hex cfg tags line instr :
  omap printedHex (report cfg tags line instr) = [].
Proof.
  unfold report. destruct (encode cfg tags instr) as [out [e|]] eqn:E; [done|].
  by destruct (traceOf_success cfg tags instr line out E) as [pretty ->].
Qed.

Lemma reports_no_hex cfg tags instructions :
  forall line, omap printedHex (reports cfg tags line instructions) = [].
Proof.
  induction instructions as [|instr rest IH]; intros line; [done|].
  cbn [reports]. by rewrite omap_app, report_no_hex, IH.
Qed.

(** C4: the orchestrator sets the failure flag as soon as one line fails
    and goes on: every instruction line, failing or not, is reported in
    order; the output program is the encodings of the lines that encode,
    in source order, whatever the other lines do; and when the flag is set
    at the end, [main] returns without writing or printing a hex image. *)
Theorem fail_slow_policy
        (cfg : config) (useFile : bool) (filename : string) (writeOk : bool)
        (lines : list string) (w : world) :
  let instructions := (parse lines).1 in
  let tags := (parse lines).2 in
  let program := (assembleProgram cfg instructions tags w).1 in
  let w' := (assembleProgram cfg instructions tags w).2 in
  hadError w' = hadError w || existsb (fails cfg tags) instructions
  /\ stdout w'
     = stdout w ++ [OutHeader] ++ reports cfg tags 0%Z instructions ++ [OutFooter]
  /\ program = omap (encoded cfg tags) instructions
  /\ (forall (k : nat) (instr out : string) (e : error),
        instructions !! k = Some instr ->
        encode cfg tags instr = (out, Some e) ->
        hadError w' = true /\ OutError (Error e) instr ∈ stdout w')
  /\ (forall (k : nat) (instr out : string),
        instructions !! k = Some instr ->
        encode cfg tags instr = (out, None) ->
        out ∈ program
        /\ exists pretty, OutAssembled (Z.of_nat k) instr pretty ∈ stdout w')
  /\ (hadError w' = true ->
      main cfg useFile filename writeOk lines w = Some w'
      /\ hexImages w' = hexImages w).
Proof.
  intros instructions tags program w'.
  assert (Hrun := assembleProgram_run cfg instructions tags w).
  assert (Hflag : hadError w' = hadError w || existsb (fails cfg tags) instructions)
    by (unfold w'; by rewrite Hrun).
  assert (Hout : stdout w' = stdout w ++ [OutHeader]
                   ++ reports cfg tags 0%Z instructions ++ [OutFooter])
    by (unfold w'; by rewrite Hrun).
  assert (Hprog : program = omap (encoded cfg tags) instructions)
    by (unfold program; by rewrite Hrun).
  assert (Hrep : forall k instr o, instructions !! k = Some instr ->
                   o ∈ report cfg tags (Z.of_nat k) instr -> o ∈ stdout w').
  { intros k instr o Hk Ho. rewrite Hout.
    apply elem_of_app; right. apply elem_of_app; right. apply elem_of_app; left.
    by apply (reports_lookup cfg tags instructions 0%Z k instr). }
  split; [done|]. split; [done|]. split; [done|].
  split; [|split].
  - intros k instr out e Hk He. split.
    + rewrite Hflag. apply orb_true_iff; right. apply existsb_exists.
      exists instr. split.
      * apply list_elem_of_In. by eapply list_elem_of_lookup_2.
      * unfold fails. by rewrite He.
    + apply (Hrep k instr); [done|]. unfold report. rewrite He.
      apply list_elem_of_here.
  - intros k instr out Hk He. split.
    + rewrite Hprog. apply list_elem_of_omap. exists instr. split.
      * by eapply list_elem_of_lookup_2.
      * unfold encoded. by rewrite He.
    + destruct (traceOf_success cfg tags instr (Z.of_nat k) out He) as [pretty Hp].
      exists pretty. apply (Hrep k instr); [done|]. unfold report.
      rewrite He, Hp. apply list_elem_of_here.
  - intros Hset. split.
    + unfold main. clear Hrun Hflag Hout Hprog Hrep.
      unfold w', program, instructions, tags in *.
      destruct (parse lines) as [ins tgs]. cbn [fst snd] in *.
      destruct (assembleProgram cfg ins tgs w) as [prog w1]. cbn [snd] in *.
      by rewrite Hset.
    + unfold hexImages. rewrite Hout. unfold w'. rewrite Hrun. cbn [snd files].
      rewrite !omap_app, reports_no_hex. cbn. by rewrite app_nil_r.
Qed.

Lemma fail_slow_policy_witness :
  let instructions := (parse faultyProgram).1 in
  let tags := (parse faultyProgram).2 in
  let w' := (assembleProgram exampleConfig instructions tags world0).2 in
  hadError w' = true
  /\ (assembleProgram exampleConfig instructions tags world0).1
     = ["0001000001010"]
  /\ main exampleConfig true "prog.asm" true faultyProgram world0 = Some w'
  /\ hexImages w' = [].
Proof.
  intros instructions tags w'.
  destruct (fail_slow_policy exampleConfig true "prog.asm" true
                             faultyProgram world0)
    as (Hflag & _ & Hprog & _ & _ & Hmain).
  fold instructions tags w' in Hflag, Hprog, Hmain.
  assert (Hset : hadError w' = true).
  { rewrite Hflag. vm_compute. reflexivity. }
  destruct (Hmain Hset) as [Hm Hhex].
  split; [exact Hset|]. split; [|split; [exact Hm|]].
  - rewrite Hprog. vm_compute. reflexivity.
  - rewrite Hhex. reflexivity.
Defined.

(** ** Operands *)

Lemma closeField_nonempty cur t : t ∈ strings.closeField cur -> t <> "".
Proof.
  destruct cur as [|c cur]; cbn; [by intros ?%elem_of_nil|].
  intros ->%list_elem_of_singleton. done.
Qed.

Lemma fieldsFrom_nonempty f fuel :
  forall s cur t, t ∈ strings.fieldsFrom f fuel s cur -> t <> "".
Proof.
  induction fuel as [|fuel IH]; intros s cur t; cbn [strings.fieldsFrom].
  - apply closeField_nonempty.
  - destruct s as [|c s]; [apply closeField_nonempty|].
    destruct (utf8.DecodeRuneInString (String c s)) as [r size].
    destruct (f r).
    + intros [H|H]%elem_of_app; [by eapply closeField_nonempty | by eapply IH].
    + apply IH.
Qed.

(** The tokens [strings.Fields] yields are never empty. *)
Lemma Fields_nonempty s t : t ∈ strings.Fields s -> t <> "".
Proof. rewrite Fields_FieldsFunc. apply fieldsFrom_nonempty. Qed.

Lemma eqb_empty_false t : t <> "" -> String.eqb t "" = false.
Proof. intros H. by apply String.eqb_neq. Qed.

(** C3: for a line whose mnemonic is in the opcode table, by the number
    of operand tokens: none gives destination [0] and data [00000000]; one
    token that is [R0] or [R1] gives that destination bit and data
    [00000000]; one other token is the data operand, with destination [0];
    two tokens are a destination literal and the data operand, and a first
    token that is neither [R0] nor [R1] fails with [invalid destination];
    more than two fail with [invalid instruction format]. *)
Theorem operands_by_count
        (cfg : config) (tags : gmap string Z) (instruction : string)
        (line : Z) (w : world) (mnemonic opcode : string)
        (operands : list string) :
  strings.Fields instruction = mnemonic :: operands ->
  Opcodes cfg !! mnemonic = Some opcode ->
  let result := (assembleInstruction cfg instruction tags line w).1 in
  (operands = [] -> result = (opcode +:+ "0" +:+ "00000000", None))
  /\ (forall t, operands = [t] -> t = "R0" \/ t = "R1" ->
      result = (opcode +:+ destBit t +:+ "00000000", None))
  /\ (forall t, operands = [t] -> t <> "R0" -> t <> "R1" ->
      result = withData opcode "0" (processData t tags))
  /\ (forall d t, operands = [d; t] -> d = "R0" \/ d = "R1" ->
      result = withData opcode (destBit d) (processData t tags))
  /\ (forall d t, operands = [d; t] -> d <> "R0" -> d <> "R1" ->
      result = ("", Some (InvalidDestination d)))
  /\ (2 < length operands ->
      result = ("", Some (InvalidInstructionFormat
                            (strings.Join (mnemonic :: operands) " ")))).
Proof.
  intros HF Hop result.
  assert (Hne : forall t, t ∈ operands -> String.eqb t "" = false).
  { intros t Ht. apply eqb_empty_false, (Fields_nonempty instruction).
    rewrite HF. by apply list_elem_of_further. }
  assert (Hres : result = encode cfg tags instruction)
    by (unfold result; by rewrite assembleInstruction_run).
  rewrite Hres. clear Hres result.
  unfold encode, assembleInstruction. rewrite HF, Hop.
  split; [|split; [|split; [|split; [|split]]]].
  - intros ->. reflexivity.
  - intros t -> [-> | ->]; reflexivity.
  - intros t -> H0 H1. cbn [getDestAndData]. unfold isDestination.
    apply String.eqb_neq in H0, H1. rewrite H0, H1. cbn [orb].
    rewrite (Hne t) by apply list_elem_of_here.
    change (String.eqb "" "") with true. cbv iota.
    by destruct (processData t tags) as [data [e|]].
  - intros d t -> Hd. cbn [getDestAndData].
    assert (Hpd : processDestination d = (destBit d, None))
      by (destruct Hd as [-> | ->]; reflexivity).
    rewrite Hpd.
    assert (Hdb : String.eqb (destBit d) "" = false)
      by (destruct Hd as [-> | ->]; reflexivity).
    rewrite Hdb. rewrite (Hne t) by (apply list_elem_of_further, list_elem_of_here).
    by destruct (processData t tags) as [data [e|]].
  - intros d t -> H0 H1. cbn [getDestAndData]. unfold processDestination.
    apply String.eqb_neq in H0, H1. by rewrite H0, H1.
  - intros Hlen. destruct operands as [|a [|b [|c rest]]]; cbn in Hlen; try lia.
    reflexivity.
Qed.

Lemma operands_by_count_witness :
  strings.Fields "LOD R1 10" = ["LOD"; "R1"; "10"]
  /\ Opcodes exampleConfig !! "LOD" = Some "0001"
  /\ (assembleInstruction exampleConfig "LOD R1 10" ∅ 0%Z world0).1
     = ("0001100001010", None).
Proof.
  assert (H1 : strings.Fields "LOD R1 10" = ["LOD"; "R1"; "10"])
    by (vm_compute; reflexivity).
  assert (H2 : Opcodes exampleConfig !! "LOD" = Some "0001")
    by (vm_compute; reflexivity).
  destruct (operands_by_count exampleConfig ∅ "LOD R1 10" 0%Z world0
                              "LOD" "0001" ["R1"; "10"] H1 H2)
    as (_ & _ & _ & H & _).
  split; [exact H1|]. split; [exact H2|].
  rewrite (H "R1" "10" eq_refl (or_intror eq_refl)). vm_compute. reflexivity.
Defined.

(** ** Trimmed lines have a token *)

Lemma stake_stake j n s : stake j (stake n s) = stake (Nat.min j n) s.
Proof.
  revert n s. induction j as [|j IH]; intros [|n] [|c s]; cbn; try done.
  by rewrite IH.
Qed.

Lemma sdrop_sdrop a b s : sdrop b (sdrop a s) = sdrop (a + b) s.
Proof.
  revert s. induction a as [|a IH]; intros s; [done|].
  destruct s as [|c s]; cbn; [by destruct b|]. apply IH.
Qed.

Lemma first_size b sz lo hi :
  utf8.first b = utf8.isLead sz lo hi -> sz = 2 \/ sz = 3 \/ sz = 4.
Proof.
  unfold utf8.first. case_ifs; intros H; inversion H; auto.
Qed.

(** A rune decoded from a non-empty string takes at least one byte. *)
Lemma DecodeRuneInString_size c s :
  1 <= (utf8.DecodeRuneInString (String c s)).2.
Proof.
  unfold utf8.DecodeRuneInString.
  destruct (utf8.first (byte c)) as [| |sz lo hi]; cbn [snd]; try lia.
  repeat match goal with
         | |- context [if ?b then _ else _] => destruct b
         | |- context [match ?t with EmptyString => _ | String _ _ => _ end] =>
           destruct t
         end; cbn [snd]; lia.
Qed.

Lemma IsSpace_RuneError : unicode.IsSpace utf8.RuneError = false.
Proof. reflexivity. Qed.

(** Cutting a string does not turn its first rune into a space: the first
    rune of a non-empty prefix is the first rune of the string or
    [RuneError]. *)
Lemma DecodeRuneInString_prefix k u :
  unicode.IsSpace (utf8.DecodeRuneInString u).1 = false ->
  unicode.IsSpace (utf8.DecodeRuneInString (stake k u)).1 = false.
Proof.
  destruct u as [|c0 t0]; [by destruct k|].
  destruct k as [|k]; [done|]. cbn [stake].
  unfold utf8.DecodeRuneInString.
  destruct (utf8.first (byte c0)) as [| |sz lo hi] eqn:Hf; try done.
  destruct (first_size _ _ _ _ Hf) as [-> | [-> | ->]];
    destruct t0 as [|c1 [|c2 [|c3 t3]]];
    destruct k as [|[|[|k]]]; cbn; case_ifs; auto.
Qed.

(** Where [indexFunc] stops, a rune that is no space begins. *)
Lemma indexFuncFrom_Some f fuel :
  forall s i j,
    strings.indexFuncFrom f false fuel s i = Some j ->
    exists d, j = i + d /\ f (utf8.DecodeRuneInString (sdrop d s)).1 = false.
Proof.
  induction fuel as [|fuel IH]; intros s i j; cbn [strings.indexFuncFrom]; [done|].
  destruct s as [|c s]; [done|].
  destruct (utf8.DecodeRuneInString (String c s)) as [r size] eqn:Hd.
  destruct (f r) eqn:Hr; cbn [Bool.eqb].
  - intros H. destruct (IH _ _ _ H) as (d & -> & Hd').
    exists (size + d). split; [lia|]. by rewrite <- sdrop_sdrop.
  - intros [= <-]. exists 0. split; [lia|]. cbn [sdrop]. by rewrite Hd.
Qed.

Lemma TrimLeftFunc_first s :
  unicode.IsSpace
    (utf8.DecodeRuneInString (strings.TrimLeftFunc s unicode.IsSpace)).1 = false.
Proof.
  unfold strings.TrimLeftFunc, strings.indexFunc.
  destruct (strings.indexFuncFrom _ _ _ _ _) as [j|] eqn:H; [|done].
  destruct (indexFuncFrom_Some _ _ _ _ _ H) as (d & -> & Hd). exact Hd.
Qed.

Lemma TrimRightFunc_prefix s f : exists j, strings.TrimRightFunc s f = stake j s.
Proof.
  unfold strings.TrimRightFunc.
  destruct (strings.lastIndexFunc s f false) as [i|]; [|by exists 0].
  destruct (String.get i s) as [c|]; [|by eexists].
  destruct (utf8.RuneSelf <=? byte c)%N; by eexists.
Qed.

Lemma trimSpaceStop_prefix s stop : exists j, strings.trimSpaceStop s stop = stake j s.
Proof.
  induction stop as [|stop IH]; cbn [strings.trimSpaceStop]; [by exists 0|].
  destruct (String.get stop s) as [c|]; [|by eexists].
  destruct (utf8.RuneSelf <=? byte c)%N.
  - destruct (TrimRightFunc_prefix (stake (S stop) s) unicode.IsSpace) as [j ->].
    rewrite stake_stake. by eexists.
  - destruct (strings.asciiSpace (byte c)); [exact IH | by eexists].
Qed.

(** [TrimSpace] returns a prefix of a string whose first rune is no space
    (the first rune of the empty string being [RuneError]). *)
Lemma TrimSpace_first s :
  unicode.IsSpace (utf8.DecodeRuneInString (strings.TrimSpace s)).1 = false.
Proof.
  induction s as [|c t IH]; [done|]. cbn [strings.TrimSpace].
  destruct (utf8.RuneSelf <=? byte c)%N eqn:Hc.
  - unfold strings.TrimFunc.
    destruct (TrimRightFunc_prefix (strings.TrimLeftFunc (String c t) unicode.IsSpace)
                                   unicode.IsSpace) as [j ->].
    apply DecodeRuneInString_prefix, TrimLeftFunc_first.
  - destruct (strings.asciiSpace (byte c)) eqn:Hsp; [exact IH|].
    destruct (trimSpaceStop_prefix (String c t) (String.length (String c t))) as [j ->].
    apply DecodeRuneInString_prefix.
    apply N.leb_gt in Hc.
    unfold utf8.DecodeRuneInString. rewrite (first_ascii _ Hc). cbn [fst].
    by rewrite IsSpace_ascii.
Qed.

Lemma fieldsFrom_open f fuel :
  forall s cur, cur <> "" -> strings.fieldsFrom f fuel s cur <> [].
Proof.
  induction fuel as [|fuel IH]; intros s cur Hcur; cbn [strings.fieldsFrom].
  - by destruct cur.
  - destruct s as [|c s]; [by destruct cur|].
    destruct (utf8.DecodeRuneInString (String c s)) as [r size].
    destruct (f r).
    + by destruct cur.
    + apply IH. by destruct cur.
Qed.

(** A non-empty string that does not begin with a space has a field. *)
Lemma Fields_first s :
  s <> "" ->
  unicode.IsSpace (utf8.DecodeRuneInString s).1 = false ->
  strings.Fields s <> [].
Proof.
  intros Hs Hfirst. destruct s as [|c s]; [done|].
  rewrite Fields_FieldsFunc. unfold strings.FieldsFunc.
  cbn [String.length strings.fieldsFrom].
  pose proof (DecodeRuneInString_size c s) as Hsize.
  destruct (utf8.DecodeRuneInString (String c s)) as [r size].
  cbn [fst snd] in *. rewrite Hfirst.
  apply fieldsFrom_open. destruct size as [|size]; [lia|]. done.
Qed.

Lemma instructionsOf_inv lines instr :
  instr ∈ instructionsOf lines ->
  exists text, text ∈ lines /\ instr = strings.TrimSpace text /\ instr <> "".
Proof.
  unfold instructionsOf. intros (text & Hin & Hi)%list_elem_of_omap.
  exists text. split; [done|]. unfold instructionOf, classify in Hi.
  destruct (String.eqb (strings.TrimSpace text) "") eqn:He; [done|].
  destruct (isComment (strings.TrimSpace text)); [done|].
  destruct (isTag (strings.TrimSpace text)); [done|].
  injection Hi as <-. split; [done|]. by apply String.eqb_neq.
Qed.

(** C9: an instruction line that [parse] produces is a trimmed source
    line and is not empty; [strings.Fields] splits it into at least one
    token, so [assembleInstruction] never sees [len(parts) < 1] on it. *)
Theorem parsed_lines_have_a_token (lines : list string) (instr : string) :
  instr ∈ (parse lines).1 ->
  (exists text, text ∈ lines /\ instr = strings.TrimSpace text)
  /\ instr <> ""
  /\ 1 <= length (strings.Fields instr)
  /\ exists mnemonic operands, strings.Fields instr = mnemonic :: operands.
Proof.
  rewrite parse_instructions.
  intros (text & Hin & Heq & Hne)%instructionsOf_inv.
  assert (HF : strings.Fields instr <> []).
  { apply Fields_first; [done|]. rewrite Heq. apply TrimSpace_first. }
  split; [by exists text|]. split; [done|].
  destruct (strings.Fields instr) as [|mnemonic operands]; [done|].
  split; [cbn; lia | by eauto].
Qed.

Lemma parsed_lines_have_a_token_witness :
  "LOD R0 10" ∈ (parse readmeProgram).1
  /\ 1 <= length (strings.Fields "LOD R0 10").
Proof.
  assert (H : "LOD R0 10" ∈ (parse readmeProgram).1).
  { rewrite parse_instructions.
    change (instructionsOf readmeProgram)
      with ["LOD R0 10"; "SUB R0 1"; "BRZ R0 #end"; "BRN #loop"; "BRN #end"].
    apply list_elem_of_here. }
  split; [exact H|].
  destruct (parsed_lines_have_a_token readmeProgram "LOD R0 10" H)
    as (_ & _ & Hlen & _).
  exact Hlen.
Defined.

(** ** [strconv]: what it accepts *)

Lemma byte_bound c : (0 <= Z.of_N (byte c) < 256)%Z.
Proof.
  unfold byte. pose proof (N_ascii_bounded c). lia.
Qed.

(** In a base up to ten, the digits [ParseUint] accepts are the decimal
    digits below the base. *)
Lemma digitVal_decDigit base c :
  (2 <= base <= 10)%Z ->
  match strconv.digitVal (Z.of_N (byte c)) with
  | Some d => if (base <=? d)%Z then None else Some d
  | None => None
  end
  = match decDigit c with
    | Some d => if (d <? base)%Z then Some d else None
    | None => None
    end.
Proof.
  intros Hb. unfold strconv.digitVal, decDigit.
  pose proof (byte_bound c) as Hc. set (b := Z.of_N (byte c)) in *.
  destruct ((48 <=? b)%Z && (b <=? 57)%Z) eqn:Hd.
  - destruct (Z.leb_spec base (b - 48)), (Z.ltb_spec (b - 48) base); try done; lia.
  - destruct ((97 <=? strconv.lower b)%Z && (strconv.lower b <=? 122)%Z) eqn:Hl; [|done].
    apply andb_true_iff in Hl as [Hl _]. apply Z.leb_le in Hl.
    destruct (Z.leb_spec base (strconv.lower b - 97 + 10)); [done | lia].
Qed.

Lemma numeral_lower_bound val base s :
  (0 <= base)%Z -> (forall c d, val c = Some d -> 0 <= d)%Z ->
  forall n v, (0 <= n)%Z -> numeral val base s n = Some v ->
              (n * base ^ Z.of_nat (String.length s) <= v)%Z.
Proof.
  intros Hb Hval. induction s as [|c t IH]; intros n v Hn; cbn [numeral String.length].
  - intros [= <-]. change (Z.of_nat 0) with 0%Z. lia.
  - destruct (val c) as [d|] eqn:Hc; [|done]. intros H.
    pose proof (Hval _ _ Hc) as Hd.
    apply IH in H; [|nia].
    rewrite Nat2Z.inj_succ, Z.pow_succ_r by lia.
    assert (0 <= base ^ Z.of_nat (String.length t))%Z by (apply Z.pow_nonneg; lia).
    nia.
Qed.

Lemma numeral_ge val base s :
  (1 <= base)%Z -> (forall c d, val c = Some d -> 0 <= d)%Z ->
  forall n v, (0 <= n)%Z -> numeral val base s n = Some v -> (n <= v)%Z.
Proof.
  intros Hb Hval n v Hn H.
  pose proof (numeral_lower_bound val base s ltac:(lia) Hval n v Hn H) as Hl.
  pose proof (Z.pow_pos_nonneg base (Z.of_nat (String.length s))
                              ltac:(lia) ltac:(lia)).
  nia.
Qed.

Lemma decDigit_range c d : decDigit c = Some d -> (0 <= d <= 9)%Z.
Proof.
  unfold decDigit. destruct (_ && _) eqn:H; [|done]. intros [= <-].
  apply andb_true_iff in H as [H1 H2]. apply Z.leb_le in H1, H2. lia.
Qed.

Lemma digitBelow_range base c d : digitBelow base c = Some d -> (0 <= d < base)%Z.
Proof.
  unfold digitBelow. destruct (decDigit c) as [d'|] eqn:Hc; [|done].
  destruct (Z.ltb_spec d' base); [|done]. intros [= <-].
  apply decDigit_range in Hc. lia.
Qed.

(** The loop of [ParseUint] succeeds exactly on digits whose value fits
    64 bits. *)
Lemma parseUintLoop_spec base s :
  (2 <= base <= 10)%Z ->
  forall n v, (0 <= n <= strconv.maxUint64)%Z ->
    strconv.parseUintLoop base (strconv.maxUint64 / base + 1)%Z
                          strconv.maxUint64 s n = inl v
    <-> numeral (digitBelow base) base s n = Some v
        /\ (v <= strconv.maxUint64)%Z.
Proof.
  intros Hb. unfold strconv.maxUint64.
  induction s as [|c t IH]; intros n v Hn; cbn [strconv.parseUintLoop numeral].
  - split; [intros [= <-]; split; [done | lia] | intros [[= <-] _]; done].
  - pose proof (digitVal_decDigit base c Hb) as Hdig. fold (digitBelow base c) in Hdig.
    assert (Hge : forall m w, (0 <= m)%Z ->
              numeral (digitBelow base) base t m = Some w -> (m <= w)%Z).
    { intros m w Hm. apply numeral_ge; [lia | | done].
      intros c' d' H'. apply digitBelow_range in H'. lia. }
    destruct (strconv.digitVal (Z.of_N (byte c))) as [d|].
    2:{ rewrite <- Hdig. both_fail. }
    destruct (Z.leb_spec base d).
    { rewrite <- Hdig. both_fail. }
    rewrite <- Hdig.
    assert (Hd : (0 <= d < base)%Z).
    { symmetry in Hdig. apply digitBelow_range in Hdig. lia. }
    pose proof (Z.mul_div_le (2 ^ 64 - 1) base ltac:(lia)) as Hdiv1.
    pose proof (Z.mul_succ_div_gt (2 ^ 64 - 1) base ltac:(lia)) as Hdiv2.
    destruct (Z.leb_spec ((2 ^ 64 - 1) / base + 1) n) as [Hcut|Hcut].
    { split; [done|]. intros [Hnum Hv]. apply Hge in Hnum; nia. }
    assert (Hmul : (n * base <= 2 ^ 64 - 1)%Z) by nia.
    rewrite (Z.mod_small (n * base)) by nia.
    destruct (Z.ltb_spec ((n * base + d) mod 2 ^ 64) (n * base)) as [Hwrap|Hwrap].
    { cbn [orb]. split; [done|]. intros [Hnum Hv]. apply Hge in Hnum; [|nia].
      assert (2 ^ 64 <= n * base + d)%Z; [|lia].
      destruct (Z.lt_ge_cases (n * base + d) (2 ^ 64)) as [Hs|Hs]; [|done].
      rewrite Z.mod_small in Hwrap by nia. lia. }
    assert (Hsmall : (n * base + d < 2 ^ 64)%Z).
    { destruct (Z.lt_ge_cases (n * base + d) (2 ^ 64)) as [Hs|Hs]; [done|].
      assert ((n * base + d) mod 2 ^ 64 = n * base + d - 2 ^ 64)%Z.
      { symmetry. apply Z.mod_unique with (q := 1%Z); lia. }
      lia. }
    rewrite Z.mod_small by nia.
    destruct (Z.ltb_spec (2 ^ 64 - 1) (n * base + d)); [lia|]. cbn [orb].
    apply IH. nia.
Qed.

Lemma digitsValue_nonneg base s v :
  (2 <= base <= 10)%Z ->
  digitsValue (digitBelow base) base s = Some v -> (0 <= v)%Z.
Proof.
  intros Hb. destruct s as [|c t]; [done|]. unfold digitsValue.
  apply numeral_ge; [lia | | lia].
  intros c' d' H'. apply digitBelow_range in H'. lia.
Qed.

Lemma ParseUint_spec base bitSize s v :
  (2 <= base <= 10)%Z -> bitSize = 0%Z \/ bitSize = 64%Z ->
  strconv.ParseUint s base bitSize = inl v
  <-> digitsValue (digitBelow base) base s = Some v
      /\ (v <= strconv.maxUint64)%Z.
Proof.
  intros Hb Hbits. unfold strconv.ParseUint, digitsValue.
  destruct s as [|c t]; [both_fail|].
  assert (Hmax : (2 ^ (if (bitSize =? 0)%Z then strconv.IntSize else bitSize) - 1)%Z
                 = strconv.maxUint64) by (by destruct Hbits as [-> | ->]).
  rewrite Hmax. apply parseUintLoop_spec; [done|]. unfold strconv.maxUint64. lia.
Qed.

(** [ParseInt] succeeds exactly on an optionally signed numeral whose
    value is an [int]. *)
Lemma ParseInt_spec base bitSize s v :
  (2 <= base <= 10)%Z -> bitSize = 0%Z \/ bitSize = 64%Z ->
  strconv.ParseInt s base bitSize = inl v
  <-> signedValue (digitBelow base) base s = Some v /\ inInt v.
Proof.
  intros Hb Hbits. unfold strconv.ParseInt, signedValue, inInt.
  destruct s as [|c0 t]; [both_fail|].
  assert (Hcut : (2 ^ ((if (bitSize =? 0)%Z then strconv.IntSize else bitSize) - 1)
                  = 2 ^ 63)%Z) by (by destruct Hbits as [-> | ->]).
  rewrite Hcut. clear Hcut.
  set (s' := if Ascii.eqb c0 "+" || Ascii.eqb c0 "-" then t else String c0 t).
  assert (Hs' : forall w,
    signedValue (digitBelow base) base (String c0 t) = Some w
    <-> exists un, digitsValue (digitBelow base) base s' = Some un
                   /\ w = if Ascii.eqb c0 "-" then (- un)%Z else un).
  { intros w. unfold signedValue, s'.
    destruct (Ascii.eqb c0 "-") eqn:Hm.
    - rewrite orb_true_r.
      destruct (digitsValue (digitBelow base) base t) as [un|]; cbn.
      + split; [intros [= <-]; by eexists | intros (? & [= <-] & ->); done].
      + split; [done | by intros (? & ? & _)].
    - rewrite orb_false_r. destruct (Ascii.eqb c0 "+").
      + split; [intros H; by eexists | intros (? & -> & ->); done].
      + split; [intros H; by eexists | intros (? & -> & ->); done]. }
  fold (signedValue (digitBelow base) base (String c0 t)). rewrite Hs'. clear Hs'.
  pose proof (ParseUint_spec base bitSize s') as HU.
  unfold strconv.maxUint64 in HU.
  destruct (strconv.ParseUint s' base bitSize) as [un|e] eqn:HP.
  - destruct (HU un Hb Hbits) as [[Hdv Hmax] _]; [done|].
    pose proof (digitsValue_nonneg base s' un Hb Hdv) as Hun.
    destruct (Ascii.eqb c0 "-"); cbn [negb andb].
    + destruct (Z.ltb_spec (2 ^ 63) un).
      * split; [done|]. intros [(un' & Hdv' & ->) Hr].
        rewrite Hdv in Hdv'. injection Hdv' as <-. lia.
      * split.
        -- intros [= <-]. split; [by exists un | lia].
        -- intros [(un' & Hdv' & ->) Hr]. rewrite Hdv in Hdv'. by injection Hdv' as <-.
    + destruct (Z.leb_spec (2 ^ 63) un).
      * split; [done|]. intros [(un' & Hdv' & ->) Hr].
        rewrite Hdv in Hdv'. injection Hdv' as <-. lia.
      * split.
        -- intros [= <-]. split; [by exists un | lia].
        -- intros [(un' & Hdv' & ->) Hr]. rewrite Hdv in Hdv'. by injection Hdv' as <-.
  - assert (Hno : forall un, digitsValue (digitBelow base) base s' = Some un ->
                             (2 ^ 64 - 1 < un)%Z).
    { intros un Hdv. destruct (Z.lt_ge_cases (2 ^ 64 - 1) un) as [|Hle]; [done|].
      destruct (HU un Hb Hbits) as [_ HU']. discriminate HU'. split; [done | lia]. }
    split; [by destruct e|]. intros [(un & Hdv & ->) Hr].
    apply Hno in Hdv. destruct (Ascii.eqb c0 "-"); lia.
Qed.

Lemma numeral_upper_bound base s :
  (2 <= base <= 10)%Z ->
  forall n v, (0 <= n)%Z -> numeral (digitBelow base) base s n = Some v ->
              (v < (n + 1) * base ^ Z.of_nat (String.length s))%Z.
Proof.
  intros Hb. induction s as [|c t IH]; intros n v Hn; cbn [numeral String.length].
  - intros [= <-]. change (Z.of_nat 0) with 0%Z. lia.
  - destruct (digitBelow base c) as [d|] eqn:Hc; [|done]. intros H.
    apply digitBelow_range in Hc. apply IH in H; [|nia].
    rewrite Nat2Z.inj_succ, Z.pow_succ_r by lia.
    assert (0 < base ^ Z.of_nat (String.length t))%Z by (apply Z.pow_pos_nonneg; lia).
    nia.
Qed.

(** The fast loop of [Atoi] reads decimal digits and never overflows on
    the strings it is given. *)
Lemma atoiLoop_spec s :
  forall n, strconv.atoiLoop s n
            = match numeral (digitBelow 10) 10 s n with
              | Some v => inl v
              | None => inr strconv.ErrSyntax
              end.
Proof.
  induction s as [|c t IH]; intros n; cbn [strconv.atoiLoop numeral]; [done|].
  unfold digitBelow, decDigit. pose proof (byte_bound c) as Hc.
  set (b := Z.of_N (byte c)) in *.
  destruct (Z.leb_spec 48 b), (Z.leb_spec b 57); cbn [andb].
  - rewrite Z.mod_small by lia.
    destruct (Z.ltb_spec 9 (b - 48)); [lia|].
    destruct (Z.ltb_spec (b - 48) 10); [|lia]. apply IH.
  - rewrite Z.mod_small by lia. by destruct (Z.ltb_spec 9 (b - 48)); [|lia].
  - replace ((b - 48) mod 256)%Z with (b + 208)%Z
      by (apply Z.mod_unique with (q := (-1)%Z); lia).
    by destruct (Z.ltb_spec 9 (b + 208)); [|lia].
  - lia.
Qed.

(** [Atoi] succeeds exactly on an optionally signed decimal numeral whose
    value is an [int]. *)
Lemma Atoi_spec s v :
  strconv.Atoi s = inl v
  <-> signedValue (digitBelow 10) 10 s = Some v /\ inInt v.
Proof.
  unfold strconv.Atoi.
  destruct ((0 <? String.length s)%nat && (String.length s <? 19)%nat) eqn:Hlen.
  2:{ apply ParseInt_spec; [lia | by left]. }
  apply andb_true_iff in Hlen as [_ Hlen]. apply Nat.ltb_lt in Hlen.
  destruct s as [|c0 t]; [both_fail|].
  cbn [String.length] in Hlen. unfold signedValue, inInt.
  assert (Hbound : forall u w, (String.length u <= 18)%nat ->
            numeral (digitBelow 10) 10 u 0 = Some w -> (0 <= w < 2 ^ 63)%Z).
  { intros u w Hu Hw. split.
    - eapply numeral_ge in Hw; [done | lia | | lia].
      intros c' d' H'. apply digitBelow_range in H'. lia.
    - apply numeral_upper_bound in Hw; [|lia..].
      assert (10 ^ Z.of_nat (String.length u) <= 10 ^ 18)%Z
        by (apply Z.pow_le_mono_r; lia).
      lia. }
  destruct (Ascii.eqb c0 "-") eqn:Hm; cbn [orb andb].
  - destruct t as [|c1 t1]; [both_fail|].
    cbn [String.length Nat.ltb Nat.leb]. unfold digitsValue.
    rewrite atoiLoop_spec.
    destruct (numeral (digitBelow 10) 10 (String c1 t1) 0) as [w|] eqn:Hw; cbn.
    + apply Hbound in Hw; [|cbn [String.length] in *; lia].
      split; [intros [= <-]; split; [done | lia] | intros [[= <-] _]; done].
    + both_fail.
  - destruct (Ascii.eqb c0 "+") eqn:Hp; cbn [orb andb].
    + destruct t as [|c1 t1]; [both_fail|].
      cbn [String.length Nat.ltb Nat.leb]. unfold digitsValue.
      rewrite atoiLoop_spec.
      destruct (numeral (digitBelow 10) 10 (String c1 t1) 0) as [w|] eqn:Hw.
      * apply Hbound in Hw; [|cbn [String.length] in *; lia].
        split; [intros [= <-]; split; [done | lia] | intros [[= <-] _]; done].
      * both_fail.
    + unfold digitsValue. rewrite atoiLoop_spec.
      destruct (numeral (digitBelow 10) 10 (String c0 t) 0) as [w|] eqn:Hw.
      * apply Hbound in Hw; [|cbn [String.length] in *; lia].
        split; [intros [= <-]; split; [done | lia] | intros [[= <-] _]; done].
      * both_fail.
Qed.

(** ** [fmt]: what it writes *)

Lemma sapp_assoc a b c : (a +:+ b) +:+ c = a +:+ (b +:+ c).
Proof.
  induction a as [|x a IH]; [done|].
  change (String x a +:+ ?y) with (String x (a +:+ y)).
  change (String x (a +:+ b) +:+ c) with (String x ((a +:+ b) +:+ c)).
  by rewrite IH.
Qed.

Lemma slength_app a b :
  String.length (a +:+ b) = String.length a + String.length b.
Proof.
  induction a as [|x a IH]; [done|].
  change (String x a +:+ b) with (String x (a +:+ b)). cbn. by rewrite IH.
Qed.

Lemma sapp_nil_r a : a +:+ "" = a.
Proof.
  induction a as [|x a IH]; [done|].
  change (String x a +:+ "") with (String x (a +:+ "")). by rewrite IH.
Qed.

Lemma numeral_app val base a b n :
  numeral val base (a +:+ b) n
  = match numeral val base a n with
    | Some m => numeral val base b m
    | None => None
    end.
Proof.
  revert n. induction a as [|x a IH]; intros n; [done|].
  change (String x a +:+ b) with (String x (a +:+ b)). cbn [numeral].
  destruct (val x); [apply IH | done].
Qed.

Lemma Repeat_length s n :
  String.length (strings.Repeat s n) = n * String.length s.
Proof.
  induction n as [|n IH]; [done|]. cbn [strings.Repeat].
  rewrite slength_app, IH. lia.
Qed.

Section FmtDigits.

Variables (shift : Z) (digits : string) (val : ascii -> option Z).

Hypothesis Hshift : (0 < shift)%Z.

(** The first [2 ^ shift] characters of [digits] are the digits of the
    base, in order. *)
Hypothesis Hdig : forall k, (0 <= k < 2 ^ shift)%Z ->
  exists c, fmt.digitAt digits k = String c "" /\ val c = Some k.

Lemma base_pos : (2 <= 2 ^ shift)%Z.
Proof.
  change 2%Z with (2 ^ 1)%Z at 1. apply Z.pow_le_mono_r; lia.
Qed.

(** The digit loop writes the digits of [u], no more than needed. *)
Lemma fmtDigits_spec fuel :
  forall u acc,
    (0 <= u < 2 ^ (shift * (Z.of_nat fuel + 1)))%Z ->
    exists ds,
      fmt.fmtDigits shift digits fuel u acc = ds +:+ acc
      /\ (forall n, numeral val (2 ^ shift) ds n
                    = Some (n * (2 ^ shift) ^ Z.of_nat (String.length ds) + u)%Z)
      /\ 1 <= String.length ds
      /\ (u < (2 ^ shift) ^ Z.of_nat (String.length ds))%Z
      /\ (((2 ^ shift) ^ (Z.of_nat (String.length ds) - 1) <= u)%Z
          \/ String.length ds = 1).
Proof.
  pose proof base_pos as Hbase.
  assert (Hone : forall u acc, (0 <= u < 2 ^ shift)%Z ->
    exists ds,
      fmt.digitAt digits u +:+ acc = ds +:+ acc
      /\ (forall n, numeral val (2 ^ shift) ds n
                    = Some (n * (2 ^ shift) ^ Z.of_nat (String.length ds) + u)%Z)
      /\ 1 <= String.length ds
      /\ (u < (2 ^ shift) ^ Z.of_nat (String.length ds))%Z
      /\ (((2 ^ shift) ^ (Z.of_nat (String.length ds) - 1) <= u)%Z
          \/ String.length ds = 1)).
  { intros u acc Hu. destruct (Hdig u Hu) as (c & Hc & Hv).
    exists (String c ""). rewrite Hc. split; [done|]. split.
    - intros n. cbn [numeral String.length]. rewrite Hv.
      change (Z.of_nat 1) with 1%Z. by rewrite Z.pow_1_r.
    - cbn [String.length]. change (Z.of_nat 1) with 1%Z. rewrite Z.pow_1_r.
      split; [lia|]. split; [lia|]. by right. }
  induction fuel as [|fuel IH]; intros u acc Hu; cbn [fmt.fmtDigits].
  - apply Hone. change (Z.of_nat 0 + 1)%Z with 1%Z in Hu.
    by rewrite Z.mul_1_r in Hu.
  - destruct (Z.leb_spec (2 ^ shift) u) as [Hge|Hlt]; [|apply Hone; lia].
    rewrite Z.shiftr_div_pow2 by lia.
    replace (2 ^ shift - 1)%Z with (Z.ones shift)
      by (rewrite Z.ones_equiv; lia).
    rewrite Z.land_ones by lia.
    pose proof (Z.div_mod u (2 ^ shift) ltac:(lia)) as Hdm.
    pose proof (Z.mod_pos_bound u (2 ^ shift) ltac:(lia)) as Hmod.
    assert (Hq : (0 <= u / 2 ^ shift < 2 ^ (shift * (Z.of_nat fuel + 1)))%Z).
    { split; [apply Z.div_pos; lia|].
      apply Z.div_lt_upper_bound; [lia|].
      rewrite <- Z.pow_add_r by lia.
      replace (shift + shift * (Z.of_nat fuel + 1))%Z
        with (shift * (Z.of_nat (S fuel) + 1))%Z by lia.
      lia. }
    destruct (Hdig (u mod 2 ^ shift)%Z Hmod) as (c & Hc & Hv).
    destruct (IH (u / 2 ^ shift)%Z (fmt.digitAt digits (u mod 2 ^ shift) +:+ acc) Hq)
      as (ds & Heq & Hnum & Hlen & Hup & Hlow).
    exists (ds +:+ String c ""). rewrite Heq, Hc, sapp_assoc.
    split; [done|].
    assert (Hl : String.length (ds +:+ String c "") = S (String.length ds))
      by (rewrite slength_app; cbn; lia).
    rewrite Hl, Nat2Z.inj_succ, Z.pow_succ_r by lia.
    set (p := ((2 ^ shift) ^ Z.of_nat (String.length ds))%Z) in *.
    assert (0 < p)%Z by (apply Z.pow_pos_nonneg; lia).
    split; [|split; [lia|split]].
    + intros n. rewrite numeral_app, Hnum. cbn [numeral]. rewrite Hv.
      f_equal. nia.
    + nia.
    + left. replace (Z.succ (Z.of_nat (String.length ds)) - 1)%Z
        with (Z.of_nat (String.length ds)) by lia.
      fold p. destruct Hlow as [Hlow|Hlow].
      * assert (p = 2 ^ shift * (2 ^ shift) ^ (Z.of_nat (String.length ds) - 1))%Z.
        { unfold p. rewrite <- Z.pow_succ_r by lia. f_equal. lia. }
        nia.
      * unfold p. rewrite Hlow. change (Z.of_nat 1) with 1%Z.
        rewrite Z.pow_1_r. lia.
Qed.

(** [fmtInteger] on a value that is not negative: the digits of the
    value, with zeros in front up to the width. *)
Lemma fmtInteger_nonneg v wid :
  (0 <= v < 2 ^ 64)%Z -> (1 <= shift <= 64)%Z ->
  exists ds,
    fmt.fmtInteger v shift digits wid
      = strings.Repeat "0" (wid - String.length ds) +:+ ds
    /\ (forall n, numeral val (2 ^ shift) ds n
                  = Some (n * (2 ^ shift) ^ Z.of_nat (String.length ds) + v)%Z)
    /\ 1 <= String.length ds
    /\ (v < (2 ^ shift) ^ Z.of_nat (String.length ds))%Z
    /\ (((2 ^ shift) ^ (Z.of_nat (String.length ds) - 1) <= v)%Z
        \/ String.length ds = 1).
Proof.
  intros Hv Hs. unfold fmt.fmtInteger.
  destruct (Z.ltb_spec v 0); [lia|]. rewrite Z.abs_eq by lia.
  destruct (fmtDigits_spec 64 v "") as (ds & Heq & Hrest).
  { split; [lia|]. apply Z.lt_le_trans with (2 ^ 64)%Z; [lia|].
    apply Z.pow_le_mono_r; lia. }
  exists ds. rewrite Heq, sapp_nil_r. split; [done | exact Hrest].
Qed.

End FmtDigits.

Lemma ldigits_binary k :
  (0 <= k < 2 ^ 1)%Z ->
  exists c, fmt.digitAt fmt.ldigits k = String c "" /\ digitBelow 2 c = Some k.
Proof.
  intros Hk. assert (k = 0 \/ k = 1)%Z as [-> | ->] by lia; eexists; split; reflexivity.
Qed.

Lemma udigits_hex k :
  (0 <= k < 2 ^ 4)%Z ->
  exists c, fmt.digitAt fmt.udigits k = String c "" /\ hexDigit c = Some k.
Proof.
  intros Hk.
  assert (k = 0 \/ k = 1 \/ k = 2 \/ k = 3 \/ k = 4 \/ k = 5 \/ k = 6 \/ k = 7
          \/ k = 8 \/ k = 9 \/ k = 10 \/ k = 11 \/ k = 12 \/ k = 13 \/ k = 14
          \/ k = 15)%Z as H by lia.
  repeat destruct H as [-> | H]; try subst k; eexists; split; reflexivity.
Qed.

Lemma numeral_zeros val base k n :
  val "0"%char = Some 0%Z ->
  numeral val base (strings.Repeat "0" k) n = Some (n * base ^ Z.of_nat k)%Z.
Proof.
  intros H0. revert n. induction k as [|k IH]; intros n.
  - cbn. f_equal. lia.
  - cbn [strings.Repeat].
    change ("0" +:+ strings.Repeat "0" k) with (String "0" (strings.Repeat "0" k)).
    cbn [numeral]. rewrite H0, IH. f_equal.
    rewrite Nat2Z.inj_succ, Z.pow_succ_r by lia. lia.
Qed.

(** What [%08b] and [%04X] write for a value that is not negative: digits
    of the base only, denoting the value, [wid] of them when the value
    fits and as many as the value needs when it does not. *)
Lemma fmtInteger_nonneg_width shift digits val wid v :
  (1 <= shift <= 64)%Z ->
  (forall k, (0 <= k < 2 ^ shift)%Z ->
             exists c, fmt.digitAt digits k = String c "" /\ val c = Some k) ->
  val "0"%char = Some 0%Z ->
  (0 <= v < 2 ^ 64)%Z -> 1 <= wid ->
  let s := fmt.fmtInteger v shift digits wid in
  numeral val (2 ^ shift) s 0 = Some v
  /\ wid <= String.length s
  /\ ((v < (2 ^ shift) ^ Z.of_nat wid)%Z -> String.length s = wid)
  /\ (((2 ^ shift) ^ Z.of_nat wid <= v)%Z ->
      wid < String.length s
      /\ ((2 ^ shift) ^ (Z.of_nat (String.length s) - 1) <= v
          < (2 ^ shift) ^ Z.of_nat (String.length s))%Z).
Proof.
  intros Hs Hdig H0 Hv Hwid s.
  destruct (fmtInteger_nonneg shift digits val ltac:(lia) Hdig v wid Hv Hs)
    as (ds & Heq & Hnum & Hlen & Hup & Hlow).
  assert (Hb : (2 <= 2 ^ shift)%Z) by (apply base_pos; lia).
  assert (Hls : String.length s = Nat.max wid (String.length ds)).
  { unfold s. rewrite Heq, slength_app, Repeat_length. cbn [String.length]. lia. }
  split; [|split; [lia|split]].
  - unfold s. rewrite Heq, numeral_app, numeral_zeros by done.
    rewrite Hnum. f_equal.
  - intros Hfit. rewrite Hls. apply Nat.max_l.
    destruct Hlow as [Hlow|Hlow]; [|lia].
    assert ((2 ^ shift) ^ (Z.of_nat (String.length ds) - 1)
            < (2 ^ shift) ^ Z.of_nat wid)%Z as Hlt by lia.
    apply Z.pow_lt_mono_r_iff in Hlt; lia.
  - intros Hbig.
    assert ((2 ^ shift) ^ Z.of_nat wid
            < (2 ^ shift) ^ Z.of_nat (String.length ds))%Z as Hlt by lia.
    apply Z.pow_lt_mono_r_iff in Hlt; [|lia..].
    assert (Hmax : Nat.max wid (String.length ds) = String.length ds) by lia.
    rewrite Hls, Hmax. split; [lia|]. split; [|done].
    destruct Hlow as [Hlow|Hlow]; [done | lia].
Qed.

Lemma Sprintf_08b_nonneg v :
  (0 <= v < 2 ^ 64)%Z ->
  let s := fmt.Sprintf_08b v in
  numeral (digitBelow 2) 2 s 0 = Some v
  /\ 8 <= String.length s
  /\ ((v < 256)%Z -> String.length s = 8)
  /\ ((256 <= v)%Z ->
      8 < String.length s
      /\ (2 ^ (Z.of_nat (String.length s) - 1) <= v
          < 2 ^ Z.of_nat (String.length s))%Z).
Proof.
  intros Hv.
  apply (fmtInteger_nonneg_width 1 fmt.ldigits (digitBelow 2) 8 v);
    [lia | apply ldigits_binary | reflexivity | done | lia].
Qed.

Lemma Sprintf_04X_nonneg v :
  (0 <= v < 2 ^ 64)%Z ->
  let s := fmt.Sprintf_04X v in
  numeral hexDigit 16 s 0 = Some v
  /\ 4 <= String.length s
  /\ ((v < 65536)%Z -> String.length s = 4)
  /\ ((65536 <= v)%Z ->
      4 < String.length s
      /\ (16 ^ (Z.of_nat (String.length s) - 1) <= v
          < 16 ^ Z.of_nat (String.length s))%Z).
Proof.
  intros Hv.
  apply (fmtInteger_nonneg_width 4 fmt.udigits hexDigit 4 v);
    [lia | apply udigits_hex | reflexivity | done | lia].
Qed.

(** A negative value is written with a sign in front. *)
Lemma Sprintf_08b_negative v :
  (v < 0)%Z -> exists rest, fmt.Sprintf_08b v = String "-" rest.
Proof.
  intros Hv. unfold fmt.Sprintf_08b, fmt.fmtInteger.
  destruct (Z.ltb_spec v 0); [|lia]. by eexists.
Qed.

(** ** Data operands *)

(** What the code does with a [0b] token: the length of the rest is
    checked, its characters are not. *)
Lemma processBinOrDecData_0b rest :
  processBinOrDecData ("0b" +:+ rest)
  = if String.length rest =? 8 then (rest, None)
    else ("", Some (BinaryDataLength rest)).
Proof.
  unfold processBinOrDecData. rewrite HasPrefix_app.
  change (sdrop 2 ("0b" +:+ rest)) with rest.
  by destruct (String.length rest =? 8).
Qed.

(** C1, at the input [0b12345678]: the rest has 8 characters that are not
    binary digits; the encoder accepts the token and uses the rest as the
    data field, the line assembles without an error, and the run ends in
    the [panic] of the serializer. *)
Theorem binary_literal_digits_unchecked :
  processBinOrDecData "0b12345678" = ("12345678", None)
  /\ numeral (digitBelow 2) 2 "12345678" 0 = None
  /\ (assembleInstruction exampleConfig "LOD R0 0b12345678" ∅ 0%Z world0).1
     = ("0001012345678", None)
  /\ main exampleConfig false "" true ["LOD R0 0b12345678"] world0 = None.
Proof. repeat split; vm_compute; reflexivity. Qed.

Lemma processData_decimal data tags :
  strings.HasPrefix data "#" = false ->
  strings.HasPrefix data "0b" = false ->
  processData data tags
  = match strconv.Atoi data with
    | inr _ => ("", Some (InvalidDecimalData data))
    | inl decimal => (fmt.Sprintf_08b decimal, None)
    end.
Proof. intros H1 H2. unfold processData, processBinOrDecData. by rewrite H1, H2. Qed.

(** C7, as stated, fails at [9223372036854775808]: the token is a decimal
    numeral, its value is above 255, and it is rejected with
    [invalid decimal data].  And a parsed value that is negative is not
    rendered in 8 binary digits or more: [-5] gives a sign and 7 digits. *)
Lemma decimal_data_counterexample :
  strings.HasPrefix "9223372036854775808" "#" = false
  /\ strings.HasPrefix "9223372036854775808" "0b" = false
  /\ signedValue (digitBelow 10) 10 "9223372036854775808"
     = Some 9223372036854775808%Z
  /\ (255 < 9223372036854775808)%Z
  /\ processData "9223372036854775808" ∅
     = ("", Some (InvalidDecimalData "9223372036854775808"))
  /\ processData "-5" ∅ = ("-0000101", None).
Proof. repeat split; vm_compute; reflexivity. Qed.

(** C7, amended: a token without a [#] or [0b] prefix fails with
    [invalid decimal data] exactly when it is not an optionally signed
    decimal numeral or its value is no 64-bit [int]; a parsed value that
    is not negative is rendered in binary digits that denote it, 8 of them
    up to 255 and as many as the value needs above, so that the values
    from 256 to [2^63 - 1] are accepted with a field wider than 8 bits. *)
Theorem decimal_data (data : string) (tags : gmap string Z) :
  strings.HasPrefix data "#" = false ->
  strings.HasPrefix data "0b" = false ->
  (processData data tags = ("", Some (InvalidDecimalData data))
   <-> ~ exists v, signedValue (digitBelow 10) 10 data = Some v /\ inInt v)
  /\ forall v, signedValue (digitBelow 10) 10 data = Some v ->
               (0 <= v < 2 ^ 63)%Z ->
       exists field,
         processData data tags = (field, None)
         /\ numeral (digitBelow 2) 2 field 0 = Some v
         /\ ((v <= 255)%Z -> String.length field = 8)
         /\ ((255 < v)%Z ->
             8 < String.length field
             /\ (2 ^ (Z.of_nat (String.length field) - 1) <= v
                 < 2 ^ Z.of_nat (String.length field))%Z).
Proof.
  intros H1 H2. rewrite processData_decimal by done. split.
  - destruct (strconv.Atoi data) as [v|e] eqn:HA.
    + split; [done|]. intros Hno. exfalso. apply Hno. exists v. by apply Atoi_spec.
    + split; [|done]. intros _ (v & Hv). apply Atoi_spec in Hv. congruence.
  - intros v Hv Hr.
    assert (HA : strconv.Atoi data = inl v).
    { apply Atoi_spec. split; [done|]. unfold inInt. lia. }
    rewrite HA. exists (fmt.Sprintf_08b v). split; [done|].
    destruct (Sprintf_08b_nonneg v ltac:(lia)) as (Hnum & _ & Hfit & Hbig).
    split; [done|]. split; intros; [apply Hfit | apply Hbig]; lia.
Qed.

Lemma decimal_data_witness :
  strings.HasPrefix "999999" "#" = false
  /\ strings.HasPrefix "999999" "0b" = false
  /\ exists field,
      processData "999999" ∅ = (field, None) /\ 8 < String.length field.
Proof.
  assert (H1 : strings.HasPrefix "999999" "#" = false) by reflexivity.
  assert (H2 : strings.HasPrefix "999999" "0b" = false) by reflexivity.
  split; [exact H1|]. split; [exact H2|].
  destruct (decimal_data "999999" ∅ H1 H2) as [_ H].
  destruct (H 999999%Z ltac:(reflexivity) ltac:(lia)) as (field & Hf & _ & _ & Hbig).
  exists field. split; [exact Hf|]. apply Hbig. lia.
Defined.

(** A numeral with a negative value begins with the minus sign. *)
Lemma signedValue_negative base data v :
  (2 <= base <= 10)%Z ->
  signedValue (digitBelow base) base data = Some v -> (v < 0)%Z ->
  exists t, data = String "-" t.
Proof.
  intros Hb Hv Hneg. destruct data as [|c t]; [done|]. unfold signedValue in Hv.
  destruct (Ascii.eqb_spec c "-") as [->|_]; [by eexists|].
  destruct (Ascii.eqb c "+");
    apply digitsValue_nonneg in Hv; try done; lia.
Qed.

(** A string with a minus sign after its first character is no numeral of
    base 2, with or without a sign of its own. *)
Lemma signedValue_sign_inside p rest :
  p <> "" ->
  signedValue (digitBelow 2) 2 (p +:+ String "-" rest) = None.
Proof.
  assert (Hnum : forall x n,
            numeral (digitBelow 2) 2 (x +:+ String "-" rest) n = None).
  { intros x n. rewrite numeral_app.
    by destruct (numeral (digitBelow 2) 2 x n). }
  assert (Hdv : forall x, digitsValue (digitBelow 2) 2 (x +:+ String "-" rest) = None).
  { intros [|c x]; [done|]. apply (Hnum (String c x)). }
  destruct p as [|c p]; [done|]. intros _.
  change (String c p +:+ String "-" rest) with (String c (p +:+ String "-" rest)).
  unfold signedValue.
  destruct (Ascii.eqb c "-"); [by rewrite Hdv|].
  destruct (Ascii.eqb c "+"); [by rewrite Hdv|].
  apply (Hdv (String c p)).
Qed.

(** C10, as stated, fails at [-9223372036854775809]: the token is a
    negative decimal integer literal and it is rejected with
    [invalid decimal data]. *)
Lemma negative_data_counterexample :
  signedValue (digitBelow 10) 10 "-9223372036854775809"
  = Some (-9223372036854775809)%Z
  /\ processData "-9223372036854775809" ∅
     = ("", Some (InvalidDecimalData "-9223372036854775809")).
Proof. split; vm_compute; reflexivity. Qed.

(** C10, amended: a negative decimal literal whose value is a 64-bit
    [int] is not rejected: the data field begins with the minus sign, so
    it is no string of binary digits, and an instruction that carries it
    makes the serializer [panic]. *)
Theorem negative_data (data : string) (tags : gmap string Z) (v : Z) :
  signedValue (digitBelow 10) 10 data = Some v ->
  (- 2 ^ 63 <= v < 0)%Z ->
  exists rest,
    processData data tags = (String "-" rest, None)
    /\ String "-" rest = fmt.Sprintf_08b v
    /\ numeral (digitBelow 2) 2 (String "-" rest) 0 = None
    /\ forall opcode dest rows,
        opcode +:+ dest <> "" ->
        convertToHexAndFormat
          ((opcode +:+ dest +:+ String "-" rest) :: rows) = None.
Proof.
  intros Hv Hr.
  destruct (signedValue_negative 10 data v ltac:(lia) Hv ltac:(lia)) as [t ->].
  rewrite processData_decimal by reflexivity.
  assert (HA : strconv.Atoi (String "-" t) = inl v).
  { apply Atoi_spec. split; [done|]. unfold inInt. lia. }
  rewrite HA. destruct (Sprintf_08b_negative v ltac:(lia)) as [rest Hrest].
  exists rest. rewrite Hrest. split; [done|]. split; [done|]. split; [done|].
  intros opcode dest rows Hne. unfold convertToHexAndFormat. cbn [hexRows].
  destruct (strconv.ParseInt (opcode +:+ dest +:+ String "-" rest) 2 64)
    as [w|e] eqn:HP; [|done].
  apply ParseInt_spec in HP as [HP _]; [|lia | by right].
  rewrite <- sapp_assoc, signedValue_sign_inside in HP; done.
Qed.

Lemma negative_data_witness :
  signedValue (digitBelow 10) 10 "-5" = Some (-5)%Z
  /\ processData "-5" ∅ = ("-0000101", None).
Proof.
  assert (H : signedValue (digitBelow 10) 10 "-5" = Some (-5)%Z) by reflexivity.
  split; [exact H|].
  destruct (negative_data "-5" ∅ (-5)%Z H ltac:(lia)) as (rest & Hp & Hs & _).
  rewrite Hp, Hs. vm_compute. reflexivity.
Defined.

(** ** Decimal and binary tokens of one value *)

Lemma sameField_all : forallb (fun n => sameField (Z.of_nat n)) (seq 0 256) = true.
Proof. vm_compute. reflexivity. Qed.

Lemma sameField_byte v : (0 <= v <= 255)%Z -> sameField v = true.
Proof.
  intros Hv. pose proof sameField_all as H.
  rewrite forallb_forall in H. specialize (H (Z.to_nat v)).
  rewrite Z2Nat.id in H by lia. apply H, in_seq. lia.
Qed.

(** C8: [0b00001010] and [10] give the data field [00001010]; and for
    every value from 0 to 255 the decimal token and the [0b] token with
    its 8 binary digits give the same field, those 8 digits. *)
Theorem decimal_and_binary_agree (tags : gmap string Z) :
  processData "0b00001010" tags = ("00001010", None)
  /\ processData "10" tags = ("00001010", None)
  /\ forall v, (0 <= v <= 255)%Z ->
       processData (decimalToken v) tags = (bits8 v, None)
       /\ processData ("0b" +:+ bits8 v) tags = (bits8 v, None)
       /\ String.length (bits8 v) = 8
       /\ numeral (digitBelow 2) 2 (bits8 v) 0 = Some v.
Proof.
  split; [reflexivity|]. split; [reflexivity|].
  intros v Hv. pose proof (sameField_byte v Hv) as H. unfold sameField in H.
  repeat (apply andb_true_iff in H as [H ?]).
  repeat match goal with
         | H : negb _ = true |- _ => apply negb_true_iff in H
         end.
  unfold processData.
  repeat match goal with
         | H : strings.HasPrefix _ _ = false |- _ => rewrite H; clear H
         end.
  assert (Hgives : forall r field, givesField r field = true -> r = (field, None)).
  { intros [d [e|]] field Hg; [done|]. cbn in Hg. by apply String.eqb_eq in Hg as ->. }
  split; [by apply Hgives|]. split; [by apply Hgives|]. split.
  - unfold bits8, bitChar. by repeat destruct (Z.testbit v _).
  - destruct (numeral (digitBelow 2) 2 (bits8 v) 0) as [w|]; [|done].
    f_equal. by apply Z.eqb_eq.
Qed.

Lemma decimal_and_binary_agree_witness :
  (0 <= 10 <= 255)%Z
  /\ processData (decimalToken 10) ∅ = ("00001010", None)
  /\ processData ("0b" +:+ bits8 10) ∅ = ("00001010", None).
Proof.
  assert (H : (0 <= 10 <= 255)%Z) by lia.
  destruct (decimal_and_binary_agree ∅) as (_ & _ & Hall).
  destruct (Hall 10%Z H) as (Hd & Hb & _).
  split; [exact H|]. split; [exact Hd | exact Hb].
Defined.

(** ** The hex image *)

Lemma countLines_app a b : countLines (a +:+ b) = countLines a + countLines b.
Proof.
  induction a as [|c a IH]; [done|].
  change (String c a +:+ b) with (String c (a +:+ b)). cbn [countLines].
  rewrite IH. lia.
Qed.

Lemma countLines_numeral val base s :
  val "010"%char = None ->
  forall n w, numeral val base s n = Some w -> countLines s = 0.
Proof.
  intros Hnl. induction s as [|c t IH]; intros n w; [done|]. cbn [numeral countLines].
  destruct (Ascii.eqb_spec c "010") as [->|_]; [by rewrite Hnl|].
  destruct (val c); [apply IH | done].
Qed.

Lemma countLines_row v : (0 <= v < 2 ^ 64)%Z -> countLines (row v) = 1.
Proof.
  intros Hv. unfold row. rewrite countLines_app.
  destruct (Sprintf_04X_nonneg v Hv) as (Hnum & _).
  by rewrite (countLines_numeral hexDigit 16 _ eq_refl _ _ Hnum).
Qed.

Lemma countLines_filler k : countLines (strings.Repeat filler k) = k.
Proof.
  induction k as [|k IH]; [done|]. cbn [strings.Repeat].
  rewrite countLines_app, IH. reflexivity.
Qed.

(** The serializer parses a bit string to the value it denotes. *)
Lemma isBitString_ParseInt instr v :
  isBitString instr v ->
  strconv.ParseInt instr 2 64 = inl v /\ (0 <= v < 2 ^ 63)%Z.
Proof.
  intros (Hne & Hnum & Hv).
  assert (H0 : (0 <= v)%Z).
  { eapply numeral_ge in Hnum; [done | lia | | lia].
    intros c d H. apply digitBelow_range in H. lia. }
  split; [|lia]. apply ParseInt_spec; [lia | by right|].
  split; [|unfold inInt; lia].
  destruct instr as [|c t]; [done|]. unfold signedValue, digitsValue.
  cbn [numeral] in Hnum.
  destruct (Ascii.eqb_spec c "-") as [->|_]; [done|].
  destruct (Ascii.eqb_spec c "+") as [->|_]; [done|].
  exact Hnum.
Qed.

Lemma isBitString_width instr v :
  isBitString instr v -> String.length instr <= 16 -> (v < 65536)%Z.
Proof.
  intros (_ & Hnum & _) Hlen.
  apply numeral_upper_bound in Hnum; [|lia..].
  assert (2 ^ Z.of_nat (String.length instr) <= 2 ^ 16)%Z
    by (apply Z.pow_le_mono_r; lia).
  lia.
Qed.

Lemma hexRows_bitStrings program values :
  Forall2 isBitString program values ->
  hexRows program = Some (joinRows (map row values)).
Proof.
  induction 1 as [|instr v program values Hbit _ IH]; [done|].
  cbn [hexRows map joinRows].
  destruct (isBitString_ParseInt instr v Hbit) as [-> _].
  rewrite IH. unfold row, rowEnd. by rewrite sapp_assoc.
Qed.

Lemma countLines_rows values :
  Forall (fun v => 0 <= v < 2 ^ 64)%Z values ->
  countLines (joinRows (map row values)) = length values.
Proof.
  induction 1 as [|v values Hv _ IH]; [done|].
  cbn [map joinRows length]. by rewrite countLines_app, countLines_row, IH.
Qed.

(** C5, as stated, fails on encoded programs the encoder produces: the
    line [LOD R0 999999] encodes without an error to an instruction of 25
    bits, whose row has 6 hexadecimal digits, not 4; and the line
    [LOD R0 -5] encodes without an error to an instruction the serializer
    ends in a [panic] on. *)
Lemma hex_image_counterexample :
  assembleProgram exampleConfig ["LOD R0 999999"] ∅ world0
  = (["0001011110100001000111111"],
     World false
           [OutHeader;
            OutAssembled 0 "LOD R0 999999" "0001 0 11110100001000111111";
            OutFooter] [])
  /\ convertToHexAndFormat ["0001011110100001000111111"]
     = Some ("2F423F" +:+ rowEnd +:+ strings.Repeat filler 63)
  /\ (assembleProgram exampleConfig ["LOD R0 -5"] ∅ world0).1
     = ["00010-0000101"]
  /\ convertToHexAndFormat ["00010-0000101"] = None.
Proof. repeat split; vm_compute; reflexivity. Qed.

(** C5, amended: for a program of bit strings (one binary digit or more,
    of a value below [2^63]) with the values [values], the image is one
    row per instruction, the value in upper-case hexadecimal digits with
    zeros in front up to 4 digits (exactly 4 when the instruction has at
    most 16 bits, more when the value needs them) followed by [;] and a
    newline, then filler rows [0000;] up to 64 rows; from 64 instructions
    on there is no filler, nothing is cut and nothing fails, the image
    having one row per instruction. *)
Theorem hex_image (program : list string) (values : list Z) :
  Forall2 isBitString program values ->
  let rows := joinRows (map row values) in
  let image := rows +:+ strings.Repeat filler (64 - length program) in
  convertToHexAndFormat program = Some image
  /\ filler = row 0
  /\ countLines image = Nat.max (length program) 64
  /\ countLines rows = length program
  /\ (64 <= length program -> convertToHexAndFormat program = Some rows)
  /\ Forall2 (fun instr v =>
                strconv.ParseInt instr 2 64 = inl v
                /\ numeral hexDigit 16 (fmt.Sprintf_04X v) 0 = Some v
                /\ 4 <= String.length (fmt.Sprintf_04X v)
                /\ (String.length instr <= 16 ->
                    String.length (fmt.Sprintf_04X v) = 4)
                /\ ((65536 <= v)%Z -> 4 < String.length (fmt.Sprintf_04X v)))
             program values.
Proof.
  intros Hbits rows image.
  assert (Hlen : length values = length program)
    by (symmetry; by eapply Forall2_length).
  assert (Hvals : Forall (fun v => 0 <= v < 2 ^ 64)%Z values).
  { clear -Hbits. induction Hbits as [|instr v program values Hbit _ IH]; [done|].
    constructor; [|done]. apply isBitString_ParseInt in Hbit. lia. }
  assert (Hrows : countLines rows = length program)
    by (unfold rows; by rewrite countLines_rows, Hlen).
  assert (Hconv : convertToHexAndFormat program = Some image).
  { unfold convertToHexAndFormat. by rewrite (hexRows_bitStrings program values). }
  split; [done|]. split; [reflexivity|]. split; [|split; [done|split]].
  - unfold image. rewrite countLines_app, countLines_filler, Hrows. lia.
  - intros Hbig. rewrite Hconv. unfold image.
    replace (64 - length program) with 0 by lia.
    cbn [strings.Repeat]. by rewrite sapp_nil_r.
  - eapply Forall2_impl; [exact Hbits|]. intros instr v Hbit. cbn beta.
    destruct (isBitString_ParseInt instr v Hbit) as [HP Hv].
    destruct (Sprintf_04X_nonneg v ltac:(lia)) as (Hnum & Hmin & Hfit & Hbig).
    split; [done|]. split; [done|]. split; [done|]. split.
    + intros Hw. apply Hfit. by apply (isBitString_width instr).
    + intros Hw. by apply Hbig.
Qed.

Lemma hex_image_witness :
  Forall2 isBitString threeInstructions [522; 1025; 1540]%Z
  /\ convertToHexAndFormat threeInstructions
     = Some (joinRows ["020A" +:+ rowEnd; "0401" +:+ rowEnd; "0604" +:+ rowEnd]
             +:+ strings.Repeat filler 61)
  /\ (forall image, convertToHexAndFormat threeInstructions = Some image ->
                    countLines image = 64).
Proof.
  assert (H : Forall2 isBitString threeInstructions [522; 1025; 1540]%Z).
  { repeat constructor; try done; vm_compute; reflexivity. }
  destruct (hex_image threeInstructions [522; 1025; 1540]%Z H)
    as (Hconv & _ & Hcount & _).
  split; [exact H|]. split; [exact Hconv|].
  intros image Himage. rewrite Hconv in Himage. injection Himage as <-.
  exact Hcount.
Defined.

(** ** The loops over a string end at its end

    The loops of [strings] are written with a bound on their steps, the
    length of the string; every step consumes a byte or more, so the bound
    is never what ends them: one more step allowed changes nothing. *)

Lemma sdrop_length n s : String.length (sdrop n s) = String.length s - n.
Proof.
  revert s. induction n as [|n IH]; intros [|c s]; cbn; try done; try lia.
Qed.

Lemma stake_length n s : String.length (stake n s) = Nat.min n (String.length s).
Proof.
  revert s. induction n as [|n IH]; intros [|c s]; cbn; try done.
  by rewrite IH.
Qed.

Lemma fieldsFrom_S f fuel s cur :
  strings.fieldsFrom f (S fuel) s cur
  = match s with
    | EmptyString => strings.closeField cur
    | String _ _ =>
      let '(r, size) := utf8.DecodeRuneInString s in
      if f r
      then strings.closeField cur ++ strings.fieldsFrom f fuel (sdrop size s) ""
      else strings.fieldsFrom f fuel (sdrop size s) (cur +:+ stake size s)
    end.
Proof. reflexivity. Qed.

Lemma fieldsFrom_fuel f fuel :
  forall s cur, String.length s <= fuel ->
    strings.fieldsFrom f (S fuel) s cur = strings.fieldsFrom f fuel s cur.
Proof.
  induction fuel as [|fuel IH]; intros s cur Hlen.
  - destruct s; [done | cbn in Hlen; lia].
  - rewrite (fieldsFrom_S f (S fuel)), (fieldsFrom_S f fuel).
    destruct s as [|c t]; [done|].
    pose proof (DecodeRuneInString_size c t) as Hsize.
    destruct (utf8.DecodeRuneInString (String c t)) as [r size]. cbn [snd] in Hsize.
    assert (Hrest : String.length (sdrop size (String c t)) <= fuel).
    { rewrite sdrop_length. cbn [String.length] in *. lia. }
    rewrite !IH by done. done.
Qed.

Lemma indexFuncFrom_S f truth fuel s i :
  strings.indexFuncFrom f truth (S fuel) s i
  = match s with
    | EmptyString => None
    | String _ _ =>
      let '(r, size) := utf8.DecodeRuneInString s in
      if Bool.eqb (f r) truth then Some i
      else strings.indexFuncFrom f truth fuel (sdrop size s) (i + size)
    end.
Proof. reflexivity. Qed.

Lemma indexFuncFrom_fuel f truth fuel :
  forall s i, String.length s <= fuel ->
    strings.indexFuncFrom f truth (S fuel) s i
    = strings.indexFuncFrom f truth fuel s i.
Proof.
  induction fuel as [|fuel IH]; intros s i Hlen.
  - destruct s; [done | cbn in Hlen; lia].
  - rewrite (indexFuncFrom_S f truth (S fuel)), (indexFuncFrom_S f truth fuel).
    destruct s as [|c t]; [done|].
    pose proof (DecodeRuneInString_size c t) as Hsize.
    destruct (utf8.DecodeRuneInString (String c t)) as [r size]. cbn [snd] in Hsize.
    destruct (Bool.eqb (f r) truth); [done|]. apply IH.
    rewrite sdrop_length. cbn [String.length] in *. lia.
Qed.

Lemma scanStart_le s fuel lim : forall start, (utf8.scanStart s start fuel lim <= start)%Z.
Proof.
  induction fuel as [|fuel IH]; intros start; cbn [utf8.scanStart]; [lia|].
  destruct (start <? lim)%Z; [lia|].
  destruct (String.get (Z.to_nat start) s) as [c|]; [|lia].
  destruct (utf8.RuneStart (byte c)); [lia|].
  specialize (IH (start - 1)%Z). lia.
Qed.

(** The last rune of a non-empty string takes at least one byte. *)
Lemma DecodeLastRuneInString_size s :
  s <> "" -> 1 <= (utf8.DecodeLastRuneInString s).2.
Proof.
  intros Hs. unfold utf8.DecodeLastRuneInString.
  destruct (String.length s) as [|start] eqn:Hlen; [by destruct s|].
  destruct (String.get start s) as [c|] eqn:Hget.
  2:{ exfalso. revert Hget. clear -Hlen. revert start Hlen.
      induction s as [|c s IH]; intros start Hlen; [done|].
      destruct start as [|start]; [done|]. cbn in *. apply IH. lia. }
  destruct (byte c <? utf8.RuneSelf)%N; [cbn; lia|].
  set (start' := utf8.scanStart s _ _ _).
  pose proof (scanStart_le s (S utf8.UTFMax)
                (Z.max 0 (Z.of_nat (S start) - Z.of_nat utf8.UTFMax))
                (Z.of_nat start - 1)) as Hle.
  fold start' in Hle.
  destruct (utf8.DecodeRuneInString (sdrop (Z.to_nat (Z.max 0 start')) s))
    as [r size] eqn:Hd.
  destruct (Nat.eqb_spec (Z.to_nat (Z.max 0 start') + size) (S start)) as [Heq|];
    cbn [snd]; lia.
Qed.

Lemma lastIndexFuncFrom_S f truth fuel s i :
  strings.lastIndexFuncFrom f truth (S fuel) s i
  = match i with
    | O => None
    | S _ =>
      let '(r, size) := utf8.DecodeLastRuneInString (stake i s) in
      if Bool.eqb (f r) truth then Some (i - size)
      else strings.lastIndexFuncFrom f truth fuel s (i - size)
    end.
Proof. reflexivity. Qed.

Lemma lastIndexFuncFrom_fuel f truth s fuel :
  forall i, i <= fuel -> i <= String.length s ->
    strings.lastIndexFuncFrom f truth (S fuel) s i
    = strings.lastIndexFuncFrom f truth fuel s i.
Proof.
  induction fuel as [|fuel IH]; intros i Hi Hlen.
  - by replace i with 0 by lia.
  - rewrite (lastIndexFuncFrom_S f truth (S fuel)), (lastIndexFuncFrom_S f truth fuel).
    destruct i as [|i]; [done|].
    assert (Hne : stake (S i) s <> "").
    { destruct s; [cbn in Hlen; lia | done]. }
    pose proof (DecodeLastRuneInString_size _ Hne) as Hsize.
    destruct (utf8.DecodeLastRuneInString (stake (S i) s)) as [r size].
    cbn [snd] in Hsize. destruct (Bool.eqb (f r) truth); [done|].
    apply IH; lia.
Qed.

(** ** Examples *)

Example TrimSpace_ascii : strings.TrimSpace "  LOD R0 10   " = "LOD R0 10".
Proof. reflexivity. Qed.

(** A no-break space (U+00A0, the bytes C2 A0) is trimmed and separates
    fields like any other space. *)
Example TrimSpace_nbsp :
  strings.TrimSpace (String "194" (String "160" " LOD R0 10")) = "LOD R0 10".
Proof. vm_compute. reflexivity. Qed.

Example Fields_nbsp :
  strings.Fields ("LOD" +:+ String "194" (String "160" "R0  10"))
  = ["LOD"; "R0"; "10"].
Proof. vm_compute. reflexivity. Qed.

Example Atoi_examples :
  strconv.Atoi "10" = inl 10%Z
  /\ strconv.Atoi "+7" = inl 7%Z
  /\ strconv.Atoi "-5" = inl (-5)%Z
  /\ strconv.Atoi "1a" = inr strconv.ErrSyntax
  /\ strconv.Atoi "-" = inr strconv.ErrSyntax
  /\ strconv.Atoi "9223372036854775807" = inl 9223372036854775807%Z
  /\ strconv.Atoi "9223372036854775808" = inr strconv.ErrRange.
Proof. repeat split; vm_compute; reflexivity. Qed.

Example Sprintf_examples :
  fmt.Sprintf_08b 10 = "00001010"
  /\ fmt.Sprintf_08b 999999 = "11110100001000111111"
  /\ fmt.Sprintf_08b (-5) = "-0000101"
  /\ fmt.Sprintf_04X 522 = "020A"
  /\ fmt.Sprintf_04X 3097151 = "2F423F".
Proof. repeat split; vm_compute; reflexivity. Qed.

Example wrong_length_is_rejected :
  processData "0b101" ∅ = ("", Some (BinaryDataLength "101")).
Proof. reflexivity. Qed.

(** The program of the README: the two tags, the five instructions, and
    the file [main] writes. *)
Example readme_tags :
  map_to_list (parse readmeProgram).2 = [("end", 4%Z); ("loop", 1%Z)].
Proof. vm_compute. reflexivity. Qed.

Example readme_run :
  main exampleConfig true "prog.asm" true readmeProgram world0
  = Some (World false
            [OutHeader;
             OutAssembled 0 "LOD R0 10" "0001 0 00001010";
             OutAssembled 1 "SUB R0 1" "0010 0 00000001";
             OutAssembled 2 "BRZ R0 #end" "0011 0 00000100";
             OutAssembled 3 "BRN #loop" "0100 0 00000001";
             OutAssembled 4 "BRN #end" "0100 0 00000100";
             OutFooter;
             OutWritten 5 "prog.hex"]
            [("prog.hex",
              joinRows ["020A" +:+ rowEnd; "0401" +:+ rowEnd; "0604" +:+ rowEnd;
                        "0801" +:+ rowEnd; "0804" +:+ rowEnd]
              +:+ strings.Repeat filler 59)]).
Proof. vm_compute. reflexivity. Qed.

(** * Further properties *)

(** ** The first pass: what does not count and where tags come from *)



Lemma parseLoop_snoc lines text st :
  parseLoop (lines ++ [text]) st = parseLine text (parseLoop lines st).
Proof. by rewrite parseLoop_app. Qed.

(** The tag table after one more line. *)
Lemma parse_snoc_tags lines text :
  (parse (lines ++ [text])).2
  = match classify text with
    | TagDef name =>
      <[name := Z.of_nat (length (instructionsOf lines))]> (parse lines).2
    | _ => (parse lines).2
    end.
Proof.
  rewrite !parse_tags, parseLoop_snoc.
  destruct (parseLoop_counter lines) as [Hn _].
  destruct (parseLoop lines (∅, [], 0%Z)) as [[tags instructions] n].
  cbn [fst snd] in *. subst n. rewrite parseLine_classify.
  by destruct (classify text).
Qed.

(** Where an entry of the tag table comes from. *)
Lemma tag_origin (lines : list string) (name : string) (a : Z) :
  (parse lines).2 !! name = Some a ->
  exists pre text post,
    lines = pre ++ text :: post
    /\ definesTag name text
    /\ Forall (fun t => ~ definesTag name t) post
    /\ a = Z.of_nat (length (instructionsOf pre)).
Proof.
  revert a. induction lines as [|text lines IH] using rev_ind; intros a Ha.
  - rewrite parse_tag_undefined in Ha by constructor. done.
  - rewrite parse_snoc_tags in Ha.
    assert (Hold : (parse lines).2 !! name = Some a ->
                   ~ definesTag name text ->
                   exists pre t post,
                     lines ++ [text] = pre ++ t :: post
                     /\ definesTag name t
                     /\ Forall (fun t => ~ definesTag name t) post
                     /\ a = Z.of_nat (length (instructionsOf pre))).
    { intros Hl Hnd. destruct (IH a Hl) as (pre & t & post & -> & Hd & Hp & ->).
      exists pre, t, (post ++ [text]).
      split; [by rewrite <- app_assoc|]. split; [done|]. split; [|done].
      apply Forall_app; split; [done|]. by constructor. }
    unfold definesTag in Hold.
    destruct (classify text) as [| |name'|line] eqn:Hc; try (by apply Hold).
    destruct (decide (name' = name)) as [->|Hne].
    + rewrite lookup_insert_eq in Ha. injection Ha as <-.
      exists lines, text, []. split; [done|]. split; [exact Hc|]. done.
    + rewrite lookup_insert_ne in Ha by done. apply Hold; [done | congruence].
Qed.

Lemma tag_address_bound (lines : list string) (name : string) (a : Z) :
  (parse lines).2 !! name = Some a ->
  (0 <= a <= Z.of_nat (length (parse lines).1))%Z.
Proof.
  intros Ha. destruct (tag_origin lines name a Ha) as (pre & text & post & -> & _ & _ & ->).
  rewrite parse_instructions, instructionsOf_app, length_app. lia.
Qed.

(** X2: every entry of the tag table comes from a definition: a name
    bound to [a] is defined by some line, the last one that defines it,
    and [a] is the number of instruction lines before that line; so [a]
    is never negative and never beyond the instruction count. *)
Theorem tag_entries_come_from_definitions
        (lines : list string) (name : string) (a : Z) :
  (parse lines).2 !! name = Some a ->
  (exists pre text post,
      lines = pre ++ text :: post
      /\ definesTag name text
      /\ Forall (fun t => ~ definesTag name t) post
      /\ a = Z.of_nat (length (instructionsOf pre)))
  /\ (0 <= a <= Z.of_nat (length (parse lines).1))%Z.
Proof.
  intros Ha. split.
  - by apply tag_origin.
  - by apply (tag_address_bound lines name).
Qed.

Lemma tag_entries_come_from_definitions_witness :
  (parse readmeProgram).2 !! "end" = Some 4%Z
  /\ (0 <= 4 <= Z.of_nat (length (parse readmeProgram).1))%Z.
Proof.
  assert (H : (parse readmeProgram).2 !! "end" = Some 4%Z)
    by (vm_compute; reflexivity).
  split; [exact H|].
  exact (proj2 (tag_entries_come_from_definitions readmeProgram "end" 4%Z H)).
Defined.

Lemma parse_tag_defined lines name :
  Exists (definesTag name) lines -> is_Some ((parse lines).2 !! name).
Proof.
  induction lines as [|text lines IH] using rev_ind; intros Hex;
    [by apply Exists_nil in Hex|].
  rewrite parse_snoc_tags. apply Exists_app in Hex as [Hex|Hex].
  - specialize (IH Hex). destruct (classify text) as [| |name'|line]; try done.
    destruct (decide (name' = name)) as [->|Hne];
      [rewrite lookup_insert_eq; by eexists | by rewrite lookup_insert_ne].
  - apply Exists_cons in Hex as [Hd|Hex]; [|by apply Exists_nil in Hex].
    unfold definesTag in Hd. rewrite Hd, lookup_insert_eq. by eexists.
Qed.

(** X3: a tag reference fails with [unknown tag] exactly when no line of
    the source defines the name; a name some line defines is in the
    table. *)
Theorem unknown_tag_iff_undefined (lines : list string) (name : string) :
  (is_Some ((parse lines).2 !! name) <-> Exists (definesTag name) lines)
  /\ (processData ("#" +:+ name) (parse lines).2
      = ("", Some (UnknownTag name))
      <-> Forall (fun t => ~ definesTag name t) lines).
Proof.
  assert (Hknown : is_Some ((parse lines).2 !! name)
                   <-> Exists (definesTag name) lines).
  { split; [|apply parse_tag_defined].
    intros [a Ha].
    destruct (tag_origin lines name a Ha) as (pre & text & post & -> & Hd & _).
    apply Exists_app. right. by constructor. }
  split; [exact Hknown|].
  unfold processData, processTag. rewrite HasPrefix_app.
  change (sdrop 1 ("#" +:+ name)) with name.
  destruct ((parse lines).2 !! name) as [a|] eqn:Ha.
  - split; [done|]. intros Hall. exfalso.
    assert (Hex : Exists (definesTag name) lines) by (apply Hknown; by eexists).
    apply Exists_exists in Hex as (t & Hin & Hd).
    rewrite Forall_forall in Hall. by apply (Hall t).
  - split; [|done]. intros _. apply Forall_forall. intros t Hin Hd.
    assert (Hs : is_Some (None : option Z)).
    { apply Hknown. apply Exists_exists. eauto. }
    by destruct Hs.
Qed.

(** X4: a reference to a defined tag never fails and gives binary digits
    that denote the tag's address: 8 of them when the source has at most
    255 instruction lines (every address is then at most 255), more than
    8 when the address is above 255. *)
Theorem tag_reference_field (lines : list string) (name : string) (a : Z) :
  (parse lines).2 !! name = Some a ->
  (Z.of_nat (length (parse lines).1) < 2 ^ 63)%Z ->
  exists field,
    processData ("#" +:+ name) (parse lines).2 = (field, None)
    /\ numeral (digitBelow 2) 2 field 0 = Some a
    /\ (length (parse lines).1 <= 255 -> String.length field = 8)
    /\ ((255 < a)%Z -> 8 < String.length field).
Proof.
  intros Ha Hlen.
  pose proof (tag_address_bound lines name a Ha) as Hr.
  exists (fmt.Sprintf_08b a).
  unfold processData, processTag. rewrite HasPrefix_app.
  change (sdrop 1 ("#" +:+ name)) with name. rewrite Ha.
  destruct (Sprintf_08b_nonneg a ltac:(lia)) as (Hnum & _ & Hfit & Hbig).
  split; [done|]. split; [done|]. split.
  - intros Hn. apply Hfit. lia.
  - intros Hw. apply Hbig. lia.
Qed.

Lemma tag_reference_field_witness :
  (parse readmeProgram).2 !! "loop" = Some 1%Z
  /\ exists field,
      processData "#loop" (parse readmeProgram).2 = (field, None)
      /\ String.length field = 8.
Proof.
  assert (H : (parse readmeProgram).2 !! "loop" = Some 1%Z)
    by (vm_compute; reflexivity).
  split; [exact H|].
  destruct (tag_reference_field readmeProgram "loop" 1%Z H)
    as (field & Hp & _ & H8 & _); [vm_compute; reflexivity|].
  exists field. split; [exact Hp|]. apply H8. vm_compute. lia.
Defined.

(** ** Indentation *)




(** ** The encoder: what its errors mean and what it returns *)

Lemma processData_error data tags out e :
  processData data tags = (out, Some e) ->
  out = ""
  /\ match e with
     | UnknownTag s => data = "#" +:+ s /\ tags !! s = None
     | BinaryDataLength s => data = "0b" +:+ s /\ String.length s <> 8
     | InvalidDecimalData s =>
       data = s /\ strings.HasPrefix s "#" = false
       /\ strings.HasPrefix s "0b" = false
       /\ ~ exists v, signedValue (digitBelow 10) 10 s = Some v /\ inInt v
     | _ => False
     end.
Proof.
  unfold processData, processTag, processBinOrDecData.
  destruct (strings.HasPrefix data "#") eqn:H1.
  { apply HasPrefix_inv in H1. cbn [String.length] in H1.
    destruct (tags !! sdrop 1 data) eqn:Ht; [done|]. intros [= <- <-]. done. }
  destruct (strings.HasPrefix data "0b") eqn:H2.
  { apply HasPrefix_inv in H2. cbn [String.length] in H2.
    destruct (String.length (sdrop 2 data) =? 8) eqn:Hl; cbn [negb]; [done|].
    intros [= <- <-]. split; [done|]. split; [done|]. by apply Nat.eqb_neq. }
  destruct (strconv.Atoi data) as [v|err] eqn:HA; [done|].
  intros [= <- <-]. split; [done|]. split; [done|]. split; [done|]. split; [done|].
  intros (v & Hv). apply Atoi_spec in Hv. congruence.
Qed.

(** X6: an error of the encoder tells the truth about the line:
    [invalid instruction format] means no token at all or more than two
    operands after a known mnemonic; [unknown opcode] names the first
    token, which is missing from the table; [invalid destination] names
    the first of two operands, which is neither [R0] nor [R1] (with one
    operand this error never comes); [unknown tag], [binary data should
    be 8 bits long] and [invalid decimal data] name (the rest of) the data
    operand, which is a [#] token with a name missing from the tag table,
    a [0b] token whose rest has not 8 bytes, or a token with neither
    prefix that is no decimal numeral of an [int].  The result text is
    empty whenever there is an error. *)
Theorem encoder_errors_explained
        (cfg : config) (tags : gmap string Z) (instruction out : string)
        (e : error) :
  encode cfg tags instruction = (out, Some e) ->
  out = "" /\ explains cfg tags instruction e.
Proof.
  unfold encode, assembleInstruction, explains, dataTokenOf.
  destruct (strings.Fields instruction) as [|mnemonic operands] eqn:HF.
  { intros [= <- <-]. split; [done|]. by left. }
  destruct (Opcodes cfg !! mnemonic) as [opcode|] eqn:Hop.
  2:{ intros [= <- <-]. split; [done|]. by exists operands. }
  assert (Hne : forall t, t ∈ operands -> String.eqb t "" = false).
  { intros t Ht. apply eqb_empty_false, (Fields_nonempty instruction).
    rewrite HF. by apply list_elem_of_further. }
  destruct operands as [|p1 [|p2 [|p3 rest]]]; cbn [getDestAndData].
  - done.
  - unfold isDestination, processDestination.
    destruct (String.eqb_spec p1 "R0") as [->|H0]; [done|].
    destruct (String.eqb_spec p1 "R1") as [->|H1]; [done|]. cbn [orb].
    rewrite (Hne p1) by apply list_elem_of_here.
    change (String.eqb "" "") with true. cbv iota.
    destruct (processData p1 tags) as [data [e'|]] eqn:Hpd; [|done].
    intros [= <- <-]. destruct (processData_error _ _ _ _ Hpd) as [_ He].
    split; [done|]. destruct e'; try done; destruct He as [-> He]; done.
  - unfold processDestination.
    destruct (String.eqb_spec p1 "R0") as [->|H0];
      [|destruct (String.eqb_spec p1 "R1") as [->|H1]].
    3:{ intros [= <- <-]. split; [done|]. exists mnemonic, p2. by rewrite Hop. }
    all: rewrite (Hne p2) by (apply list_elem_of_further, list_elem_of_here);
      cbn [String.eqb Ascii.eqb Bool.eqb];
      destruct (processData p2 tags) as [data [e'|]] eqn:Hpd; [|done];
      intros [= <- <-]; destruct (processData_error _ _ _ _ Hpd) as [_ He];
      split; [done|]; destruct e'; try done; destruct He as [-> He]; done.
  - intros [= <- <-]. split; [done|]. right.
    exists mnemonic, (p1 :: p2 :: p3 :: rest). rewrite Hop.
    split; [done|]. split; [by eexists|]. split; [cbn; lia | done].
Qed.

Lemma encoder_errors_explained_witness :
  encode exampleConfig ∅ "LOD R2 5" = ("", Some (InvalidDestination "R2"))
  /\ explains exampleConfig ∅ "LOD R2 5" (InvalidDestination "R2").
Proof.
  assert (H : encode exampleConfig ∅ "LOD R2 5"
              = ("", Some (InvalidDestination "R2"))) by (vm_compute; reflexivity).
  split; [exact H|].
  exact (proj2 (encoder_errors_explained exampleConfig ∅ "LOD R2 5" ""
                                         (InvalidDestination "R2") H)).
Defined.

(** [%08b] writes 8 characters or more, whatever the value. *)
Lemma Sprintf_08b_length v : 8 <= String.length (fmt.Sprintf_08b v).
Proof.
  unfold fmt.Sprintf_08b, fmt.fmtInteger.
  destruct (v <? 0)%Z.
  - change ("-" +:+ ?x) with (String "-" x). cbn [String.length].
    rewrite slength_app, Repeat_length. cbn [String.length]. lia.
  - rewrite slength_app, Repeat_length. cbn [String.length]. lia.
Qed.

Lemma processData_field_length data tags field :
  processData data tags = (field, None) -> 8 <= String.length field.
Proof.
  unfold processData, processTag, processBinOrDecData.
  destruct (strings.HasPrefix data "#").
  { destruct (tags !! sdrop 1 data); [|done]. intros [= <-]. apply Sprintf_08b_length. }
  destruct (strings.HasPrefix data "0b").
  { destruct (Nat.eqb_spec (String.length (sdrop 2 data)) 8) as [Hl|]; [|done].
    cbn [negb]. intros Heq.
    assert (field = sdrop 2 data) as -> by congruence. lia. }
  destruct (strconv.Atoi data); [|done]. intros [= <-]. apply Sprintf_08b_length.
Qed.

(** What a line that encodes gives. *)
Lemma encode_shape
        (cfg : config) (tags : gmap string Z) (instruction r : string) :
  encode cfg tags instruction = (r, None) ->
  exists mnemonic operands opcode dest data,
    strings.Fields instruction = mnemonic :: operands
    /\ length operands <= 2
    /\ Opcodes cfg !! mnemonic = Some opcode
    /\ r = opcode +:+ dest +:+ data
    /\ dest = (if bool_decide (head operands = Some "R1") then "1" else "0")
    /\ 8 <= String.length data
    /\ match dataTokenOf instruction with
       | None => data = "00000000"
       | Some t => processData t tags = (data, None)
       end
    /\ String.length r = String.length opcode + 1 + String.length data.
Proof.
  unfold encode, assembleInstruction, dataTokenOf.
  destruct (strings.Fields instruction) as [|mnemonic operands] eqn:HF; [done|].
  destruct (Opcodes cfg !! mnemonic) as [opcode|] eqn:Hop; [|done].
  assert (Hne : forall t, t ∈ operands -> String.eqb t "" = false).
  { intros t Ht. apply eqb_empty_false, (Fields_nonempty instruction).
    rewrite HF. by apply list_elem_of_further. }
  assert (Hlen : forall dest data,
             String.length dest = 1 ->
             String.length (opcode +:+ dest +:+ data)
             = String.length opcode + 1 + String.length data).
  { intros dest data Hd. rewrite !slength_app, Hd. lia. }
  intros Hrun. exists mnemonic, operands, opcode.
  destruct operands as [|p1 [|p2 [|p3 rest]]]; cbn [getDestAndData] in Hrun.
  - injection Hrun as <-. exists "0", "00000000". cbn [head].
    rewrite bool_decide_eq_false_2 by done.
    repeat split; try done; try (cbn; lia). by apply Hlen.
  - unfold isDestination, processDestination in Hrun. cbn [head].
    destruct (String.eqb_spec p1 "R0") as [->|H0].
    { injection Hrun as <-. exists "0", "00000000".
      rewrite bool_decide_eq_false_2 by done.
      repeat split; try done; try (cbn; lia). by apply Hlen. }
    destruct (String.eqb_spec p1 "R1") as [->|H1].
    { injection Hrun as <-. exists "1", "00000000".
      rewrite bool_decide_eq_true_2 by done.
      repeat split; try done; try (cbn; lia). by apply Hlen. }
    cbn [orb] in Hrun. rewrite (Hne p1) in Hrun by apply list_elem_of_here.
    change (String.eqb "" "") with true in Hrun. cbv iota in Hrun.
    destruct (processData p1 tags) as [data [e'|]] eqn:Hpd; [done|].
    injection Hrun as <-. exists "0", data.
    rewrite bool_decide_eq_false_2 by congruence.
    unfold isDestination.
    apply String.eqb_neq in H0, H1. rewrite H0, H1. cbn [orb].
    repeat split; try done; try (cbn; lia).
    + by apply (processData_field_length p1 tags).
    + by apply Hlen.
  - unfold processDestination in Hrun. cbn [head].
    destruct (String.eqb_spec p1 "R0") as [->|H0];
      [|destruct (String.eqb_spec p1 "R1") as [->|H1]; [|done]].
    all: rewrite (Hne p2) in Hrun
        by (apply list_elem_of_further, list_elem_of_here);
      cbn [String.eqb Ascii.eqb Bool.eqb] in Hrun;
      destruct (processData p2 tags) as [data [e'|]] eqn:Hpd; [done|];
      injection Hrun as <-.
    + exists "0", data. rewrite bool_decide_eq_false_2 by done.
      repeat split; try done; try (cbn; lia).
      * by apply (processData_field_length p2 tags).
      * by apply Hlen.
    + exists "1", data. rewrite bool_decide_eq_true_2 by done.
      repeat split; try done; try (cbn; lia).
      * by apply (processData_field_length p2 tags).
      * by apply Hlen.
  - done.
Qed.

(** X7: what a line that encodes gives: the table's opcode of its first
    token, one destination bit, which is [1] exactly when the first
    operand is [R1], and a data field of 8 characters or more, which is
    [00000000] when the line has no data operand and the field of that
    operand otherwise.  So an encoding is at least 9 characters longer
    than its opcode, and a line with more than two operands never
    encodes. *)
Theorem encoder_success_shape
        (cfg : config) (tags : gmap string Z) (instruction r : string) :
  encode cfg tags instruction = (r, None) ->
  exists mnemonic operands opcode dest data,
    strings.Fields instruction = mnemonic :: operands
    /\ length operands <= 2
    /\ Opcodes cfg !! mnemonic = Some opcode
    /\ r = opcode +:+ dest +:+ data
    /\ dest = (if bool_decide (head operands = Some "R1") then "1" else "0")
    /\ 8 <= String.length data
    /\ match dataTokenOf instruction with
       | None => data = "00000000"
       | Some t => processData t tags = (data, None)
       end
    /\ String.length r = String.length opcode + 1 + String.length data.
Proof. apply encode_shape. Qed.

Lemma encoder_success_shape_witness :
  encode exampleConfig ∅ "LOD R1 -5" = ("00011-0000101", None)
  /\ exists data,
      dataTokenOf "LOD R1 -5" = Some "-5"
      /\ processData "-5" ∅ = (data, None)
      /\ 8 <= String.length data.
Proof.
  assert (H : encode exampleConfig ∅ "LOD R1 -5" = ("00011-0000101", None))
    by (vm_compute; reflexivity).
  split; [exact H|].
  destruct (encoder_success_shape exampleConfig ∅ "LOD R1 -5" _ H)
    as (mnemonic & operands & opcode & dest & data & _ & _ & _ & _ & _ & Hl & Hd & _).
  exists data. change (dataTokenOf "LOD R1 -5") with (Some "-5") in Hd.
  split; [reflexivity|]. split; [exact Hd | exact Hl].
Defined.

Lemma signedValue_no_prefix s v :
  signedValue (digitBelow 10) 10 s = Some v ->
  strings.HasPrefix s "#" = false /\ strings.HasPrefix s "0b" = false.
Proof.
  unfold strings.HasPrefix. destruct s as [|c t]; [done|]. intros Hv. split.
  - change (String.prefix "#" (String c t))
      with (if ascii_dec "#" c then String.prefix "" t else false).
    destruct (ascii_dec "#" c) as [<-|]; [|done]. by vm_compute in Hv.
  - change (String.prefix "0b" (String c t))
      with (if ascii_dec "0" c then String.prefix "b" t else false).
    destruct (ascii_dec "0" c) as [<-|]; [|done].
    destruct t as [|c1 t1]; [done|].
    change (String.prefix "b" (String c1 t1))
      with (if ascii_dec "b" c1 then String.prefix "" t1 else false).
    destruct (ascii_dec "b" c1) as [<-|]; [|done]. by vm_compute in Hv.
Qed.

(** X8: the field of a decimal token depends on its value only: two
    numerals of the same [int] value, with or without leading zeros or a
    plus sign, give the same data field, that of the value. *)
Theorem decimal_value_decides
        (a b : string) (v : Z) (tags : gmap string Z) :
  signedValue (digitBelow 10) 10 a = Some v ->
  signedValue (digitBelow 10) 10 b = Some v ->
  inInt v ->
  processData a tags = (fmt.Sprintf_08b v, None)
  /\ processData b tags = processData a tags.
Proof.
  intros Ha Hb Hv.
  destruct (signedValue_no_prefix a v Ha) as [Ha1 Ha2].
  destruct (signedValue_no_prefix b v Hb) as [Hb1 Hb2].
  rewrite !processData_decimal by done.
  assert (HA : strconv.Atoi a = inl v) by (by apply Atoi_spec).
  assert (HB : strconv.Atoi b = inl v) by (by apply Atoi_spec).
  by rewrite HA, HB.
Qed.

Lemma decimal_value_decides_witness :
  signedValue (digitBelow 10) 10 "+0010" = Some 10%Z
  /\ processData "+0010" ∅ = processData "10" ∅.
Proof.
  assert (Ha : signedValue (digitBelow 10) 10 "10" = Some 10%Z) by reflexivity.
  assert (Hb : signedValue (digitBelow 10) 10 "+0010" = Some 10%Z) by reflexivity.
  assert (Hv : inInt 10) by (unfold inInt; lia).
  split; [exact Hb|].
  exact (proj2 (decimal_value_decides "10" "+0010" 10%Z ∅ Ha Hb Hv)).
Defined.

(** ** From the encoder to the serializer *)

Lemma numeral_acc val base s :
  forall n,
    numeral val base s n
    = (fun v => n * base ^ Z.of_nat (String.length s) + v)%Z
        <$> numeral val base s 0.
Proof.
  induction s as [|c t IH]; intros n; cbn [numeral String.length].
  - cbn. f_equal. change (Z.of_nat 0) with 0%Z. lia.
  - destruct (val c) as [d|]; [|done].
    rewrite (IH (n * base + d)%Z), (IH (0 * base + d)%Z).
    destruct (numeral val base t 0) as [x|]; [|done]. cbn. f_equal.
    rewrite Nat2Z.inj_succ, Z.pow_succ_r by lia. lia.
Qed.

(** X9: the serializer reads an instruction back into its fields: for an
    opcode of binary digits denoting [o], a destination bit [d] and a
    data field of binary digits denoting [v], the instruction (of at most
    63 characters) parses to [(2 o + d) 2^n + v], [n] the width of the
    data field, which is [512 o + 256 d + v] for a field of 8 digits; its
    row is that value in [%04X]. *)
Theorem instruction_value
        (opcode dest data : string) (o v : Z) (rows : list string) :
  numeral (digitBelow 2) 2 opcode 0 = Some o ->
  dest = "0" \/ dest = "1" ->
  numeral (digitBelow 2) 2 data 0 = Some v ->
  String.length (opcode +:+ dest +:+ data) <= 63 ->
  let d := (if String.eqb dest "1" then 1 else 0)%Z in
  let value := ((o * 2 + d) * 2 ^ Z.of_nat (String.length data) + v)%Z in
  strconv.ParseInt (opcode +:+ dest +:+ data) 2 64 = inl value
  /\ hexRows ((opcode +:+ dest +:+ data) :: rows)
     = (fun rest => row value +:+ rest) <$> hexRows rows
  /\ (String.length data = 8 -> value = (o * 512 + d * 256 + v)%Z).
Proof.
  intros Ho Hd Hv Hlen d value.
  assert (Hnum : numeral (digitBelow 2) 2 (opcode +:+ dest +:+ data) 0 = Some value).
  { rewrite numeral_app, Ho, numeral_app.
    assert (Hdest : numeral (digitBelow 2) 2 dest o = Some (o * 2 + d)%Z)
      by (unfold d; destruct Hd as [-> | ->]; cbn; f_equal; lia).
    rewrite Hdest, numeral_acc, Hv. done. }
  assert (Hbit : isBitString (opcode +:+ dest +:+ data) value).
  { split; [|split; [done|]].
    - intros Hempty. apply (f_equal String.length) in Hempty.
      rewrite !slength_app in Hempty. destruct Hd as [-> | ->]; cbn in Hempty; lia.
    - pose proof (numeral_upper_bound 2 _ ltac:(lia) 0%Z value ltac:(lia) Hnum) as Hub.
      assert (2 ^ Z.of_nat (String.length (opcode +:+ dest +:+ data)) <= 2 ^ 63)%Z
        by (apply Z.pow_le_mono_r; lia).
      lia. }
  destruct (isBitString_ParseInt _ _ Hbit) as [HP _].
  split; [exact HP|]. split.
  - cbn [hexRows]. rewrite HP. destruct (hexRows rows) as [rest|]; [|done].
    cbn. unfold row, rowEnd. by rewrite sapp_assoc.
  - intros H8. unfold value. rewrite H8. change (2 ^ Z.of_nat 8)%Z with 256%Z. lia.
Qed.

Lemma instruction_value_witness :
  String.length ("0001" +:+ "1" +:+ "00001010") <= 63
  /\ strconv.ParseInt "0001100001010" 2 64 = inl (1 * 512 + 1 * 256 + 10)%Z.
Proof.
  assert (Hlen : String.length ("0001" +:+ "1" +:+ "00001010") <= 63)
    by (vm_compute; lia).
  split; [exact Hlen|].
  destruct (instruction_value "0001" "1" "00001010" 1 10 []
              ltac:(reflexivity) (or_intror eq_refl) ltac:(reflexivity) Hlen)
    as (HP & _ & _).
  exact HP.
Defined.

Lemma ParseInt_fails_iff instr :
  (exists e, strconv.ParseInt instr 2 64 = inr e) <-> unreadable instr.
Proof.
  unfold unreadable. split.
  - intros [e He] v Hv Hr.
    assert (strconv.ParseInt instr 2 64 = inl v)
      by (apply ParseInt_spec; [lia | by right | done]).
    congruence.
  - intros Hun. destruct (strconv.ParseInt instr 2 64) as [v|e] eqn:HP; [|by eexists].
    apply ParseInt_spec in HP as [Hv Hr]; [|lia | by right].
    by destruct (Hun v Hv).
Qed.

Lemma hexRows_None program :
  hexRows program = None <-> Exists unreadable program.
Proof.
  induction program as [|instr rest IH]; cbn [hexRows].
  - split; [done | by intros H%Exists_nil].
  - rewrite Exists_cons, <- IH, <- ParseInt_fails_iff.
    destruct (strconv.ParseInt instr 2 64) as [v|e].
    + destruct (hexRows rest).
      * split; [done | by intros [[? ?]|?]].
      * split; [by right | done].
    + split; [left; by eexists | done].
Qed.

(** X10: the serializer ends in its [panic] exactly when some instruction
    of the program is no optionally signed numeral of base 2 within the
    64-bit integers; the number of instructions plays no part. *)
Theorem serializer_panics_iff (program : list string) :
  convertToHexAndFormat program = None <-> Exists unreadable program.
Proof.
  unfold convertToHexAndFormat. rewrite <- hexRows_None.
  by destruct (hexRows program).
Qed.

(** ** The orchestrator and [main]: nothing is lost, nothing else is written *)

Lemma encoded_or_fails cfg tags instructions :
  length (omap (encoded cfg tags) instructions)
  + length (List.filter (fails cfg tags) instructions)
  = length instructions.
Proof.
  induction instructions as [|instr rest IH]; [done|].
  cbn [omap list_omap List.filter]. unfold encoded at 1, fails at 1.
  destruct (encode cfg tags instr) as [out [e|]]; cbn [length]; lia.
Qed.

Lemma reports_errors cfg tags instructions :
  forall line,
    length (List.filter isOutError (reports cfg tags line instructions))
    = length (List.filter (fails cfg tags) instructions).
Proof.
  induction instructions as [|instr rest IH]; intros line; [done|].
  cbn [reports List.filter]. rewrite List.filter_app, length_app, IH.
  unfold report, fails at 2.
  destruct (encode cfg tags instr) as [out [e|]] eqn:E; [done|].
  by destruct (traceOf_success cfg tags instr line out E) as [pretty ->].
Qed.

(** X11: the orchestrator loses no line: the number of encodings in the
    output program and the number of error reports it prints add up to
    the number of instruction lines; and on a flag that was clear, the
    flag stays clear exactly when every line has its encoding in the
    program. *)
Theorem every_line_encoded_or_reported
        (cfg : config) (instructions : list string) (tags : gmap string Z)
        (w : world) :
  let program := (assembleProgram cfg instructions tags w).1 in
  let w' := (assembleProgram cfg instructions tags w).2 in
  length program
  + (length (List.filter isOutError (stdout w'))
     - length (List.filter isOutError (stdout w)))
  = length instructions
  /\ length (List.filter isOutError (stdout w'))
     = length (List.filter isOutError (stdout w))
       + length (List.filter (fails cfg tags) instructions)
  /\ (hadError w = false ->
      (hadError w' = false <-> length program = length instructions))
  /\ (hadError w = true -> hadError w' = true).
Proof.
  intros program w'. unfold program, w'. rewrite assembleProgram_run.
  cbn [fst snd stdout hadError].
  pose proof (encoded_or_fails cfg tags instructions) as Hsum.
  assert (Herr : length (List.filter isOutError
                   (stdout w ++ [OutHeader] ++ reports cfg tags 0%Z instructions
                             ++ [OutFooter]))
                 = length (List.filter isOutError (stdout w))
                   + length (List.filter (fails cfg tags) instructions)).
  { rewrite !List.filter_app, !length_app, reports_errors. cbn. lia. }
  split; [lia|]. split; [exact Herr|]. split.
  - intros ->. cbn [orb]. split.
    + intros Hnone.
      assert (Hf : List.filter (fails cfg tags) instructions = []).
      { clear -Hnone. induction instructions as [|i rest IH]; [done|].
        cbn in *. destruct (fails cfg tags i); [done|]. by apply IH. }
      rewrite Hf in Hsum. cbn in Hsum. lia.
    + intros Hall.
      assert (Hf : length (List.filter (fails cfg tags) instructions) = 0) by lia.
      clear -Hf. induction instructions as [|i rest IH]; [done|].
      cbn in *. destruct (fails cfg tags i); [done|]. by apply IH.
  - by intros ->.
Qed.

Lemma every_line_encoded_or_reported_witness :
  hadError world0 = false
  /\ length (assembleProgram exampleConfig faultyProgram ∅ world0).1
     <> length faultyProgram
  /\ hadError (assembleProgram exampleConfig faultyProgram ∅ world0).2 = true.
Proof.
  assert (H0 : hadError world0 = false) by reflexivity.
  destruct (every_line_encoded_or_reported exampleConfig faultyProgram ∅ world0)
    as (_ & _ & Hflag & _).
  assert (Hlen : length (assembleProgram exampleConfig faultyProgram ∅ world0).1
                 <> length faultyProgram) by (vm_compute; lia).
  split; [exact H0|]. split; [exact Hlen|].
  destruct (hadError (assembleProgram exampleConfig faultyProgram ∅ world0).2) eqn:E;
    [reflexivity|].
  exfalso. apply Hlen. apply (Hflag H0). reflexivity.
Defined.

Lemma stake_sdrop n s : stake n s +:+ sdrop n s = s.
Proof.
  revert s. induction n as [|n IH]; intros [|c s]; try done.
  cbn [stake sdrop]. change (String c ?a +:+ ?b) with (String c (a +:+ b)).
  by rewrite IH.
Qed.

Lemma HasSuffix_inv s suffix :
  strings.HasSuffix s suffix = true ->
  s = stake (String.length s - String.length suffix) s +:+ suffix.
Proof.
  unfold strings.HasSuffix. intros [_ H]%andb_true_iff.
  apply String.eqb_eq in H.
  transitivity (stake (String.length s - String.length suffix) s
                +:+ sdrop (String.length s - String.length suffix) s).
  - symmetry. apply stake_sdrop.
  - by rewrite H.
Qed.

Lemma sapp_inj_l a b c : a +:+ b = a +:+ c -> b = c.
Proof.
  induction a as [|x a IH]; [done|].
  change (String x a +:+ ?y) with (String x (a +:+ y)). intros [= H]. by apply IH.
Qed.

(** The hex file is never the source file. *)
Lemma hexFilenameOf_other filename : hexFilenameOf filename <> filename.
Proof.
  unfold hexFilenameOf, strings.TrimSuffix.
  destruct (strings.HasSuffix filename ".asm") eqn:Hs.
  - pose proof (HasSuffix_inv _ _ Hs) as Hd. intros Heq.
    assert (Hboth : stake (String.length filename - String.length ".asm") filename
                    +:+ ".hex"
                    = stake (String.length filename - String.length ".asm") filename
                      +:+ ".asm") by congruence.
    by apply sapp_inj_l in Hboth.
  - intros Heq. apply (f_equal String.length) in Heq.
    rewrite slength_app in Heq. cbn in Heq. lia.
Qed.

(** X12: what [main] may do to the files: it writes nothing when it reads
    standard input, when a line failed or when the write is refused, and
    otherwise exactly one file, the hex image, under the name of the
    source with [.asm] cut off and [.hex] put on; that name is never the
    name of the source, so the source is never overwritten. *)
Theorem main_writes_only_the_hex_file
        (cfg : config) (useFile : bool) (filename : string) (writeOk : bool)
        (lines : list string) (w w2 : world) :
  main cfg useFile filename writeOk lines w = Some w2 ->
  let program := (assembleProgram cfg (parse lines).1 (parse lines).2 w).1 in
  let w' := (assembleProgram cfg (parse lines).1 (parse lines).2 w).2 in
  hexFilenameOf filename <> filename
  /\ (strings.HasSuffix filename ".asm" = true ->
      exists stem, filename = stem +:+ ".asm"
                   /\ hexFilenameOf filename = stem +:+ ".hex")
  /\ hadError w2 = hadError w'
  /\ ((useFile = false \/ hadError w' = true \/ writeOk = false) ->
      files w2 = files w)
  /\ (useFile = true -> hadError w' = false -> writeOk = true ->
      exists image,
        convertToHexAndFormat program = Some image
        /\ files w2 = files w ++ [(hexFilenameOf filename, image)]).
Proof.
  intros Hmain program w'.
  split; [apply hexFilenameOf_other|]. split.
  { intros Hs. exists (stake (String.length filename - 4) filename).
    unfold hexFilenameOf, strings.TrimSuffix. rewrite Hs.
    split; [by apply HasSuffix_inv in Hs | done]. }
  assert (Hfiles : files w' = files w).
  { unfold w'. by rewrite assembleProgram_run. }
  unfold main in Hmain. unfold program, w' in *.
  destruct (parse lines) as [instructions tags]. cbn [fst snd] in *.
  destruct (assembleProgram cfg instructions tags w) as [prog w1]. cbn [fst snd] in *.
  destruct (hadError w1) eqn:Hflag.
  { injection Hmain as <-. repeat split; try done. }
  destruct (convertToHexAndFormat prog) as [hex|]; [|done].
  fold (hexFilenameOf filename) in Hmain.
  destruct useFile.
  - unfold WriteFile in Hmain. destruct writeOk.
    + injection Hmain as <-. cbn. split; [done|]. split.
      * intros [?|[?|?]]; done.
      * intros _ _ _. exists hex. by rewrite Hfiles.
    + injection Hmain as <-. cbn. split; [done|]. split; [done|]. done.
  - injection Hmain as <-. cbn. split; [done|]. split; [done|]. done.
Qed.

Lemma main_writes_only_the_hex_file_witness :
  exists w2,
    main exampleConfig true "prog.asm" true readmeProgram world0 = Some w2
    /\ map fst (files w2) = ["prog.hex"].
Proof.
  destruct (main exampleConfig true "prog.asm" true readmeProgram world0)
    as [w2|] eqn:Hmain; [|by vm_compute in Hmain].
  exists w2. split; [reflexivity|].
  destruct (main_writes_only_the_hex_file exampleConfig true "prog.asm" true
              readmeProgram world0 w2 Hmain) as (_ & _ & _ & _ & Hw).
  destruct (Hw eq_refl) as (image & _ & Hf); [vm_compute; reflexivity | reflexivity|].
  rewrite Hf. reflexivity.
Defined.


(** ** Reading the source *)

Lemma rev_app_length a b :
  String.length (String.rev_app a b) = String.length a + String.length b.
Proof.
  revert b. induction a as [|x a IH]; intros b; [done|].
  cbn [String.rev_app]. rewrite IH. cbn [String.length]. lia.
Qed.

Lemma rev_app_rev_app a b c :
  String.rev_app (String.rev_app a b) c = String.rev_app b (a +:+ c).
Proof.
  revert b c. induction a as [|x a IH]; intros b c; [done|].
  cbn [String.rev_app]. by rewrite IH.
Qed.

Lemma rev_rev_app l : String.rev (String.rev_app l "") = l.
Proof.
  unfold String.rev. rewrite rev_app_rev_app. cbn [String.rev_app].
  apply sapp_nil_r.
Qed.

(** The scanner on a line: it takes the bytes up to the newline. *)
Lemma scanFrom_line l :
  noNewline l = true ->
  forall rest rline,
    bufio.scanFrom (l +:+ rest) rline
    = bufio.scanFrom rest (String.rev_app l rline).
Proof.
  induction l as [|c l IH]; intros Hl rest rline; [done|].
  cbn [noNewline] in Hl. apply andb_true_iff in Hl as [Hc Hl].
  apply negb_true_iff in Hc.
  change (String c l +:+ rest) with (String c (l +:+ rest)).
  cbn [bufio.scanFrom String.rev_app]. rewrite Hc. by apply IH.
Qed.

Lemma scanFrom_whole_line l rest :
  noNewline l = true ->
  bufio.scanFrom (l +:+ String "010" rest) ""
  = if fitsBuffer l then
      let '(tokens, tooLong) := bufio.scanFrom rest "" in
      (bufio.dropCR l :: tokens, tooLong)
    else ([], true).
Proof.
  intros Hl. rewrite scanFrom_line by done. cbn [bufio.scanFrom].
  change (Ascii.eqb "010" "010") with true. cbv iota.
  unfold fitsBuffer. rewrite rev_app_length, Nat.add_0_r.
  destruct (Nat.leb_spec bufio.MaxScanTokenSize (String.length l)) as [Hlong|Hfit].
  - by destruct (Nat.ltb_spec (String.length l) bufio.MaxScanTokenSize); [lia|].
  - destruct (Nat.ltb_spec (String.length l) bufio.MaxScanTokenSize); [|lia].
    by rewrite rev_rev_app.
Qed.

Lemma scanFrom_last_line l :
  noNewline l = true -> l <> "" ->
  bufio.scanFrom l ""
  = if fitsBuffer l then ([bufio.dropCR l], false) else ([], true).
Proof.
  intros Hl Hne. rewrite <- (sapp_nil_r l) at 1. rewrite scanFrom_line by done.
  cbn [bufio.scanFrom].
  destruct (String.rev_app l "") as [|c r] eqn:Hr.
  { apply (f_equal String.length) in Hr. rewrite rev_app_length in Hr.
    destruct l; [done | cbn in Hr; lia]. }
  rewrite <- Hr. unfold fitsBuffer. rewrite rev_app_length, Nat.add_0_r.
  destruct (Nat.leb_spec bufio.MaxScanTokenSize (String.length l)) as [Hlong|Hfit].
  - by destruct (Nat.ltb_spec (String.length l) bufio.MaxScanTokenSize); [lia|].
  - destruct (Nat.ltb_spec (String.length l) bufio.MaxScanTokenSize); [|lia].
    by rewrite rev_rev_app.
Qed.

Lemma scanFrom_unlines lines :
  Forall (fun l => noNewline l = true) lines ->
  bufio.scanFrom (unlines lines) "" = scannedOf lines.
Proof.
  induction 1 as [|l ls Hl _ IH]; [done|].
  cbn [unlines scannedOf]. rewrite scanFrom_whole_line by done. by rewrite IH.
Qed.

(** X14: the scanner gives a text file back line by line: for lines with
    a newline after each it yields every line, without one final carriage
    return, up to the first line of [MaxScanTokenSize] (65536) bytes or
    more, where it stops with its error; and the newline after the last
    line is optional when that line is not empty. *)
Theorem scanner_yields_the_lines (lines : list string) (last : string) :
  Forall (fun l => noNewline l = true) lines ->
  noNewline last = true ->
  bufio.ScanLines (unlines lines) = scannedOf lines
  /\ (last <> "" ->
      bufio.ScanLines (unlines lines +:+ last)
      = bufio.ScanLines (unlines (lines ++ [last]))).
Proof.
  intros Hlines Hlast. unfold bufio.ScanLines.
  split; [by apply scanFrom_unlines|]. intros Hne.
  rewrite (scanFrom_unlines (lines ++ [last]))
    by (apply Forall_app; split; [done | by constructor]).
  induction Hlines as [|l ls Hl _ IH].
  - cbn [unlines app scannedOf].
    change ("" +:+ last) with last. rewrite scanFrom_last_line by done.
    by destruct (fitsBuffer last).
  - cbn [unlines app scannedOf].
    change ((l +:+ String "010" (unlines ls)) +:+ last)
      with ((l +:+ String "010" (unlines ls)) +:+ last).
    rewrite sapp_assoc.
    change (String "010" (unlines ls) +:+ last)
      with (String "010" (unlines ls +:+ last)).
    rewrite scanFrom_whole_line by done. by rewrite IH.
Qed.

Lemma scanner_yields_the_lines_witness :
  bufio.ScanLines ("LOD R0 10" +:+ String "013" (String "010" "BRN #end"))
  = (["LOD R0 10"; "BRN #end"], false).
Proof.
  destruct (scanner_yields_the_lines ["LOD R0 10" +:+ String "013" ""] "BRN #end")
    as [_ H]; [by repeat constructor | reflexivity|].
  etransitivity; [exact (H ltac:(done))|]. vm_compute. reflexivity.
Defined.

(** ** White space at the end of a line *)

Lemma stake_app_le n s x :
  n <= String.length s -> stake n (s +:+ x) = stake n s.
Proof.
  revert s. induction n as [|n IH]; intros [|c s] Hn; try done.
  - cbn in Hn. lia.
  - change (String c s +:+ x) with (String c (s +:+ x)). cbn [stake].
    rewrite IH; [done|]. cbn in Hn. lia.
Qed.

Lemma sdrop_app_le n s x :
  n <= String.length s -> sdrop n (s +:+ x) = sdrop n s +:+ x.
Proof.
  revert s. induction n as [|n IH]; intros [|c s] Hn; try done.
  - cbn in Hn. lia.
  - change (String c s +:+ x) with (String c (s +:+ x)). cbn [sdrop].
    apply IH. cbn in Hn. lia.
Qed.

Lemma get_app_lt n s x :
  n < String.length s -> String.get n (s +:+ x) = String.get n s.
Proof.
  revert n. induction s as [|c s IH]; intros n Hn; [cbn in Hn; lia|].
  change (String c s +:+ x) with (String c (s +:+ x)).
  destruct n as [|n]; [done|]. cbn [String.get]. apply IH. cbn in Hn. lia.
Qed.

Lemma get_app_end s c : String.get (String.length s) (s +:+ String c "") = Some c.
Proof.
  induction s as [|c' s IH]; [done|].
  change (String c' s +:+ String c "") with (String c' (s +:+ String c "")).
  cbn [String.length String.get]. exact IH.
Qed.

Lemma get_lt_Some n s : n < String.length s -> exists c, String.get n s = Some c.
Proof.
  revert n. induction s as [|c s IH]; intros n Hn; [cbn in Hn; lia|].
  destruct n as [|n]; [by eexists|]. cbn [String.get]. apply IH. cbn in Hn. lia.
Qed.

Lemma stake_all s : stake (String.length s) s = s.
Proof. induction s as [|c s IH]; [done|]. cbn. by rewrite IH. Qed.

Lemma first_lo b sz lo hi :
  utf8.first b = utf8.isLead sz lo hi -> (0x80 <= lo)%N.
Proof.
  unfold utf8.first. case_ifs; intros H; inversion H; lia.
Qed.

Lemma sapp_cons c s y : String c s +:+ y = String c (s +:+ y).
Proof. reflexivity. Qed.

Lemma sapp_nil_l y : "" +:+ y = y.
Proof. reflexivity. Qed.

(** A rune takes no more bytes than the string has. *)
Lemma DecodeRuneInString_size_le s :
  (utf8.DecodeRuneInString s).2 <= String.length s.
Proof.
  unfold utf8.DecodeRuneInString. destruct s as [|c0 t0]; [done|].
  destruct (utf8.first (byte c0)) as [| |sz lo hi] eqn:Hf; cbn; try lia.
  destruct (first_size _ _ _ _ Hf) as [-> | [-> | ->]];
    destruct t0 as [|c1 [|c2 [|c3 t3]]]; cbn; case_ifs; cbn; lia.
Qed.

(** An ASCII byte put after a string does not change its first rune. *)
Lemma DecodeRuneInString_snoc s x :
  s <> "" -> (byte x < utf8.RuneSelf)%N ->
  utf8.DecodeRuneInString (s +:+ String x "") = utf8.DecodeRuneInString s.
Proof.
  intros Hs Hx. destruct s as [|c0 t0]; [done|].
  change (String c0 t0 +:+ String x "") with (String c0 (t0 +:+ String x "")).
  unfold utf8.DecodeRuneInString.
  destruct (utf8.first (byte c0)) as [| |sz lo hi] eqn:Hf; try done.
  pose proof (first_lo _ _ _ _ Hf) as Hlo. unfold utf8.RuneSelf in Hx.
  assert (Hx1 : ((byte x <? lo) || (hi <? byte x))%N = true).
  { apply orb_true_iff. left. apply N.ltb_lt. lia. }
  assert (Hx2 : utf8.notContinuation (byte x) = true).
  { unfold utf8.notContinuation. apply orb_true_iff. left. apply N.ltb_lt. lia. }
  destruct (first_size _ _ _ _ Hf) as [-> | [-> | ->]];
    destruct t0 as [|c1 [|c2 [|c3 t3]]];
    repeat rewrite sapp_cons; rewrite ?sapp_nil_l; cbn;
    rewrite ?Hx1, ?Hx2; case_ifs; try done.
Qed.

Lemma DecodeRuneInString_ascii c t :
  (byte c < utf8.RuneSelf)%N -> utf8.DecodeRuneInString (String c t) = (byte c, 1).
Proof.
  intros Hc. unfold utf8.DecodeRuneInString. by rewrite (first_ascii _ Hc).
Qed.

Lemma indexFuncFrom_bound f truth fuel :
  forall s i j,
    strings.indexFuncFrom f truth fuel s i = Some j ->
    i <= j < i + String.length s.
Proof.
  induction fuel as [|fuel IH]; intros s i j; [done|].
  rewrite indexFuncFrom_S. destruct s as [|c t]; [done|].
  pose proof (DecodeRuneInString_size c t) as H1.
  pose proof (DecodeRuneInString_size_le (String c t)) as H2.
  destruct (utf8.DecodeRuneInString (String c t)) as [r size]. cbn [snd] in *.
  destruct (Bool.eqb (f r) truth).
  - intros [= <-]. cbn [String.length]. lia.
  - intros H. apply IH in H. rewrite sdrop_length in H. lia.
Qed.

Lemma indexFuncFrom_snoc x fuel :
  (byte x < utf8.RuneSelf)%N -> unicode.IsSpace (byte x) = true ->
  forall s i,
    String.length s <= fuel ->
    strings.indexFuncFrom unicode.IsSpace false (S fuel) (s +:+ String x "") i
    = strings.indexFuncFrom unicode.IsSpace false fuel s i.
Proof.
  intros Hx Hsp.
  assert (Hnil : forall k i,
             strings.indexFuncFrom unicode.IsSpace false (S k) (String x "") i
             = strings.indexFuncFrom unicode.IsSpace false k "" i).
  { intros k i. rewrite indexFuncFrom_S, (DecodeRuneInString_ascii _ _ Hx), Hsp.
    cbn [Bool.eqb sdrop]. by destruct k. }
  induction fuel as [|fuel IH]; intros s i Hlen.
  - destruct s; [|cbn in Hlen; lia]. apply Hnil.
  - destruct s as [|c t].
    + apply Hnil.
    + rewrite (indexFuncFrom_S _ _ (S fuel)), (indexFuncFrom_S _ _ fuel).
      change (String c t +:+ String x "") with (String c (t +:+ String x "")).
      change (String c (t +:+ String x "")) with (String c t +:+ String x "").
      rewrite DecodeRuneInString_snoc by done.
      change (String c t +:+ String x "") with (String c (t +:+ String x "")).
      pose proof (DecodeRuneInString_size c t) as H1.
      pose proof (DecodeRuneInString_size_le (String c t)) as H2.
      destruct (utf8.DecodeRuneInString (String c t)) as [r size]. cbn [snd] in *.
      destruct (Bool.eqb (unicode.IsSpace r) false); [done|].
      change (String c (t +:+ String x "")) with (String c t +:+ String x "").
      rewrite sdrop_app_le by done. apply IH.
      rewrite sdrop_length. cbn [String.length] in *. lia.
Qed.

Lemma lastIndexFuncFrom_prefix f truth s y fuel :
  forall i, i <= String.length s ->
    strings.lastIndexFuncFrom f truth fuel (s +:+ y) i
    = strings.lastIndexFuncFrom f truth fuel s i.
Proof.
  induction fuel as [|fuel IH]; intros i Hi; [done|].
  rewrite !lastIndexFuncFrom_S. destruct i as [|i]; [done|].
  rewrite stake_app_le by done.
  destruct (utf8.DecodeLastRuneInString (stake (S i) s)) as [r size].
  destruct (Bool.eqb (f r) truth); [done|]. apply IH. lia.
Qed.

Lemma lastIndexFuncFrom_bound f truth s fuel :
  forall i j, i <= String.length s ->
    strings.lastIndexFuncFrom f truth fuel s i = Some j -> j < i.
Proof.
  induction fuel as [|fuel IH]; intros i j Hi; [done|].
  rewrite lastIndexFuncFrom_S. destruct i as [|i]; [done|].
  assert (Hne : stake (S i) s <> "").
  { destruct s; [cbn in Hi; lia | done]. }
  pose proof (DecodeLastRuneInString_size _ Hne) as Hsize.
  destruct (utf8.DecodeLastRuneInString (stake (S i) s)) as [r size].
  cbn [snd] in Hsize. destruct (Bool.eqb (f r) truth).
  - intros [= <-]. lia.
  - intros H. apply IH in H; lia.
Qed.

Lemma DecodeLastRuneInString_ascii s x :
  (byte x < utf8.RuneSelf)%N ->
  utf8.DecodeLastRuneInString (s +:+ String x "") = (byte x, 1).
Proof.
  intros Hx. unfold utf8.DecodeLastRuneInString.
  rewrite slength_app. cbn [String.length].
  replace (String.length s + 1) with (S (String.length s)) by lia.
  rewrite get_app_end. by destruct (N.ltb_spec (byte x) utf8.RuneSelf); [|lia].
Qed.

Lemma TrimRightFunc_snoc u x :
  (byte x < utf8.RuneSelf)%N -> unicode.IsSpace (byte x) = true ->
  strings.TrimRightFunc (u +:+ String x "") unicode.IsSpace
  = strings.TrimRightFunc u unicode.IsSpace.
Proof.
  intros Hx Hsp. unfold strings.TrimRightFunc.
  assert (Hlast : strings.lastIndexFunc (u +:+ String x "") unicode.IsSpace false
                  = strings.lastIndexFunc u unicode.IsSpace false).
  { unfold strings.lastIndexFunc. rewrite slength_app. cbn [String.length].
    replace (String.length u + 1) with (S (String.length u)) by lia.
    rewrite lastIndexFuncFrom_S.
    replace (stake (S (String.length u)) (u +:+ String x ""))
      with (u +:+ String x "").
    2:{ rewrite <- (stake_all (u +:+ String x "")) at 1.
        rewrite slength_app. cbn [String.length]. f_equal. lia. }
    rewrite DecodeLastRuneInString_ascii by done. rewrite Hsp. cbn [Bool.eqb].
    replace (S (String.length u) - 1) with (String.length u) by lia.
    by apply lastIndexFuncFrom_prefix. }
  rewrite Hlast.
  destruct (strings.lastIndexFunc u unicode.IsSpace false) as [i|] eqn:Hi; [|done].
  apply lastIndexFuncFrom_bound in Hi; [|done].
  rewrite get_app_lt by done.
  destruct (get_lt_Some i u Hi) as [c ->].
  destruct (utf8.RuneSelf <=? byte c)%N.
  - rewrite sdrop_app_le by lia.
    rewrite DecodeRuneInString_snoc; [|intros Hempty|done].
    2:{ apply (f_equal String.length) in Hempty. rewrite sdrop_length in Hempty.
        cbn in Hempty. lia. }
    pose proof (DecodeRuneInString_size_le (sdrop i u)) as Hw.
    rewrite sdrop_length in Hw. apply stake_app_le. lia.
  - apply stake_app_le. lia.
Qed.

Lemma trimSpaceStop_prefix_indep s y :
  forall stop, stop <= String.length s ->
    strings.trimSpaceStop (s +:+ y) stop = strings.trimSpaceStop s stop.
Proof.
  induction stop as [|stop IH]; intros Hstop; [done|].
  cbn [strings.trimSpaceStop]. rewrite get_app_lt by lia.
  rewrite (stake_app_le (S stop)) by done.
  destruct (String.get stop s) as [c|]; [|done].
  destruct (utf8.RuneSelf <=? byte c)%N; [done|].
  destruct (strings.asciiSpace (byte c)); [apply IH; lia | done].
Qed.

Lemma asciiSpace_ascii b : strings.asciiSpace b = true -> (b < utf8.RuneSelf)%N.
Proof.
  unfold strings.asciiSpace, utf8.RuneSelf.
  intros [[_ H]%andb_true_iff | H]%orb_true_iff.
  - apply N.leb_le in H. lia.
  - apply N.eqb_eq in H. lia.
Qed.

(** One byte of ASCII white space at the end is trimmed away. *)
Lemma TrimSpace_snoc s x :
  strings.asciiSpace (byte x) = true ->
  strings.TrimSpace (s +:+ String x "") = strings.TrimSpace s.
Proof.
  intros Hsp. pose proof (asciiSpace_ascii _ Hsp) as Hx.
  assert (Hun : unicode.IsSpace (byte x) = true) by (by rewrite IsSpace_ascii).
  assert (Hlt : (utf8.RuneSelf <=? byte x)%N = false) by (apply N.leb_gt; lia).
  induction s as [|c t IH].
  - rewrite sapp_nil_l. cbn [strings.TrimSpace]. by rewrite Hlt, Hsp.
  - change (String c t +:+ String x "") with (String c (t +:+ String x "")).
    cbn [strings.TrimSpace].
    destruct (utf8.RuneSelf <=? byte c)%N.
    + change (String c (t +:+ String x "")) with (String c t +:+ String x "").
      unfold strings.TrimFunc, strings.TrimLeftFunc, strings.indexFunc.
      rewrite slength_app. cbn [String.length].
      replace (S (String.length t) + 1) with (S (S (String.length t))) by lia.
      rewrite (indexFuncFrom_snoc x (S (String.length t)) Hx Hun) by (cbn; lia).
      destruct (strings.indexFuncFrom unicode.IsSpace false (S (String.length t))
                                      (String c t) 0) as [i|] eqn:Hi; [|done].
      apply indexFuncFrom_bound in Hi.
      rewrite sdrop_app_le by (cbn [String.length] in *; lia).
      by apply TrimRightFunc_snoc.
    + destruct (strings.asciiSpace (byte c)); [exact IH|].
      change (String c (t +:+ String x "")) with (String c t +:+ String x "").
      rewrite slength_app. cbn [String.length].
      replace (S (String.length t) + 1) with (S (String.length (String c t)))
        by (cbn; lia).
      cbn [strings.trimSpaceStop]. rewrite get_app_end, Hlt, Hsp.
      by apply trimSpaceStop_prefix_indep.
Qed.




Lemma sdrop_last l n c :
  String.length l = S n -> String.get n l = Some c -> sdrop n l = String c "".
Proof.
  revert n. induction l as [|x l IH]; intros n Hlen Hget; [done|].
  destruct n as [|n].
  - cbn in *. injection Hget as ->. by destruct l.
  - cbn in *. apply IH; [lia | done].
Qed.

Lemma TrimSpace_dropCR l : strings.TrimSpace (bufio.dropCR l) = strings.TrimSpace l.
Proof.
  unfold bufio.dropCR. destruct (String.length l) as [|n] eqn:Hlen; [done|].
  destruct (String.get n l) as [c|] eqn:Hget; [|done].
  destruct (Ascii.eqb_spec c "013") as [->|]; [|done].
  rewrite <- (stake_sdrop n l) at 2. rewrite (sdrop_last l n "013") by done.
  symmetry. by apply TrimSpace_snoc.
Qed.

Lemma dropCR_withCR l : bufio.dropCR (withCR l) = l.
Proof.
  unfold bufio.dropCR, withCR. rewrite slength_app. cbn [String.length].
  replace (String.length l + 1) with (S (String.length l)) by lia.
  rewrite get_app_end. change (Ascii.eqb "013" "013") with true. cbv iota.
  rewrite stake_app_le by done. apply stake_all.
Qed.

Lemma parseLoop_ext a :
  forall b st,
    map strings.TrimSpace a = map strings.TrimSpace b ->
    parseLoop a st = parseLoop b st.
Proof.
  induction a as [|x a IH]; intros [|y b] st Heq; try done.
  cbn [map] in Heq. injection Heq as Hxy Heq. cbn [parseLoop].
  assert (Hline : parseLine x st = parseLine y st).
  { destruct st as [[tags instructions] n]. unfold parseLine. by rewrite Hxy. }
  rewrite Hline. by apply IH.
Qed.

Lemma noNewline_withCR l : noNewline l = true -> noNewline (withCR l) = true.
Proof.
  unfold withCR. induction l as [|c l IH]; [done|].
  rewrite sapp_cons. cbn [noNewline]. intros [Hc Hl]%andb_true_iff.
  rewrite Hc. cbn [andb]. by apply IH.
Qed.

Lemma scannedOf_fit lines :
  Forall (fun l => fitsBuffer l = true) lines ->
  scannedOf lines = (map bufio.dropCR lines, false).
Proof.
  induction 1 as [|l ls Hl _ IH]; [done|]. cbn [scannedOf map]. by rewrite Hl, IH.
Qed.

Lemma scannedOf_tooLong lines :
  (scannedOf lines).2 = true <-> Exists (fun l => fitsBuffer l = false) lines.
Proof.
  induction lines as [|l ls IH]; cbn [scannedOf].
  - split; [done | by intros H%Exists_nil].
  - rewrite Exists_cons, <- IH. destruct (fitsBuffer l).
    + destruct (scannedOf ls) as [tokens tooLong]. cbn. split; [by right|].
      by intros [?|?].
    + cbn. split; [by left | done].
Qed.

(** X16: [parse] on a text file: it panics exactly when some line has
    65536 bytes or more; otherwise it returns what the lines give, and a
    file with CR LF line ends gives what the file with LF line ends
    gives. *)
Theorem source_files_and_line_ends (lines : list string) :
  Forall (fun l => noNewline l = true) lines ->
  (parseReader (unlines lines) = None
   <-> Exists (fun l => fitsBuffer l = false) lines)
  /\ (Forall (fun l => fitsBuffer l = true) lines ->
      parseReader (unlines lines) = Some (parse lines))
  /\ (Forall (fun l => fitsBuffer (withCR l) = true) lines ->
      parseReader (unlines (map withCR lines)) = Some (parse lines)).
Proof.
  intros Hlines. unfold parseReader, bufio.ScanLines.
  pose proof (scanFrom_unlines lines Hlines) as Hscan.
  assert (Htrim : forall ls, parse (map bufio.dropCR ls) = parse ls).
  { intros ls. unfold parse. rewrite (parseLoop_ext (map bufio.dropCR ls) ls); [done|].
    rewrite map_map. apply map_ext. intros l. apply TrimSpace_dropCR. }
  split; [|split].
  - rewrite Hscan, <- scannedOf_tooLong.
    destruct (scannedOf lines) as [tokens [|]]; by split.
  - intros Hfit. rewrite Hscan, scannedOf_fit by done. by rewrite Htrim.
  - intros Hfit.
    assert (Hcr : bufio.scanFrom (unlines (map withCR lines)) ""
                  = scannedOf (map withCR lines)).
    { apply scanFrom_unlines, Forall_fmap. eapply Forall_impl; [exact Hlines|].
      intros l Hl. by apply noNewline_withCR. }
    rewrite Hcr, scannedOf_fit by (by apply Forall_fmap).
    rewrite Htrim. unfold parse.
    rewrite (parseLoop_ext (map withCR lines) lines); [done|].
    rewrite map_map. apply map_ext. intros l. unfold withCR. by apply TrimSpace_snoc.
Qed.

Lemma source_files_and_line_ends_witness :
  Forall (fun l => noNewline l = true) ["#loop"; "BRN #loop"]
  /\ parseReader (unlines (map withCR ["#loop"; "BRN #loop"]))
     = Some (parse ["#loop"; "BRN #loop"]).
Proof.
  assert (H : Forall (fun l => noNewline l = true) ["#loop"; "BRN #loop"])
    by (by repeat constructor).
  split; [exact H|].
  destruct (source_files_and_line_ends ["#loop"; "BRN #loop"] H) as (_ & _ & Hcr).
  apply Hcr. repeat constructor; vm_compute; reflexivity.
Defined.

(** ** [main] from its start *)

Lemma main_files cfg useFile filename writeOk lines w w2 :
  main cfg useFile filename writeOk lines w = Some w2 ->
  files w2 = files w
  \/ (useFile = true
      /\ exists image, files w2 = files w ++ [(hexFilenameOf filename, image)]).
Proof.
  unfold main. destruct (parse lines) as [instructions tags].
  rewrite assembleProgram_run. cbn [hadError].
  destruct (hadError w || existsb (fails cfg tags) instructions).
  { intros [= <-]. by left. }
  destruct (convertToHexAndFormat _) as [hex|]; [|done].
  fold (hexFilenameOf filename). destruct useFile.
  - unfold WriteFile. destruct writeOk; intros [= <-]; cbn.
    + right. split; [done|]. by exists hex.
    + by left.
  - intros [= <-]. by left.
Qed.

(** X17: a run that [main] brings to its end had its configuration and
    one or two arguments; with one argument, the source came from
    standard input and no file was written; with two, the second ends in
    [.asm], [os.Open] found it, and the only file that may have been
    written bears its name with [.hex] in the place of [.asm]. *)
Theorem runs_that_end
        (loadConfig : option config) (args : list string) (stdin : string)
        (openFile : string -> option string) (writeOk : bool) (w : world) :
  mainFromArgs loadConfig args stdin openFile writeOk = ExitDone w ->
  is_Some loadConfig
  /\ ((exists prog, args = [prog] /\ files w = [])
      \/ (exists prog stem source,
            args = [prog; stem +:+ ".asm"]
            /\ openFile (stem +:+ ".asm") = Some source
            /\ (files w = []
                \/ exists image, files w = [(stem +:+ ".hex", image)]))).
Proof.
  unfold mainFromArgs. destruct loadConfig as [cfg|]; [|done].
  intros Hrun. split; [by eexists|].
  assert (Hsrc : forall useFile filename source,
             runSource cfg useFile filename writeOk source = ExitDone w ->
             files w = []
             \/ (useFile = true
                 /\ exists image, files w = [(hexFilenameOf filename, image)])).
  { intros useFile filename source. unfold runSource.
    destruct (bufio.ScanLines source) as [lines [|]]; [done|].
    destruct (main cfg useFile filename writeOk lines world0) as [w2|] eqn:Hm; [|done].
    intros [= ->]. by apply main_files in Hm. }
  destruct args as [|prog [|filename [|third rest]]]; try done.
  - left. exists prog. split; [done|].
    apply Hsrc in Hrun as [Hf|[Hu _]]; done.
  - right. destruct (strings.HasSuffix filename ".asm") eqn:Hs; [|done].
    cbn [negb] in Hrun.
    destruct (openFile filename) as [source|] eqn:Ho; [|done].
    exists prog, (stake (String.length filename - String.length ".asm") filename), source.
    pose proof (HasSuffix_inv _ _ Hs) as Hname. rewrite <- Hname.
    split; [done|]. split; [done|].
    apply Hsrc in Hrun as [Hf|[_ [image Hf]]]; [by left|]. right. exists image.
    rewrite Hf. unfold hexFilenameOf, strings.TrimSuffix. by rewrite Hs.
Qed.

Lemma runs_that_end_witness :
  exists w,
    mainFromArgs (Some exampleConfig) ["lasm"; "prog.asm"] "" exampleFiles true
    = ExitDone w
    /\ is_Some (Some exampleConfig)
    /\ ((exists prog, ["lasm"; "prog.asm"] = [prog] /\ files w = [])
        \/ (exists prog stem source,
              ["lasm"; "prog.asm"] = [prog; stem +:+ ".asm"]
              /\ exampleFiles (stem +:+ ".asm") = Some source
              /\ (files w = []
                  \/ exists image, files w = [(stem +:+ ".hex", image)]))).
Proof.
  eexists. split; [vm_compute; reflexivity|].
  apply (runs_that_end (Some exampleConfig) ["lasm"; "prog.asm"] ""
                       exampleFiles true).
  vm_compute. reflexivity.
Defined.

(** ** Tokens hold no white space *)

Lemma noAsciiSpace_app a b :
  noAsciiSpace (a +:+ b) = noAsciiSpace a && noAsciiSpace b.
Proof.
  induction a as [|c a IH]; [done|].
  rewrite sapp_cons. cbn [noAsciiSpace]. rewrite IH. by rewrite andb_assoc.
Qed.

Lemma asciiSpace_high b : (0x80 <= b)%N -> strings.asciiSpace b = false.
Proof.
  intros Hb. destruct (strings.asciiSpace b) eqn:Hs; [|done].
  apply asciiSpace_ascii in Hs. unfold utf8.RuneSelf in Hs. lia.
Qed.

Lemma first_high b : utf8.first b <> utf8.isASCII -> (0x80 <= b)%N.
Proof.
  unfold utf8.first. destruct (N.ltb_spec b 0x80); [done|]. intros _. lia.
Qed.

(** The bytes of a rune that is no space are no ASCII spaces. *)
Lemma DecodeRuneInString_noSpace s :
  unicode.IsSpace (utf8.DecodeRuneInString s).1 = false ->
  noAsciiSpace (stake (utf8.DecodeRuneInString s).2 s) = true.
Proof.
  destruct s as [|c0 t0]; [done|].
  unfold utf8.DecodeRuneInString.
  destruct (utf8.first (byte c0)) as [| |sz lo hi] eqn:Hf.
  - cbn. intros Hr. rewrite IsSpace_ascii in Hr; [by rewrite Hr|].
    unfold utf8.first in Hf. unfold utf8.RuneSelf.
    destruct (N.ltb_spec (byte c0) 0x80); [done|]. revert Hf. case_ifs; done.
  - intros _. cbn. rewrite asciiSpace_high; [done|].
    apply first_high. by rewrite Hf.
  - intros _.
    assert (H0 : strings.asciiSpace (byte c0) = false).
    { apply asciiSpace_high, first_high. by rewrite Hf. }
    pose proof (first_lo _ _ _ _ Hf) as Hlo.
    assert (Hcont : forall b, utf8.notContinuation b = false ->
                              strings.asciiSpace b = false).
    { intros b Hb. apply asciiSpace_high. unfold utf8.notContinuation in Hb.
      apply orb_false_iff in Hb as [Hb _]. apply N.ltb_ge in Hb. lia. }
    assert (Hsnd : forall b, ((b <? lo) || (hi <? b))%N = false ->
                             strings.asciiSpace b = false).
    { intros b Hb. apply asciiSpace_high.
      apply orb_false_iff in Hb as [Hb _]. apply N.ltb_ge in Hb. lia. }
    destruct (String.length (String c0 t0) <? sz); [cbn; by rewrite H0|].
    destruct t0 as [|c1 t1]; [cbn; by rewrite H0|].
    destruct ((byte c1 <? lo) || (hi <? byte c1))%N eqn:H1; [cbn; by rewrite H0|].
    apply Hsnd in H1.
    destruct (sz <=? 2); [cbn; by rewrite H0, H1|].
    destruct t1 as [|c2 t2]; [cbn; by rewrite H0|].
    destruct (utf8.notContinuation (byte c2)) eqn:H2; [cbn; by rewrite H0|].
    apply Hcont in H2.
    destruct (sz <=? 3); [cbn; by rewrite H0, H1, H2|].
    destruct t2 as [|c3 t3]; [cbn; by rewrite H0|].
    destruct (utf8.notContinuation (byte c3)) eqn:H3; [cbn; by rewrite H0|].
    apply Hcont in H3. cbn. by rewrite H0, H1, H2, H3.
Qed.

Lemma closeField_noSpace cur t :
  noAsciiSpace cur = true -> t ∈ strings.closeField cur -> noAsciiSpace t = true.
Proof.
  destruct cur as [|c cur]; cbn [strings.closeField]; [by intros _ ?%elem_of_nil|].
  by intros H ->%list_elem_of_singleton.
Qed.

Lemma fieldsFrom_noSpace fuel :
  forall s cur t,
    noAsciiSpace cur = true ->
    t ∈ strings.fieldsFrom unicode.IsSpace fuel s cur -> noAsciiSpace t = true.
Proof.
  induction fuel as [|fuel IH]; intros s cur t Hcur; cbn [strings.fieldsFrom].
  - by apply closeField_noSpace.
  - destruct s as [|c s]; [by apply closeField_noSpace|].
    pose proof (DecodeRuneInString_noSpace (String c s)) as Hrune.
    destruct (utf8.DecodeRuneInString (String c s)) as [r size].
    cbn [fst snd] in Hrune.
    destruct (unicode.IsSpace r).
    + intros [H|H]%elem_of_app; [by eapply closeField_noSpace|].
      by apply (IH (sdrop size (String c s)) "").
    + apply IH. rewrite noAsciiSpace_app, Hcur. by apply Hrune.
Qed.

Lemma Fields_noSpace s t : t ∈ strings.Fields s -> noAsciiSpace t = true.
Proof. rewrite Fields_FieldsFunc. by apply fieldsFrom_noSpace. Qed.

Lemma dataTokenOf_Fields instruction t :
  dataTokenOf instruction = Some t -> t ∈ strings.Fields instruction.
Proof.
  unfold dataTokenOf.
  destruct (strings.Fields instruction) as [|m [|a [|b [|c rest]]]]; try done.
  - destruct (isDestination a); [done|]. intros [= ->]. set_solver.
  - intros [= ->]. set_solver.
Qed.

(** X18: a data operand is never empty and holds no space, tab or other
    byte of ASCII white space, whatever the line; so no operand refers to a
    tag whose name holds such a byte, as the name of a tag line does that
    has text after the name: the encoder looks such a tag up for no
    line. *)
Theorem operands_hold_no_space
        (instruction : string) (t : string) (tags : gmap string Z) :
  dataTokenOf instruction = Some t ->
  t <> ""
  /\ noAsciiSpace t = true
  /\ forall name,
       noAsciiSpace name = false ->
       t <> "#" +:+ name
       /\ processData t tags <> ("", Some (UnknownTag name)).
Proof.
  intros Ht%dataTokenOf_Fields.
  pose proof (Fields_nonempty _ _ Ht) as Hne.
  pose proof (Fields_noSpace _ _ Ht) as Hns.
  split; [done|]. split; [done|]. intros name Hname.
  assert (Hother : t <> "#" +:+ name).
  { intros ->. rewrite noAsciiSpace_app, Hname in Hns. by rewrite andb_false_r in Hns. }
  split; [done|]. intros Hpd. apply Hother.
  unfold processData in Hpd. destruct (strings.HasPrefix t "#") eqn:Htag.
  - apply HasPrefix_inv in Htag. unfold processTag in Hpd.
    destruct (tags !! sdrop 1 t); [done|].
    injection Hpd as Hn. rewrite <- Hn. exact Htag.
  - unfold processBinOrDecData in Hpd. revert Hpd. case_ifs; try done.
    all: destruct (strconv.Atoi t); done.
Qed.

Lemma operands_hold_no_space_witness :
  "#LOOP" <> ""
  /\ noAsciiSpace "#LOOP" = true
  /\ forall name,
       noAsciiSpace name = false ->
       "#LOOP" <> "#" +:+ name
       /\ processData "#LOOP" ∅ <> ("", Some (UnknownTag name)).
Proof.
  apply (operands_hold_no_space "JMP #LOOP" "#LOOP" ∅). reflexivity.
Defined.

(** ** Programs of 16-bit words *)











